(** * LC-3 virtual machine (src/main.c): shallow embedding and properties

    The program is one C file: a 65,536-cell memory of [uint16_t], a
    register array of ten [uint16_t], an image loader, and the
    fetch/decode/execute loop of [main] with its trap routines.

    Conventions of the embedding.
    - A [uint16_t] is a [Z]; every store into a [uint16_t] object (array
      cell, parameter) goes through [u16], the conversion modulo 2^16.
    - The two global arrays are total functions [Z -> Z]; the code only ever
      indexes [reg] with 0..9 and [memory] with a [uint16_t], except for the
      pointer scans of the PUTS and PUTSP traps, which carry the number of
      cells left before the end of the array.
    - The terminal is part of the machine state: the bytes still to come on
      standard input, the bytes written so far to standard output, and the
      number of keyboard polls made so far.  The outcome of the i-th
      zero-timeout poll ([check_key]) depends on when the keys arrive, not on
      which keys they are, so it is a parameter [ready : nat -> bool].
    - The host is little-endian with a signed [char] (the loader's own
      comment says it converts "to little endian"). *)

From Stdlib Require Import ZArith List Lia Bool.
From Stdlib Require Import Strings.String Strings.Ascii Strings.Byte.
Import ListNotations.
Local Open Scope Z_scope.

(** ** Constants of main.c *)

Definition MEMORY_MAX : Z := Z.shiftl 1 16.

Abbreviation R_R0 := 0 (only parsing).
Abbreviation R_R7 := 7 (only parsing).
Abbreviation R_PC := 8 (only parsing).
Abbreviation R_COND := 9 (only parsing).

Definition FL_POS : Z := Z.shiftl 1 0.
Definition FL_ZRO : Z := Z.shiftl 1 1.
Definition FL_NEG : Z := Z.shiftl 1 2.

Abbreviation OP_BR := 0 (only parsing).
Abbreviation OP_ADD := 1 (only parsing).
Abbreviation OP_LD := 2 (only parsing).
Abbreviation OP_ST := 3 (only parsing).
Abbreviation OP_JSR := 4 (only parsing).
Abbreviation OP_AND := 5 (only parsing).
Abbreviation OP_LDR := 6 (only parsing).
Abbreviation OP_STR := 7 (only parsing).
Abbreviation OP_RTI := 8 (only parsing).
Abbreviation OP_NOT := 9 (only parsing).
Abbreviation OP_LDI := 10 (only parsing).
Abbreviation OP_STI := 11 (only parsing).
Abbreviation OP_JMP := 12 (only parsing).
Abbreviation OP_RES := 13 (only parsing).
Abbreviation OP_LEA := 14 (only parsing).
Abbreviation OP_TRAP := 15 (only parsing).

Abbreviation TRAP_GETC := 0x20 (only parsing).
Abbreviation TRAP_OUT := 0x21 (only parsing).
Abbreviation TRAP_PUTS := 0x22 (only parsing).
Abbreviation TRAP_IN := 0x23 (only parsing).
Abbreviation TRAP_PUTSP := 0x24 (only parsing).
Abbreviation TRAP_HALT := 0x25 (only parsing).

Definition MR_KBSR : Z := 0xfe00.
Definition MR_KBDR : Z := 0xfe02.

Definition PC_START : Z := 0x3000.

(** ** Machine words *)

(** Conversion to [uint16_t]. *)
Definition u16 (x : Z) : Z := x mod 65536.

(** Conversion to [char] (signed, 8 bits). *)
Definition to_char (x : Z) : Z :=
  let b := x mod 256 in if b <? 128 then b else b - 256.

(** Array cell update, for both [memory] and [reg]. *)
Definition upd (f : Z -> Z) (i v : Z) : Z -> Z :=
  fun j => if j =? i then v else f j.

(** ** Machine state *)

Inductive run_status : Type :=
| Running      (* [running = 1] *)
| Halted       (* [running = 0], set by TRAP_HALT *)
| Aborted      (* [abort()] was called *)
| OutOfBounds. (* a pointer scan read past the end of [memory] *)

Record vm : Type := mkVM {
  memory : Z -> Z;
  reg : Z -> Z;
  stdin : list byte;
  polls : nat;
  stdout : list Z;
  status : run_status
}.

Definition set_memory (m : Z -> Z) (s : vm) : vm :=
  mkVM m (reg s) (stdin s) (polls s) (stdout s) (status s).

Definition set_reg (r v : Z) (s : vm) : vm :=
  mkVM (memory s) (upd (reg s) r (u16 v)) (stdin s) (polls s) (stdout s)
       (status s).

Definition set_status (st : run_status) (s : vm) : vm :=
  mkVM (memory s) (reg s) (stdin s) (polls s) (stdout s) st.

(** ** The terminal *)

Definition EOF : Z := -1.

Definition byte_val (b : byte) : Z := Z.of_N (Byte.to_N b).

(** [getchar()]: the next byte as an [int], or [EOF]. *)
Definition getchar (s : vm) : Z * vm :=
  match stdin s with
  | [] => (EOF, s)
  | b :: rest =>
      (byte_val b,
       mkVM (memory s) (reg s) rest (polls s) (stdout s) (status s))
  end.

(** [fputc(c, stdout)]: writes [c] converted to [unsigned char]. *)
Definition fputc (c : Z) (s : vm) : vm :=
  mkVM (memory s) (reg s) (stdin s) (polls s) (stdout s ++ [c mod 256])
       (status s).

Definition bytes_of_string (str : string) : list Z :=
  map (fun a => Z.of_N (N_of_ascii a)) (list_ascii_of_string str).

(** [fputs(str, stdout)], also [printf] of a plain string. *)
Definition fputs (str : string) (s : vm) : vm :=
  mkVM (memory s) (reg s) (stdin s) (polls s)
       (stdout s ++ bytes_of_string str) (status s).

Section Machine.

(** Outcome of the successive keyboard polls. *)
Variable ready : nat -> bool.

(** [check_key()]: one zero-timeout poll of standard input. *)
Definition check_key (s : vm) : bool * vm :=
  (ready (polls s),
   mkVM (memory s) (reg s) (stdin s) (S (polls s)) (stdout s) (status s)).

(** ** Memory access *)

Definition mem_read (addr : Z) (s : vm) : Z * vm :=
  let addr := u16 addr in
  let s :=
    if addr =? MR_KBSR then
      let (key, s) := check_key s in
      if key then
        let s := set_memory (upd (memory s) MR_KBSR (u16 (Z.shiftl 1 15))) s in
        let (c, s) := getchar s in
        set_memory (upd (memory s) MR_KBDR (u16 c)) s
      else
        set_memory (upd (memory s) MR_KBSR (u16 0)) s
    else s in
  (memory s addr, s).

Definition mem_write (addr value : Z) (s : vm) : vm :=
  set_memory (upd (memory s) (u16 addr) (u16 value)) s.

(** ** Helpers of the executor *)

(** [bit_count] is at most 15 (the program passes 5, 6, 9 and 11): at 16
    the shift [0xffff << bit_count] would overflow [int]. *)
Definition sign_extend (num bit_count : Z) : Z :=
  if negb (Z.land (Z.shiftr num (bit_count - 1)) 0x1 =? 0)
  then u16 (Z.lor num (Z.shiftl 0xffff bit_count))
  else num.

Definition update_flags (r : Z) (s : vm) : vm :=
  if reg s r =? 0 then set_reg R_COND FL_ZRO s
  else if negb (Z.shiftr (reg s r) 15 =? 0) then set_reg R_COND FL_NEG s
  else set_reg R_COND FL_POS s.


(** The scan of TRAP_PUTS: [uint16_t *c = memory + reg[R_R0]] walks up the
    array.  [room] is the number of cells from [c] to the end of [memory].
    The loop of the source has no bound: with no room left, [*c] reads past
    the array, which C leaves undefined and which depends on what the
    process holds after [memory].  The embedding follows the program only as
    far as the end of the array; the status [OutOfBounds] marks the point
    where it stops following it. *)
Fixpoint puts_loop (room : nat) (c : Z) (s : vm) : vm :=
  match room with
  | O => set_status OutOfBounds s
  | S room' =>
      if negb (memory s c =? 0)
      then puts_loop room' (c + 1) (fputc (to_char (memory s c)) s)
      else s
  end.

(** The scan of TRAP_PUTSP: two characters a cell, low byte first. *)
Fixpoint putsp_loop (room : nat) (c : Z) (s : vm) : vm :=
  match room with
  | O => set_status OutOfBounds s
  | S room' =>
      if negb (memory s c =? 0)
      then
        let s1 := fputc (Z.land (memory s c) 0xff) s in
        let c2 := to_char (Z.shiftr (memory s c) 8) in
        let s2 := if negb (c2 =? 0) then fputc c2 s1 else s1 in
        putsp_loop room' (c + 1) s2
      else s
  end.

(** ** The instructions, one definition per [case] of the [switch] *)

Definition op_add (instr : Z) (s : vm) : vm :=
  let dr := Z.land (Z.shiftr instr 9) 0x7 in
  let sr1 := Z.land (Z.shiftr instr 6) 0x7 in
  let imm_flag := Z.land (Z.shiftr instr 5) 0x1 in
  let s :=
    if negb (imm_flag =? 0) then
      let imm5 := sign_extend (Z.land instr 0x1f) 5 in
      set_reg dr (reg s sr1 + imm5) s
    else
      let sr2 := Z.land instr 0x7 in
      set_reg dr (reg s sr1 + reg s sr2) s in
  update_flags dr s.

Definition op_and (instr : Z) (s : vm) : vm :=
  let dr := Z.land (Z.shiftr instr 9) 0x7 in
  let sr1 := Z.land (Z.shiftr instr 6) 0x7 in
  let imm_flag := Z.land (Z.shiftr instr 5) 0x1 in
  let s :=
    if negb (imm_flag =? 0) then
      let imm5 := sign_extend (Z.land instr 0x1f) 5 in
      set_reg dr (Z.land (reg s sr1) imm5) s
    else
      let sr2 := Z.land instr 0x7 in
      set_reg dr (Z.land (reg s sr1) (reg s sr2)) s in
  update_flags dr s.

Definition op_not (instr : Z) (s : vm) : vm :=
  let dr := Z.land (Z.shiftr instr 9) 0x7 in
  let sr := Z.land (Z.shiftr instr 6) 0x7 in
  let s := set_reg dr (Z.lnot (reg s sr)) s in
  update_flags dr s.

Definition op_br (instr : Z) (s : vm) : vm :=
  let flags := Z.land (Z.shiftr instr 9) 0x7 in
  let pc_offset := sign_extend (Z.land instr 0x1ff) 9 in
  if negb (Z.land flags (reg s R_COND) =? 0)
  then set_reg R_PC (reg s R_PC + pc_offset) s
  else s.

Definition op_jmp (instr : Z) (s : vm) : vm :=
  set_reg R_PC (reg s (Z.land (Z.shiftr instr 6) 0x7)) s.

Definition op_jsr (instr : Z) (s : vm) : vm :=
  let flag := Z.land (Z.shiftr instr 11) 0x1 in
  let s := set_reg R_R7 (reg s R_PC) s in
  if negb (flag =? 0)
  then set_reg R_PC (reg s R_PC + sign_extend (Z.land instr 0x7ff) 11) s
  else set_reg R_PC (reg s (Z.land (Z.shiftr instr 6) 0x7)) s.

Definition op_ld (instr : Z) (s : vm) : vm :=
  let dr := Z.land (Z.shiftr instr 9) 0x7 in
  let pc_offset := sign_extend (Z.land instr 0x1ff) 9 in
  let (v, s) := mem_read (reg s R_PC + pc_offset) s in
  let s := set_reg dr v s in
  update_flags dr s.

Definition op_ldi (instr : Z) (s : vm) : vm :=
  let dr := Z.land (Z.shiftr instr 9) 0x7 in
  let pc_offset := sign_extend (Z.land instr 0x1ff) 9 in
  let (a, s) := mem_read (reg s R_PC + pc_offset) s in
  let (v, s) := mem_read a s in
  let s := set_reg dr v s in
  update_flags dr s.

Definition op_ldr (instr : Z) (s : vm) : vm :=
  let offset := sign_extend (Z.land instr 0x3f) 6 in
  let baseR := Z.land (Z.shiftr instr 6) 0x7 in
  let dr := Z.land (Z.shiftr instr 9) 0x7 in
  let (v, s) := mem_read (reg s baseR + offset) s in
  let s := set_reg dr v s in
  update_flags dr s.

Definition op_lea (instr : Z) (s : vm) : vm :=
  let offset := sign_extend (Z.land instr 0x1ff) 9 in
  let dr := Z.land (Z.shiftr instr 9) 0x7 in
  let s := set_reg dr (reg s R_PC + offset) s in
  update_flags dr s.

Definition op_st (instr : Z) (s : vm) : vm :=
  let pc_offset := sign_extend (Z.land instr 0x1ff) 9 in
  let sr := Z.land (Z.shiftr instr 9) 0x7 in
  mem_write (reg s R_PC + pc_offset) (reg s sr) s.

Definition op_sti (instr : Z) (s : vm) : vm :=
  let pc_offset := sign_extend (Z.land instr 0x1ff) 9 in
  let sr := Z.land (Z.shiftr instr 9) 0x7 in
  let (a, s) := mem_read (reg s R_PC + pc_offset) s in
  mem_write a (reg s sr) s.

Definition op_str (instr : Z) (s : vm) : vm :=
  let offset := sign_extend (Z.land instr 0x3f) 6 in
  let baseR := Z.land (Z.shiftr instr 6) 0x7 in
  let sr := Z.land (Z.shiftr instr 9) 0x7 in
  mem_write (reg s baseR + offset) (reg s sr) s.

Definition op_trap (instr : Z) (s : vm) : vm :=
  let s := set_reg R_R7 (reg s R_PC) s in
  match Z.land instr 0xff with
  | TRAP_GETC =>
      let (c, s) := getchar s in
      let s := set_reg R_R0 c s in
      update_flags R_R0 s
  | TRAP_OUT => fputc (to_char (reg s R_R0)) s
  | TRAP_PUTS =>
      puts_loop (Z.to_nat (MEMORY_MAX - reg s R_R0)) (reg s R_R0) s
  | TRAP_IN =>
      let s := fputs "Enter a character: " s in
      let (g, s) := getchar s in
      let c := to_char g in
      let s := set_reg R_R0 c s in
      let s := fputc c s in
      update_flags R_R0 s
  | TRAP_PUTSP =>
      putsp_loop (Z.to_nat (MEMORY_MAX - reg s R_R0)) (reg s R_R0) s
  | TRAP_HALT => set_status Halted (fputs "HALT" s)
  | _ => s
  end.

(** The [switch (op)] of the main loop. *)
Definition execute (instr : Z) (s : vm) : vm :=
  let op := Z.shiftr instr 12 in
  match op with
  | OP_ADD => op_add instr s
  | OP_AND => op_and instr s
  | OP_NOT => op_not instr s
  | OP_BR => op_br instr s
  | OP_JMP => op_jmp instr s
  | OP_JSR => op_jsr instr s
  | OP_LD => op_ld instr s
  | OP_LDI => op_ldi instr s
  | OP_LDR => op_ldr instr s
  | OP_LEA => op_lea instr s
  | OP_ST => op_st instr s
  | OP_STI => op_sti instr s
  | OP_STR => op_str instr s
  | OP_TRAP => op_trap instr s
  | OP_RES | OP_RTI | _ => set_status Aborted s
  end.

(** The instruction word of this cycle: [mem_read(reg[R_PC]++)]. *)
Definition fetch (s : vm) : Z * vm :=
  let pc := reg s R_PC in
  let s := set_reg R_PC (pc + 1) s in
  mem_read pc s.

(** One turn of [while (running)]. *)
Definition step (s : vm) : vm :=
  let (instr, s) := fetch s in
  execute instr s.

(** The loop, for at most [fuel] turns; it stops by itself once the status
    is no longer [Running]. *)
Fixpoint run (fuel : nat) (s : vm) : vm :=
  match fuel with
  | O => s
  | S fuel' =>
      match status s with
      | Running => run fuel' (step s)
      | _ => s
      end
  end.

End Machine.

(** ** The image loader *)

Definition swap16 (x : Z) : Z :=
  u16 (Z.lor (Z.shiftl x 8) (Z.shiftr x 8)).

(** [fread(p, sizeof(uint16_t), n, fp)] with [p = memory + i]: up to [n] items
    of two bytes each go into consecutive cells, first byte in the low half
    (host order).  The result is the memory and the number of complete items.
    When the stream ends inside an item, the byte obtained is still copied to
    its place, as the C libraries of the supported platforms do; the item is
    not counted. *)
Fixpoint fread_words (n : nat) (fp : list byte) (i : Z) (mem : Z -> Z)
  : (Z -> Z) * nat :=
  match n with
  | O => (mem, O)
  | S n' =>
      match fp with
      | b0 :: b1 :: rest =>
          let (mem', k) :=
            fread_words n' rest (i + 1)
                        (upd mem i (byte_val b0 + 256 * byte_val b1)) in
          (mem', S k)
      | [b0] => (upd mem i (byte_val b0 + 256 * (mem i / 256)), O)
      | [] => (mem, O)
      end
  end.

(** [while (read-- > 0) { *p = swap16( *p); ++p; }] *)
Fixpoint swap_loop (read : nat) (p : Z) (mem : Z -> Z) : Z -> Z :=
  match read with
  | O => mem
  | S read' => swap_loop read' (p + 1) (upd mem p (swap16 (mem p)))
  end.

(** [read_image_file]: the memory it leaves, always [Some].  When the stream
    has no complete first item, the first [fread] leaves [origin] with an
    unspecified value and the stream at its end, so that the second [fread]
    reads nothing whatever [origin] and [max_read] are, and the loop runs no
    turn: no cell changes. *)
Definition read_image_file (fp : list byte) (mem : Z -> Z)
  : option (Z -> Z) :=
  match fp with
  | b0 :: b1 :: rest =>
      let origin := byte_val b0 + 256 * byte_val b1 in
      let origin := swap16 origin in
      let max_read := u16 (MEMORY_MAX - origin) in
      let p := origin in
      let (mem, read) := fread_words (Z.to_nat max_read) rest p mem in
      Some (swap_loop read p mem)
  | _ => Some mem
  end.

(** The memory after [read_image_file]. *)
Definition load_file (fp : list byte) (mem : Z -> Z) : Z -> Z :=
  match read_image_file fp mem with
  | Some mem' => mem'
  | None => mem
  end.

(** The files [fopen] can see: a path opens on its bytes, or does not open. *)
Definition filesystem : Type := string -> option (list byte).

Inductive load_result : Type :=
| NotOpened                 (* [read_image] returned 0 *)
| Loaded (mem : Z -> Z).    (* [read_image] returned 1 *)

Definition read_image (fs : filesystem) (path : string) (mem : Z -> Z)
  : load_result :=
  match fs path with
  | None => NotOpened
  | Some fp => Loaded (load_file fp mem)
  end.

(** ** [main] *)

Definition newline : string := String "010"%char EmptyString.

(** How [main] gets to its loop, or does not. *)
Inductive startup : Type :=
| Exit (code : Z) (out : list Z)   (* [exit(code)] after printing [out] *)
| Boot (s : vm).                   (* state on entry of [while (running)] *)

(** [for (int j = 0; j < argc; j++)], with [todo] turns left: the path that
    did not open, or the memory once every turn is done. *)
Fixpoint load_loop (todo : nat) (j : nat) (argv : list string)
         (fs : filesystem) (mem : Z -> Z) : string + (Z -> Z) :=
  match todo with
  | O => inr mem
  | S todo' =>
      let path := nth j argv EmptyString in
      match read_image fs path mem with
      | NotOpened => inl path
      | Loaded mem' => load_loop todo' (S j) argv fs mem'
      end
  end.

(** The state on entry of the loop: [reg] is a zeroed global, then
    [reg[R_COND] = FL_ZRO] and [reg[R_PC] = PC_START]; nothing is printed on
    the way there. *)
Definition boot (mem : Z -> Z) (input : list byte) : vm :=
  let s := mkVM mem (fun _ => 0) input O [] Running in
  let s := set_reg R_COND FL_ZRO s in
  set_reg R_PC PC_START s.

Definition main_startup (argv : list string) (fs : filesystem)
           (input : list byte) : startup :=
  let argc := List.length argv in
  if (argc <? 2)%nat then
    Exit 2 (bytes_of_string
              (nth 0 argv EmptyString ++ " [image-file1] ..." ++ newline)%string)
  else
    match load_loop (argc - 0) 0 argv fs (fun _ => 0) with
    | inl path =>
        Exit 1 (bytes_of_string
                  ("failed to load image: " ++ path ++ newline)%string)
    | inr mem => Boot (boot mem input)
    end.

(** The whole program, its loop bounded by [fuel]. *)
Definition main (ready : nat -> bool) (fuel : nat) (argv : list string)
           (fs : filesystem) (input : list byte) : startup :=
  match main_startup argv fs input with
  | Boot s => Boot (run ready fuel s)
  | other => other
  end.

(** ** Sample images and states *)

(** The memory a single image gives on the zeroed array. *)
Definition image_memory (image : list byte) : Z -> Z :=
  match read_image_file image (fun _ => 0) with
  | Some mem => mem
  | None => fun _ => 0
  end.

Definition never_ready : nat -> bool := fun _ => false.
Definition always_ready : nat -> bool := fun _ => true.

(** x3000 JSR +1 / x3001 HALT / x3002 TRAP x21 / x3003 JMP R7:
    a subroutine whose body makes a system call. *)
Definition jsr_trap_image : list byte :=
  [x30; x00; x48; x01; xf0; x25; xf0; x21; xc1; xc0].

(** x3000 JSR +1 / x3001 HALT / x3002 ADD R1,R0,#-1 / x3003 JMP R7. *)
Definition jsr_add_image : list byte :=
  [x30; x00; x48; x01; xf0; x25; x12; x3f; xc1; xc0].

(** x3000 LDI R0,+4 / x3001 BRzp +2 / x3002 LDI R0,+3 / x3003 TRAP x21 /
    x3004 TRAP x25 / x3005 xFE00 / x3006 xFE02: echo a key if one is
    there, then halt. *)
Definition poll_image : list byte :=
  [x30; x00; xa0; x04; x06; x02; xa0; x03; xf0; x21; xf0; x25;
   xfe; x00; xfe; x02].


(** x3000 a reserved word (opcode 13). *)
Definition reserved_image : list byte := [x30; x00; xd0; x00].

(** x3000 TRAP x26, an undefined vector / x3001 HALT. *)
Definition trap26_image : list byte := [x30; x00; xf0; x26; xf0; x25].

(** x3000 LEA R0,+2 / x3001 TRAP x22 / x3002 TRAP x25 / x3003 "Hi" / 0. *)
Definition puts_image : list byte :=
  [x30; x00; xe0; x02; xf0; x22; xf0; x25; x00; x48; x00; x69; x00; x00].

(** x3000 LEA R0,+2 / x3001 TRAP x24 / x3002 TRAP x25 / x3003 "Hi!" packed
    two to a cell / 0. *)
Definition putsp_image : list byte :=
  [x30; x00; xe0; x02; xf0; x24; xf0; x25; x69; x48; x00; x21; x00; x00].

(** x3000 TRAP x25. *)
Definition halt_image : list byte := [x30; x00; xf0; x25].

(** Origin 0 and one word, x1234. *)
Definition origin_zero_image : list byte := [x00; x00; x12; x34].

(** The first four bytes of an ELF executable. *)
Definition elf_header : list byte := [x7f; x45; x4c; x46].

(** A working directory that holds prog.obj; the program itself was found
    through PATH, so its name does not open from here. *)
Definition fs_image_only : filesystem :=
  fun path => if String.eqb path "prog.obj" then Some halt_image else None.

(** The program started by its path, which opens on the executable. *)
Definition fs_with_program : filesystem :=
  fun path =>
    if String.eqb path "prog.obj" then Some halt_image
    else if String.eqb path "./lc3" then Some elf_header
    else None.

(** The program started by a path that opens on a file of one byte. *)
Definition fs_one_byte : filesystem :=
  fun path =>
    if String.eqb path "prog.obj" then Some halt_image
    else if String.eqb path "./lc3" then Some [x7f]
    else None.

(** ** Vocabulary of the statements *)

(** Two poll oracles agree on the polls numbered [lo] to [hi - 1]. *)
Definition polls_agree (r1 r2 : nat -> bool) (lo hi : nat) : Prop :=
  forall i, (lo <= i < hi)%nat -> r1 i = r2 i.

(** Characters PUTS writes for the cells [c .. c + k - 1]. *)
Definition puts_chars (m : Z -> Z) (c : Z) (k : nat) : list Z :=
  map (fun i => m (c + Z.of_nat i) mod 256) (seq 0 k).

(** Characters PUTSP writes for the same cells: the low byte, then the high
    byte unless it is zero. *)
Definition putsp_chars (m : Z -> Z) (c : Z) (k : nat) : list Z :=
  flat_map (fun i =>
              let v := m (c + Z.of_nat i) in
              v mod 256 ::
              (if Z.shiftr v 8 mod 256 =? 0 then []
               else [Z.shiftr v 8 mod 256]))
           (seq 0 k).

(** The [j]-th 16-bit value of a byte stream, read big-endian, and the same
    two bytes as the little-endian host reads them. *)
Definition be_word (fp : list byte) (j : nat) : Z :=
  256 * byte_val (nth (2 * j) fp x00) + byte_val (nth (2 * j + 1) fp x00).

Definition le_word (fp : list byte) (j : nat) : Z :=
  byte_val (nth (2 * j) fp x00) + 256 * byte_val (nth (2 * j + 1) fp x00).

(** Every register and every memory cell holds a 16-bit value. *)
Definition word_state (s : vm) : Prop :=
  (forall r, 0 <= reg s r < 65536) /\ (forall a, 0 <= memory s a < 65536).

(** [reg[R_COND]] is one of the three flags. *)
Definition flag_valid (s : vm) : Prop :=
  reg s R_COND = FL_POS \/ reg s R_COND = FL_ZRO \/ reg s R_COND = FL_NEG.

(** x3000 TRAP x20 (GETC) / x3001 TRAP x21 (OUT) / x3002 TRAP x23 (IN) /
    x3003 TRAP x25. *)
Definition echo_image : list byte :=
  [x30; x00; xf0; x20; xf0; x21; xf0; x23; xf0; x25].

(** x3000 AND R2,R2,#0 / x3001 NOT R3,R2 / x3002 NOT R4,R3 /
    x3003 TRAP x25. *)
Definition and_image : list byte :=
  [x30; x00; x54; xa0; x96; xbf; x98; xff; xf0; x25].

(** x3000 LEA R1,+5 / x3001 ST R1,+4 / x3002 LD R2,+3 / x3003 STR R2,R1,#1 /
    x3004 LDR R3,R1,#1 / x3005 TRAP x25 / x3006 0 / x3007 0. *)
Definition store_image : list byte :=
  [x30; x00; xe2; x05; x32; x04; x24; x03; x74; x41; x66; x41; xf0; x25;
   x00; x00; x00; x00].

(** x3000 LDI R2,+2 / x3001 STI R2,+2 / x3002 TRAP x25 / x3003 x3005 /
    x3004 x3006 / x3005 x00AB / x3006 0: a load and a store through
    pointer cells. *)
Definition indirect_image : list byte :=
  [x30; x00; xa4; x02; xb4; x02; xf0; x25; x30; x05; x30; x06; x00; xab;
   x00; x00].

(** A machine whose PC has reached the keyboard status address. *)
Definition at_keyboard_status : vm :=
  set_reg R_PC MR_KBSR (boot (fun _ => 0) ["a"%byte]).

(** A program and two arguments, the second of which is not there. *)
Definition argv_missing_second : list string :=
  ["./lc3"; "prog.obj"; "missing.obj"]%string.

(** What [read_image] does to the memory for one entry of [argv]. *)
Definition load_path (fs : filesystem) (mem : Z -> Z) (path : string)
  : Z -> Z :=
  match fs path with
  | Some fp => load_file fp mem
  | None => mem
  end.

(** The cells of [t], the two keyboard cells apart, are those of [m0]. *)
Definition keeps_cells (m0 : Z -> Z) (t : vm) : Prop :=
  forall a, a <> MR_KBSR -> a <> MR_KBDR -> memory t a = m0 a.

(** The output of [t] is [o] with something written after it. *)
Definition extends_output (o : list Z) (t : vm) : Prop :=
  exists l, stdout t = o ++ l.

(** From [s] to [t] the keyboard was polled at most once and at most one
    byte of input was taken. *)
Definition at_most_one_key (s t : vm) : Prop :=
  (polls s <= polls t <= S (polls s))%nat
  /\ (List.length (stdin t) <= List.length (stdin s)
      <= S (List.length (stdin t)))%nat.

(** * Properties *)

(** ** Words and cells *)

Lemma u16_range (x : Z) : 0 <= u16 x < 65536.
Proof. unfold u16. apply Z.mod_pos_bound. lia. Qed.

Lemma u16_small (x : Z) : 0 <= x < 65536 -> u16 x = x.
Proof. intros H. unfold u16. apply Z.mod_small. exact H. Qed.

Lemma u16_idem (x : Z) : u16 (u16 x) = u16 x.
Proof. apply u16_small, u16_range. Qed.

Lemma upd_same (f : Z -> Z) (i v : Z) : upd f i v i = v.
Proof. unfold upd. now rewrite Z.eqb_refl. Qed.

Lemma upd_other (f : Z -> Z) (i v j : Z) : j <> i -> upd f i v j = f j.
Proof. intros H. unfold upd. apply Z.eqb_neq in H. now rewrite H. Qed.

Lemma land7_range (x : Z) : 0 <= Z.land x 7 < 8.
Proof.
  change 7 with (Z.ones 3). rewrite Z.land_ones by lia.
  apply Z.mod_pos_bound. reflexivity.
Qed.

Lemma byte_val_range (b : byte) : 0 <= byte_val b < 256.
Proof.
  unfold byte_val. pose proof (Byte.to_N_bounded b) as H. lia.
Qed.

(** ** Memory reads and writes *)

(** What a read of the keyboard-status address does, whatever the terminal
    holds: one poll, then either the ready mark and the result of [getchar]
    in the data cell, or a cleared status cell. *)
Lemma mem_read_kbsr (ready : nat -> bool) (s : vm) :
  mem_read ready MR_KBSR s =
  if ready (polls s) then
    (Z.shiftl 1 15,
     mkVM (upd (upd (memory s) MR_KBSR (Z.shiftl 1 15)) MR_KBDR
               (u16 (fst (getchar s))))
          (reg s) (stdin (snd (getchar s))) (S (polls s)) (stdout s)
          (status s))
  else
    (0, mkVM (upd (memory s) MR_KBSR 0) (reg s) (stdin s) (S (polls s))
             (stdout s) (status s)).
Proof.
  unfold mem_read, check_key, getchar, set_memory.
  change (u16 MR_KBSR =? MR_KBSR) with true. cbv iota.
  change (u16 (Z.shiftl 1 15)) with (Z.shiftl 1 15).
  change (u16 0) with 0.
  destruct (ready (polls s)); [destruct (stdin s) eqn:E |];
    cbn [memory reg stdin polls stdout status fst snd]; rewrite ?E;
    (f_equal; unfold upd, MR_KBSR, MR_KBDR; reflexivity).
Qed.

Lemma mem_read_plain (ready : nat -> bool) (addr : Z) (s : vm) :
  u16 addr <> MR_KBSR -> mem_read ready addr s = (memory s (u16 addr), s).
Proof.
  intros H. unfold mem_read. apply Z.eqb_neq in H. now rewrite H.
Qed.

Lemma mem_write_spec (addr value : Z) (s : vm) :
  0 <= addr < 65536 -> 0 <= value < 65536 ->
  let w := mem_write addr value s in
  memory w addr = value
  /\ (forall a, a <> addr -> memory w a = memory s a)
  /\ reg w = reg s /\ stdin w = stdin s /\ polls w = polls s
  /\ stdout w = stdout s /\ status w = status s.
Proof.
  intros Ha Hv w. subst w. unfold mem_write. cbn [memory set_memory reg stdin
    polls stdout status]. rewrite !u16_small by assumption.
  split; [apply upd_same |].
  split; [intros a Hne; now apply upd_other |].
  repeat split.
Qed.

(** The claim of C3 as written fails at the end of the input, where the poll
    is positive ([select] reports a stream at its end as readable): the read
    of 0xFE00 marks the status cell as ready, and the data cell receives
    [EOF] cut to 16 bits, 0xFFFF, which is no byte zero-extended; the status
    cell is not cleared either. *)
Lemma keyboard_read_at_end_of_input :
  let s := boot (fun _ => 0) [] in
  let r := mem_read always_ready MR_KBSR s in
  stdin s = []
  /\ always_ready (polls s) = true
  /\ fst r = 0x8000
  /\ memory (snd r) MR_KBSR = 0x8000
  /\ memory (snd r) MR_KBSR <> 0
  /\ memory (snd r) MR_KBDR = 0xFFFF
  /\ (forall b : byte, memory (snd r) MR_KBDR <> byte_val b).
Proof.
  cbv zeta. rewrite mem_read_kbsr.
  cbn [fst snd memory polls stdin boot always_ready getchar].
  rewrite upd_same, upd_other, upd_same by (cbv; congruence).
  repeat split; try reflexivity; try discriminate.
  intros b E. pose proof (byte_val_range b) as Hb. rewrite <- E in Hb.
  vm_compute in Hb. destruct Hb as [_ Hb]. discriminate Hb.
Qed.

(** C3, as the code has it: a read returns the cell at its address; it polls
    the keyboard exactly when the address is 0xFE00, and then either marks
    the status cell with bit 15 alone and puts what [getchar] returns, cut
    to 16 bits, in cell 0xFE02 (the pending byte zero-extended when there is
    one, which is consumed; 0xFFFF at the end of the input), or clears the
    status cell; a write stores its value at its address and touches nothing
    else. *)
Theorem mem_read_mem_write_spec (ready : nat -> bool) (addr : Z) (s : vm) :
  0 <= addr < 65536 ->
  let r := mem_read ready addr s in
  fst r = memory (snd r) addr
  /\ (polls (snd r) <> polls s <-> addr = MR_KBSR)
  /\ (addr <> MR_KBSR -> snd r = s)
  /\ (reg (snd r) = reg s /\ stdout (snd r) = stdout s
      /\ status (snd r) = status s)
  /\ (addr = MR_KBSR -> ready (polls s) = true ->
      memory (snd r) MR_KBSR = 0x8000
      /\ memory (snd r) MR_KBDR = u16 (fst (getchar s)))
  /\ (addr = MR_KBSR -> ready (polls s) = true ->
      forall b rest, stdin s = b :: rest ->
        memory (snd r) MR_KBSR = 0x8000
        /\ memory (snd r) MR_KBDR = byte_val b
        /\ byte_val b < 256
        /\ stdin (snd r) = rest
        /\ forall a, a <> MR_KBSR -> a <> MR_KBDR ->
                     memory (snd r) a = memory s a)
  /\ (addr = MR_KBSR -> ready (polls s) = true -> stdin s = [] ->
        memory (snd r) MR_KBSR = 0x8000
        /\ memory (snd r) MR_KBDR = 0xFFFF
        /\ stdin (snd r) = []
        /\ forall a, a <> MR_KBSR -> a <> MR_KBDR ->
                     memory (snd r) a = memory s a)
  /\ (addr = MR_KBSR -> ready (polls s) = false ->
        memory (snd r) MR_KBSR = 0
        /\ stdin (snd r) = stdin s
        /\ forall a, a <> MR_KBSR -> memory (snd r) a = memory s a)
  /\ (forall value, 0 <= value < 65536 ->
        let w := mem_write addr value s in
        memory w addr = value
        /\ (forall a, a <> addr -> memory w a = memory s a)
        /\ reg w = reg s /\ stdin w = stdin s /\ polls w = polls s
        /\ stdout w = stdout s /\ status w = status s).
Proof.
  intros Haddr r. subst r.
  destruct (Z.eq_dec addr MR_KBSR) as [E | N].
  - subst addr. rewrite mem_read_kbsr.
    destruct (ready (polls s)) eqn:Hk;
      cbn [fst snd memory polls reg stdout status stdin].
    + split; [now rewrite upd_other, upd_same by (cbv; congruence) |].
      split; [split; [reflexivity | lia] |].
      split; [congruence |].
      split; [repeat split |].
      split; [intros _ _; split;
              [now rewrite upd_other, upd_same by (cbv; congruence)
              | apply upd_same] |].
      split; [| split; [| split; [congruence
                                 | intros; now apply mem_write_spec]]].
      * intros _ _ b rest Hin. unfold getchar. rewrite Hin.
        cbn [fst snd stdin].
        pose proof (byte_val_range b) as Hb.
        split; [now rewrite upd_other, upd_same by (cbv; congruence) |].
        split; [rewrite upd_same; apply u16_small; lia |].
        split; [lia |].
        split; [reflexivity |].
        intros a H1 H2. now rewrite !upd_other.
      * intros _ _ Hin. unfold getchar. rewrite Hin. cbn [fst snd stdin].
        split; [now rewrite upd_other, upd_same by (cbv; congruence) |].
        split; [now rewrite upd_same |].
        split; [exact Hin |].
        intros a H1 H2. now rewrite !upd_other.
    + split; [now rewrite upd_same |].
      split; [split; [reflexivity | lia] |].
      split; [congruence |].
      split; [repeat split |].
      split; [congruence |].
      split; [congruence |].
      split; [congruence |].
      split; [| intros; now apply mem_write_spec].
      intros _ _. split; [apply upd_same |].
      split; [reflexivity |].
      intros a H1. now rewrite upd_other.
  - rewrite mem_read_plain by (now rewrite u16_small).
    rewrite u16_small by assumption. cbn [fst snd].
    split; [reflexivity |].
    split; [split; [congruence | tauto] |].
    split; [reflexivity |].
    split; [repeat split |].
    split; [tauto |].
    split; [tauto |].
    split; [tauto |].
    split; [tauto | intros; now apply mem_write_spec].
Qed.

(** A pending byte, then the end of the input, both under a positive
    poll. *)
Lemma mem_read_mem_write_spec_witness :
  let r := mem_read always_ready MR_KBSR (boot (fun _ => 0) ["a"%byte]) in
  let e := mem_read always_ready MR_KBSR (boot (fun _ => 0) []) in
  (fst r = 0x8000 /\ memory (snd r) MR_KBDR = 97 /\ stdin (snd r) = [])
  /\ (fst e = 0x8000 /\ memory (snd e) MR_KBDR = 0xFFFF).
Proof.
  split.
  - destruct (mem_read_mem_write_spec always_ready MR_KBSR
                (boot (fun _ => 0) ["a"%byte]))
      as [Hret [_ [_ [_ [_ [Hkey _]]]]]].
    + unfold MR_KBSR. lia.
    + destruct (Hkey eq_refl eq_refl "a"%byte [] eq_refl)
        as [Hs [Hd [_ [Hin _]]]].
      rewrite Hret. split; [exact Hs | split; [exact Hd | exact Hin]].
  - destruct (mem_read_mem_write_spec always_ready MR_KBSR
                (boot (fun _ => 0) []))
      as [Hret [_ [_ [_ [_ [_ [Hend _]]]]]]].
    + unfold MR_KBSR. lia.
    + destruct (Hend eq_refl eq_refl eq_refl) as [Hs [Hd _]].
      rewrite Hret. split; [exact Hs | exact Hd].
Defined.

(** ** Condition flags *)

Lemma shiftr15_u16 (v : Z) :
  0 <= v < 65536 -> Z.shiftr v 15 = 0 \/ Z.shiftr v 15 = 1.
Proof.
  intros H. rewrite Z.shiftr_div_pow2 by lia. change (2 ^ 15) with 32768.
  assert (0 <= v / 32768 < 2).
  { split; [apply Z.div_pos; lia | apply Z.div_lt_upper_bound; lia]. }
  lia.
Qed.

(** [update_flags] on a register that holds a 16-bit value: the register is
    kept, and [reg[R_COND]] is the one flag that matches it. *)
Lemma update_flags_spec (r : Z) (s : vm) :
  r <> R_COND -> 0 <= reg s r < 65536 ->
  let s' := update_flags r s in
  reg s' r = reg s r
  /\ ((reg s r = 0 /\ reg s' R_COND = FL_ZRO)
      \/ (reg s r <> 0 /\ Z.testbit (reg s r) 15 = true
          /\ reg s' R_COND = FL_NEG)
      \/ (reg s r <> 0 /\ Z.testbit (reg s r) 15 = false
          /\ reg s' R_COND = FL_POS)).
Proof.
  intros Hr Hv s'. subst s'. unfold update_flags.
  rewrite Z.testbit_odd.
  destruct (reg s r =? 0) eqn:Hz.
  - apply Z.eqb_eq in Hz. unfold set_reg. cbn [reg].
    rewrite upd_other by assumption. rewrite upd_same.
    split; [reflexivity | left; split; [assumption | reflexivity]].
  - apply Z.eqb_neq in Hz.
    destruct (shiftr15_u16 (reg s r) Hv) as [E | E]; rewrite E;
      cbn [Z.eqb negb Z.odd]; unfold set_reg; cbn [reg];
      rewrite upd_other by assumption; rewrite upd_same;
      (split; [reflexivity |]).
    + right; right. repeat split; assumption.
    + right; left. repeat split; assumption.
Qed.

(** The same for the pattern of every flag-updating instruction: write the
    destination register, then update the flags on it. *)
Lemma write_then_update_flags (r v : Z) (s : vm) :
  0 <= r < 8 ->
  let s' := update_flags r (set_reg r v s) in
  let w := reg s' r in
  w = u16 v
  /\ ((w = 0 /\ reg s' R_COND = FL_ZRO)
      \/ (w <> 0 /\ Z.testbit w 15 = true /\ reg s' R_COND = FL_NEG)
      \/ (w <> 0 /\ Z.testbit w 15 = false /\ reg s' R_COND = FL_POS)).
Proof.
  intros Hr s' w. subst w s'.
  assert (Hw : reg (set_reg r v s) r = u16 v)
    by (unfold set_reg; cbn [reg]; apply upd_same).
  destruct (update_flags_spec r (set_reg r v s)) as [Hk Hf].
  - lia.
  - rewrite Hw. apply u16_range.
  - rewrite Hk. split; [exact Hw | exact Hf].
Qed.

Ltac flag_case :=
  cbv zeta;
  repeat match goal with
         | |- context [mem_read ?rd ?a ?s] =>
             let v := fresh "v" in
             let t := fresh "t" in
             destruct (mem_read rd a s) as [v t]
         | |- context [if negb ?c then _ else _] => destruct c; cbn [negb]
         end;
  apply write_then_update_flags, land7_range.

(** C4: after ADD, AND, NOT, LD, LDI, LDR, LEA (destination register in bits
    11..9) and after the traps GETC and IN (destination R0), [reg[R_COND]] is
    Zero when the register just written is 0, Negative when its bit 15 is
    set, Positive otherwise; it is always exactly one of the three. *)
Theorem flags_follow_written_register (ready : nat -> bool) (s : vm) (r : Z) :
  let instr := fst (fetch ready s) in
  let s' := step ready s in
  (In (Z.shiftr instr 12)
      [OP_ADD; OP_AND; OP_NOT; OP_LD; OP_LDI; OP_LDR; OP_LEA]
   /\ r = Z.land (Z.shiftr instr 9) 0x7)
  \/ (Z.shiftr instr 12 = OP_TRAP
      /\ In (Z.land instr 0xff) [TRAP_GETC; TRAP_IN] /\ r = R_R0) ->
  let w := reg s' r in
  ((w = 0 /\ reg s' R_COND = FL_ZRO)
   \/ (w <> 0 /\ Z.testbit w 15 = true /\ reg s' R_COND = FL_NEG)
   \/ (w <> 0 /\ Z.testbit w 15 = false /\ reg s' R_COND = FL_POS))
  /\ Z.b2z (Z.testbit (reg s' R_COND) 0)
     + Z.b2z (Z.testbit (reg s' R_COND) 1)
     + Z.b2z (Z.testbit (reg s' R_COND) 2) = 1
  /\ Z.land (reg s' R_COND) 0x7 = reg s' R_COND.
Proof.
  intros instr s' H w.
  assert (Hmain :
            (w = 0 /\ reg s' R_COND = FL_ZRO)
            \/ (w <> 0 /\ Z.testbit w 15 = true /\ reg s' R_COND = FL_NEG)
            \/ (w <> 0 /\ Z.testbit w 15 = false /\ reg s' R_COND = FL_POS)).
  { subst w s' instr. unfold step.
    destruct (fetch ready s) as [instr s1]. cbn [fst] in H.
    unfold execute. cbv zeta.
    destruct H as [[Hop Hr] | [Hop [Hv Hr]]]; subst r.
    - cbn [In] in Hop.
      destruct Hop as [E | [E | [E | [E | [E | [E | [E | []]]]]]]];
        rewrite <- E; cbv iota.
      + unfold op_add. flag_case.
      + unfold op_and. flag_case.
      + unfold op_not. flag_case.
      + unfold op_ld. flag_case.
      + unfold op_ldi. flag_case.
      + unfold op_ldr. flag_case.
      + unfold op_lea. flag_case.
    - rewrite Hop. cbv iota. unfold op_trap. cbv zeta.
      cbn [In] in Hv. destruct Hv as [E | [E | []]]; rewrite <- E; cbv iota.
      + destruct (getchar (set_reg 7 (reg s1 8) s1)) as [c t].
        apply write_then_update_flags. lia.
      + destruct (getchar _) as [g t].
        set (t1 := fputc _ _).
        assert (Ht1 : reg t1 0 = u16 (to_char g))
          by (subst t1; unfold fputc, set_reg; cbn [reg]; apply upd_same).
        destruct (update_flags_spec 0 t1) as [Hk Hf].
        * lia.
        * rewrite Ht1. apply u16_range.
        * rewrite Hk. exact Hf. }
  split; [exact Hmain |].
  destruct Hmain as [[_ E] | [[_ [_ E]] | [_ [_ E]]]]; rewrite E;
    split; reflexivity.
Qed.

Lemma flags_follow_written_register_witness :
  let s := step never_ready (boot (image_memory jsr_add_image) []) in
  reg (step never_ready s) 1 = 0xFFFF
  /\ reg (step never_ready s) R_COND = FL_NEG.
Proof.
  cbv zeta.
  destruct (flags_follow_written_register never_ready
              (step never_ready (boot (image_memory jsr_add_image) [])) 1)
    as [[[Hw _] | [[_ [_ Hc]] | [_ [Hb _]]]] _].
  - left. split; [left; vm_compute; reflexivity | vm_compute; reflexivity].
  - vm_compute in Hw. discriminate Hw.
  - split; [vm_compute; reflexivity | exact Hc].
  - vm_compute in Hb. discriminate Hb.
Defined.

(** ** The fetch *)

Lemma mem_read_keeps (ready : nat -> bool) (a : Z) (s : vm) :
  reg (snd (mem_read ready a s)) = reg s
  /\ stdout (snd (mem_read ready a s)) = stdout s
  /\ status (snd (mem_read ready a s)) = status s.
Proof.
  unfold mem_read, check_key, getchar, set_memory.
  destruct (u16 a =? MR_KBSR); [| now cbn].
  destruct (ready (polls s)); [| now cbn].
  cbn [stdin]. destruct (stdin s); now cbn.
Qed.

Lemma fetch_keeps (ready : nat -> bool) (s : vm) :
  reg (snd (fetch ready s)) = upd (reg s) R_PC (u16 (reg s R_PC + 1))
  /\ stdout (snd (fetch ready s)) = stdout s
  /\ status (snd (fetch ready s)) = status s.
Proof.
  unfold fetch. cbv zeta.
  destruct (mem_read_keeps ready (reg s 8) (set_reg 8 (reg s 8 + 1) s))
    as [Hr [Ho Hs]].
  rewrite Hr, Ho, Hs. now cbn.
Qed.

Lemma fetch_reg (ready : nat -> bool) (s : vm) (r : Z) :
  r <> R_PC -> reg (snd (fetch ready s)) r = reg s r.
Proof.
  intros H. destruct (fetch_keeps ready s) as [Hr _]. rewrite Hr.
  now apply upd_other.
Qed.

Lemma fetch_pc (ready : nat -> bool) (s : vm) :
  reg (snd (fetch ready s)) R_PC = u16 (reg s R_PC + 1).
Proof.
  destruct (fetch_keeps ready s) as [Hr _]. rewrite Hr. apply upd_same.
Qed.

(** ** ADD *)

Lemma op_add_spec (instr : Z) (s : vm) :
  let dr := Z.land (Z.shiftr instr 9) 0x7 in
  let sr1 := Z.land (Z.shiftr instr 6) 0x7 in
  let operand :=
    if Z.land (Z.shiftr instr 5) 0x1 =? 0
    then reg s (Z.land instr 0x7)
    else sign_extend (Z.land instr 0x1f) 5 in
  let s' := op_add instr s in
  let w := reg s' dr in
  w = (reg s sr1 + operand) mod 65536
  /\ ((w = 0 /\ reg s' R_COND = FL_ZRO)
      \/ (w <> 0 /\ Z.testbit w 15 = true /\ reg s' R_COND = FL_NEG)
      \/ (w <> 0 /\ Z.testbit w 15 = false /\ reg s' R_COND = FL_POS)).
Proof.
  cbv zeta. unfold op_add. cbv zeta.
  destruct (Z.land (Z.shiftr instr 5) 1 =? 0); cbn [negb];
    apply write_then_update_flags, land7_range.
Qed.

(** C6: ADD, in both forms, is addition modulo 65,536; 0xFFFF plus 1 gives 0
    with flag Zero; ADD R1,R0,#-1 (the word 0x123F) with R0 = 0 gives
    R1 = 0xFFFF with flag Negative. *)
Theorem add_wraps_modulo_65536 (ready : nat -> bool) (s : vm) :
  let instr := fst (fetch ready s) in
  let s' := step ready s in
  let dr := Z.land (Z.shiftr instr 9) 0x7 in
  let sr1 := Z.land (Z.shiftr instr 6) 0x7 in
  let sr2 := Z.land instr 0x7 in
  let imm_flag := Z.land (Z.shiftr instr 5) 0x1 in
  let imm5 := sign_extend (Z.land instr 0x1f) 5 in
  Z.shiftr instr 12 = OP_ADD ->
  (imm_flag <> 0 -> reg s' dr = (reg s sr1 + imm5) mod 65536)
  /\ (imm_flag = 0 -> reg s' dr = (reg s sr1 + reg s sr2) mod 65536)
  /\ (imm_flag <> 0 -> Z.land instr 0x1f = 1 -> reg s sr1 = 0xFFFF ->
      reg s' dr = 0x0000 /\ reg s' R_COND = FL_ZRO)
  /\ (imm_flag = 0 -> reg s sr2 = 1 -> reg s sr1 = 0xFFFF ->
      reg s' dr = 0x0000 /\ reg s' R_COND = FL_ZRO)
  /\ (instr = 0x123F -> reg s R_R0 = 0 ->
      reg s' 1 = 0xFFFF /\ reg s' R_COND = FL_NEG).
Proof.
  intros instr s' dr sr1 sr2 imm_flag imm5 Hop.
  assert (H1 : reg (snd (fetch ready s)) sr1 = reg s sr1).
  { apply fetch_reg. pose proof (land7_range (Z.shiftr instr 6)).
    subst sr1. lia. }
  assert (H2 : reg (snd (fetch ready s)) sr2 = reg s sr2).
  { apply fetch_reg. pose proof (land7_range instr). subst sr2. lia. }
  assert (Hs' : s' = op_add instr (snd (fetch ready s))).
  { subst s' instr. unfold step. destruct (fetch ready s) as [i t].
    cbn [fst snd] in *. unfold execute. cbv zeta. rewrite Hop. reflexivity. }
  destruct (op_add_spec instr (snd (fetch ready s))) as [Hw Hf].
  rewrite <- Hs' in Hw, Hf. fold dr sr1 sr2 imm_flag imm5 in Hw, Hf.
  rewrite H1, H2 in Hw. clear Hs' H1 H2. clearbody s' instr.
  assert (Hzero : reg s' dr = 0 -> reg s' 9 = FL_ZRO).
  { intros Z0. destruct Hf as [[_ E] | [[N _] | [N _]]];
      [exact E | contradiction | contradiction]. }
  split; [| split; [| split; [| split]]].
  - intros Hi. apply Z.eqb_neq in Hi. now rewrite Hi in Hw.
  - intros Hi. apply Z.eqb_eq in Hi. now rewrite Hi in Hw.
  - intros Hi Himm Hr. apply Z.eqb_neq in Hi. rewrite Hi in Hw.
    subst imm5. rewrite Himm, Hr in Hw.
    assert (Z0 : reg s' dr = 0) by (rewrite Hw; reflexivity).
    split; [exact Z0 | exact (Hzero Z0)].
  - intros Hi Hr2 Hr1. apply Z.eqb_eq in Hi. rewrite Hi, Hr1, Hr2 in Hw.
    assert (Z0 : reg s' dr = 0) by (rewrite Hw; reflexivity).
    split; [exact Z0 | exact (Hzero Z0)].
  - intros Hinstr Hr0. subst dr sr1 sr2 imm_flag imm5. subst instr.
    change (Z.land (Z.shiftr 0x123F 9) 7) with 1 in Hw, Hf.
    change (Z.land (Z.shiftr 0x123F 6) 7) with 0 in Hw.
    change (Z.land (Z.shiftr 0x123F 5) 1 =? 0) with false in Hw.
    change (sign_extend (Z.land 0x123F 31) 5) with 0xFFFF in Hw.
    rewrite Hr0 in Hw. change ((0 + 0xFFFF) mod 65536) with 0xFFFF in Hw.
    split; [exact Hw |].
    rewrite Hw in Hf.
    destruct Hf as [[E _] | [[_ [_ E]] | [_ [E _]]]];
      [discriminate E | exact E | discriminate E].
Qed.

Lemma add_wraps_modulo_65536_witness :
  let s := step never_ready (boot (image_memory jsr_add_image) []) in
  reg (step never_ready s) 1 = 0xFFFF
  /\ reg (step never_ready s) R_COND = FL_NEG.
Proof.
  cbv zeta.
  destruct (add_wraps_modulo_65536 never_ready
              (step never_ready (boot (image_memory jsr_add_image) [])))
    as [_ [_ [_ [_ H]]]].
  - vm_compute. reflexivity.
  - apply H; vm_compute; reflexivity.
Defined.

(** ** The loop *)

Lemma run_stopped (ready : nat -> bool) (fuel : nat) (s : vm) :
  status s <> Running -> run ready fuel s = s.
Proof.
  intros H. destruct fuel; [reflexivity |]. cbn [run].
  destruct (status s); congruence.
Qed.

Lemma run_first (ready : nat -> bool) (fuel : nat) (s : vm) :
  status s = Running -> run ready (S fuel) s = run ready fuel (step ready s).
Proof. intros H. cbn [run]. now rewrite H. Qed.

Lemma run_last (ready : nat -> bool) (fuel : nat) (s : vm) :
  status (run ready fuel s) = Running ->
  run ready (S fuel) s = step ready (run ready fuel s).
Proof.
  revert s. induction fuel as [| fuel IH]; intros s H.
  - cbn [run] in *. now rewrite H.
  - destruct (status s) eqn:Hs.
    + rewrite run_first by assumption. rewrite run_first in H by assumption.
      rewrite (run_first ready fuel s Hs). now apply IH.
    + rewrite run_stopped in H by congruence. congruence.
    + rewrite run_stopped in H by congruence. congruence.
    + rewrite run_stopped in H by congruence. congruence.
Qed.

(** ** Reserved opcodes *)

(** C7: when the fetched word has opcode 8 or 13, the cycle ends in
    [abort()]: nothing is written to the output in it, and the loop runs no
    further instruction. *)
Theorem reserved_opcode_aborts (ready : nat -> bool) (s : vm) :
  let instr := fst (fetch ready s) in
  status s = Running ->
  Z.shiftr instr 12 = OP_RTI \/ Z.shiftr instr 12 = OP_RES ->
  status (step ready s) = Aborted
  /\ stdout (step ready s) = stdout s
  /\ (forall r, r <> R_PC -> reg (step ready s) r = reg s r)
  /\ (forall fuel, run ready (S fuel) s = step ready s)
  /\ (forall fuel, run ready fuel (step ready s) = step ready s).
Proof.
  intros instr Hrun Hop.
  assert (Hs : step ready s = set_status Aborted (snd (fetch ready s))).
  { subst instr. unfold step. destruct (fetch ready s) as [i t].
    cbn [fst snd] in *. unfold execute. cbv zeta.
    destruct Hop as [E | E]; rewrite E; reflexivity. }
  destruct (fetch_keeps ready s) as [Hr [Ho _]].
  assert (Hst : status (step ready s) = Aborted) by (now rewrite Hs).
  assert (Hstop : forall fuel, run ready fuel (step ready s) = step ready s)
    by (intros fuel; apply run_stopped; congruence).
  split; [exact Hst |].
  split; [rewrite Hs; cbn [set_status stdout]; exact Ho |].
  split; [intros r Hne; rewrite Hs; cbn [set_status reg];
          now apply fetch_reg |].
  split; [| exact Hstop].
  intros fuel. rewrite run_first by assumption. apply Hstop.
Qed.

Lemma reserved_opcode_aborts_witness :
  status (step never_ready (boot (image_memory reserved_image) [])) = Aborted
  /\ stdout (step never_ready (boot (image_memory reserved_image) [])) = [].
Proof.
  destruct (reserved_opcode_aborts never_ready
              (boot (image_memory reserved_image) []))
    as [Hs [Ho _]].
  - reflexivity.
  - right. vm_compute. reflexivity.
  - split; [exact Hs | exact Ho].
Defined.

(** ** Traps *)

Lemma mem_read_u16 (ready : nat -> bool) (a : Z) (s : vm) :
  mem_read ready (u16 a) s = mem_read ready a s.
Proof. unfold mem_read. now rewrite u16_idem. Qed.

(** A word fetched from the keyboard-status address is the status the fetch
    has just stored there: never a TRAP. *)
Lemma fetch_at_kbsr (ready : nat -> bool) (s : vm) :
  u16 (reg s R_PC) = MR_KBSR ->
  fst (fetch ready s) = Z.shiftl 1 15 \/ fst (fetch ready s) = 0.
Proof.
  intros H. unfold fetch. cbv zeta. rewrite <- mem_read_u16, H.
  rewrite mem_read_kbsr. destruct (ready _); [left | right]; reflexivity.
Qed.

Lemma fetch_plain (ready : nat -> bool) (s : vm) :
  u16 (reg s R_PC) <> MR_KBSR ->
  fetch ready s =
  (memory s (u16 (reg s R_PC)), set_reg R_PC (reg s R_PC + 1) s).
Proof.
  intros H. unfold fetch. cbv zeta. now rewrite mem_read_plain.
Qed.

Lemma op_trap_no_case (instr : Z) (s : vm) :
  ~ In (Z.land instr 0xff)
       [TRAP_GETC; TRAP_OUT; TRAP_PUTS; TRAP_IN; TRAP_PUTSP; TRAP_HALT] ->
  op_trap instr s = set_reg R_R7 (reg s R_PC) s.
Proof.
  intros H. unfold op_trap. cbv zeta.
  destruct (Z.land instr 255) as [| p | p]; try reflexivity.
  do 6 (try (destruct p as [p | p |]; try reflexivity));
    exfalso; apply H; cbn [In]; tauto.
Qed.

(** C9: a TRAP whose vector is none of 0x20..0x25 falls through the inner
    [switch]: the cycle sets PC and R7 to the incremented PC and changes
    nothing else; the machine keeps running. *)
Theorem undefined_trap_vector_only_links (ready : nat -> bool) (s : vm) :
  let instr := fst (fetch ready s) in
  let s' := step ready s in
  status s = Running ->
  Z.shiftr instr 12 = OP_TRAP ->
  ~ In (Z.land instr 0xff)
       [TRAP_GETC; TRAP_OUT; TRAP_PUTS; TRAP_IN; TRAP_PUTSP; TRAP_HALT] ->
  reg s' R_R7 = u16 (reg s R_PC + 1)
  /\ reg s' R_PC = u16 (reg s R_PC + 1)
  /\ (forall r, r <> R_R7 -> r <> R_PC -> reg s' r = reg s r)
  /\ reg s' R_COND = reg s R_COND
  /\ memory s' = memory s
  /\ stdout s' = stdout s
  /\ stdin s' = stdin s
  /\ polls s' = polls s
  /\ status s' = Running
  /\ (forall fuel, run ready (S fuel) s = run ready fuel s').
Proof.
  intros instr s' Hrun Hop Hvec.
  assert (Hpc : u16 (reg s R_PC) <> MR_KBSR).
  { intros E. destruct (fetch_at_kbsr ready s E) as [F | F];
      subst instr; rewrite F in Hop; discriminate Hop. }
  assert (Hs : s' = set_reg R_R7 (u16 (reg s R_PC + 1))
                            (set_reg R_PC (reg s R_PC + 1) s)).
  { subst s' instr. unfold step. rewrite fetch_plain in * by assumption.
    cbn [fst] in *. unfold execute. cbv zeta. rewrite Hop. cbv iota.
    rewrite op_trap_no_case by assumption.
    unfold set_reg at 2. cbn [reg]. now rewrite upd_same. }
  assert (Hnext : forall fuel, run ready (S fuel) s = run ready fuel s')
    by (intros fuel; now apply run_first).
  clearbody s'. split; [| split; [| split; [| split; [| split; [| split;
    [| split; [| split; [| split; [| exact Hnext]]]]]]]]];
    subst s'; unfold set_reg; cbn [reg memory stdout stdin polls status].
  - rewrite upd_same. apply u16_idem.
  - rewrite upd_other by lia. apply upd_same.
  - intros r H7 H8. now rewrite !upd_other.
  - now rewrite !upd_other by lia.
  - reflexivity.
  - reflexivity.
  - reflexivity.
  - reflexivity.
  - exact Hrun.
Qed.

Lemma undefined_trap_vector_only_links_witness :
  reg (step never_ready (boot (image_memory trap26_image) [])) R_R7 = 0x3001
  /\ status (step never_ready (boot (image_memory trap26_image) []))
     = Running.
Proof.
  destruct (undefined_trap_vector_only_links never_ready
              (boot (image_memory trap26_image) []))
    as [H7 [_ [_ [_ [_ [_ [_ [_ [Hs _]]]]]]]]].
  - reflexivity.
  - vm_compute. reflexivity.
  - vm_compute. intros H. repeat destruct H as [H | H]; try discriminate H.
    exact H.
  - split; [exact H7 | exact Hs].
Defined.

(** ** Subroutine call and return *)

Lemma op_jsr_link (instr : Z) (s : vm) :
  reg (op_jsr instr s) R_R7 = u16 (reg s R_PC).
Proof.
  unfold op_jsr. cbv zeta.
  destruct (Z.land (Z.shiftr instr 11) 1 =? 0); cbn [negb];
    unfold set_reg; cbn [reg]; rewrite upd_other by lia; apply upd_same.
Qed.

(** C5, as the code has it: every cycle increments PC while fetching, so JSR
    (either form) leaves the address of the next word in R7; and when, some
    cycles later, JMP R7 is fetched while R7 still holds that address,
    control is back at the word after the JSR. *)
Theorem jsr_then_jmp_r7_returns (ready : nat -> bool) (s : vm) (n : nat) :
  let instr := fst (fetch ready s) in
  let s1 := step ready s in
  let s2 := run ready n s1 in
  let ret := fst (fetch ready s2) in
  fst (fetch ready s) = memory (snd (fetch ready s)) (u16 (reg s R_PC))
  /\ reg (snd (fetch ready s)) R_PC = u16 (reg s R_PC + 1)
  /\ (status s = Running ->
      Z.shiftr instr 12 = OP_JSR ->
      reg s1 R_R7 = u16 (reg s R_PC + 1)
      /\ (status s2 = Running ->
          reg s2 R_R7 = reg s1 R_R7 ->
          Z.shiftr ret 12 = OP_JMP ->
          Z.land (Z.shiftr ret 6) 0x7 = R_R7 ->
          reg (step ready s2) R_PC = u16 (reg s R_PC + 1)
          /\ run ready (S (S n)) s = step ready s2)).
Proof.
  intros instr s1 s2 ret.
  split; [reflexivity |].
  split; [apply fetch_pc |].
  intros Hrun Hop.
  assert (H7 : reg s1 R_R7 = u16 (reg s R_PC + 1)).
  { subst s1 instr. unfold step. pose proof (fetch_pc ready s) as Hpc.
    destruct (fetch ready s) as [i t]. cbn [fst snd] in *.
    unfold execute. cbv zeta. rewrite Hop. cbv iota.
    rewrite op_jsr_link, Hpc. apply u16_idem. }
  split; [exact H7 |].
  intros Hrun2 Hkeep Hjmp Hbase.
  split.
  - subst ret. unfold step. pose proof (fetch_reg ready s2 R_R7) as Hr.
    destruct (fetch ready s2) as [i t]. cbn [fst snd] in *.
    unfold execute. cbv zeta. rewrite Hjmp. cbv iota.
    unfold op_jmp. rewrite Hbase. unfold set_reg. cbn [reg].
    rewrite upd_same, Hr by lia. rewrite Hkeep, H7. apply u16_idem.
  - rewrite run_first by assumption. fold s1. now apply run_last.
Qed.

(** The claim of C5 as written fails for a body that overwrites R7: here
    the subroutine at x3002 makes a system call, TRAP stores its own return
    address in R7, and JMP R7 at x3003 jumps to x3003 and not to x3001, the
    word after the JSR at x3000. *)
Lemma jsr_body_with_trap_does_not_return :
  let s := boot (image_memory jsr_trap_image) [] in
  let s2 := run never_ready 2 s in
  reg s R_PC = 0x3000
  /\ fst (fetch never_ready s) = 0x4801
  /\ Z.shiftr (fst (fetch never_ready s)) 12 = OP_JSR
  /\ status s2 = Running
  /\ fst (fetch never_ready s2) = 0xC1C0
  /\ Z.shiftr (fst (fetch never_ready s2)) 12 = OP_JMP
  /\ Z.land (Z.shiftr (fst (fetch never_ready s2)) 6) 0x7 = R_R7
  /\ reg (step never_ready s2) R_PC = 0x3003
  /\ reg (step never_ready s2) R_PC <> u16 (reg s R_PC + 1).
Proof.
  vm_compute. repeat split; discriminate.
Qed.

(** A subroutine body that leaves R7 alone: the return lands at x3001. *)
Lemma jsr_then_jmp_r7_returns_witness :
  reg (step never_ready
         (run never_ready 1
              (step never_ready (boot (image_memory jsr_add_image) []))))
      R_PC = 0x3001.
Proof.
  apply (jsr_then_jmp_r7_returns never_ready
           (boot (image_memory jsr_add_image) []) 1);
    vm_compute; reflexivity.
Defined.

(** ** Keyboard polls and determinism *)


Lemma polls_agree_shrink (r1 r2 : nat -> bool) (lo hi lo' hi' : nat) :
  polls_agree r1 r2 lo hi -> (lo <= lo')%nat -> (hi' <= hi)%nat ->
  polls_agree r1 r2 lo' hi'.
Proof. intros H Hl Hh i Hi. apply H. lia. Qed.

Lemma mem_read_polls (ready : nat -> bool) (a : Z) (s : vm) :
  polls (snd (mem_read ready a s)) =
  if u16 a =? MR_KBSR then S (polls s) else polls s.
Proof.
  unfold mem_read, check_key, getchar, set_memory.
  destruct (u16 a =? MR_KBSR); [| reflexivity].
  destruct (ready (polls s)); [| reflexivity].
  cbn [stdin]. destruct (stdin s); reflexivity.
Qed.

Lemma mem_read_mono (ready : nat -> bool) (a : Z) (s : vm) :
  (polls s <= polls (snd (mem_read ready a s)))%nat.
Proof. rewrite mem_read_polls. destruct (u16 a =? MR_KBSR); lia. Qed.

Lemma mem_read_local (r1 r2 : nat -> bool) (a : Z) (s : vm) :
  polls_agree r1 r2 (polls s) (polls (snd (mem_read r1 a s))) ->
  mem_read r1 a s = mem_read r2 a s.
Proof.
  rewrite mem_read_polls. intros H. unfold mem_read, check_key.
  destruct (u16 a =? MR_KBSR); [| reflexivity].
  rewrite (H (polls s)) by lia. reflexivity.
Qed.

Lemma update_flags_polls (r : Z) (s : vm) :
  polls (update_flags r s) = polls s.
Proof.
  unfold update_flags.
  destruct (reg s r =? 0); [reflexivity |].
  destruct (Z.shiftr (reg s r) 15 =? 0); reflexivity.
Qed.

Lemma getchar_polls (s : vm) : polls (snd (getchar s)) = polls s.
Proof. unfold getchar. destruct (stdin s); reflexivity. Qed.

Lemma getchar_polls_eq (s t : vm) (c : Z) :
  getchar s = (c, t) -> polls t = polls s.
Proof.
  intros E. change t with (snd (c, t)). rewrite <- E. apply getchar_polls.
Qed.

Lemma puts_loop_polls (room : nat) (c : Z) (s : vm) :
  polls (puts_loop room c s) = polls s.
Proof.
  revert c s. induction room as [| room IH]; intros c s; cbn [puts_loop].
  - reflexivity.
  - destruct (memory s c =? 0); cbn [negb]; [reflexivity |].
    now rewrite IH.
Qed.

Lemma putsp_loop_polls (room : nat) (c : Z) (s : vm) :
  polls (putsp_loop room c s) = polls s.
Proof.
  revert c s. induction room as [| room IH]; intros c s; cbn [putsp_loop].
  - reflexivity.
  - destruct (memory s c =? 0); cbn [negb]; [reflexivity |].
    cbv zeta. rewrite IH.
    destruct (to_char (Z.shiftr (memory s c) 8) =? 0); reflexivity.
Qed.

Lemma op_trap_polls (instr : Z) (s : vm) :
  polls (op_trap instr s) = polls s.
Proof.
  unfold op_trap. cbv zeta.
  destruct (Z.land instr 255) as [| p | p]; try reflexivity.
  do 6 (try (destruct p as [p | p |]; try reflexivity));
    try (rewrite ?puts_loop_polls, ?putsp_loop_polls; reflexivity);
    destruct (getchar _) as [c t] eqn:E; apply getchar_polls_eq in E;
    rewrite update_flags_polls; cbn [set_reg fputc polls]; exact E.
Qed.

Lemma op_ld_local (r1 r2 : nat -> bool) (instr : Z) (s : vm) :
  polls_agree r1 r2 (polls s) (polls (op_ld r1 instr s)) ->
  op_ld r1 instr s = op_ld r2 instr s
  /\ (polls s <= polls (op_ld r1 instr s))%nat.
Proof.
  unfold op_ld. cbv zeta.
  set (a := reg s 8 + sign_extend (Z.land instr 511) 9).
  pose proof (mem_read_mono r1 a s) as Hm.
  pose proof (mem_read_local r1 r2 a s) as Hl.
  destruct (mem_read r1 a s) as [v t]. cbn [snd] in *.
  rewrite update_flags_polls. cbn [set_reg polls].
  intros H. rewrite <- (Hl H). split; [reflexivity | exact Hm].
Qed.

Lemma op_ldr_local (r1 r2 : nat -> bool) (instr : Z) (s : vm) :
  polls_agree r1 r2 (polls s) (polls (op_ldr r1 instr s)) ->
  op_ldr r1 instr s = op_ldr r2 instr s
  /\ (polls s <= polls (op_ldr r1 instr s))%nat.
Proof.
  unfold op_ldr. cbv zeta.
  set (a := reg s _ + sign_extend _ 6).
  pose proof (mem_read_mono r1 a s) as Hm.
  pose proof (mem_read_local r1 r2 a s) as Hl.
  destruct (mem_read r1 a s) as [v t]. cbn [snd] in *.
  rewrite update_flags_polls. cbn [set_reg polls].
  intros H. rewrite <- (Hl H). split; [reflexivity | exact Hm].
Qed.

Lemma op_sti_local (r1 r2 : nat -> bool) (instr : Z) (s : vm) :
  polls_agree r1 r2 (polls s) (polls (op_sti r1 instr s)) ->
  op_sti r1 instr s = op_sti r2 instr s
  /\ (polls s <= polls (op_sti r1 instr s))%nat.
Proof.
  unfold op_sti. cbv zeta.
  set (a := reg s 8 + sign_extend (Z.land instr 511) 9).
  pose proof (mem_read_mono r1 a s) as Hm.
  pose proof (mem_read_local r1 r2 a s) as Hl.
  destruct (mem_read r1 a s) as [v t]. cbn [snd] in *.
  cbn [mem_write set_memory polls].
  intros H. rewrite <- (Hl H). split; [reflexivity | exact Hm].
Qed.

Lemma op_ldi_local (r1 r2 : nat -> bool) (instr : Z) (s : vm) :
  polls_agree r1 r2 (polls s) (polls (op_ldi r1 instr s)) ->
  op_ldi r1 instr s = op_ldi r2 instr s
  /\ (polls s <= polls (op_ldi r1 instr s))%nat.
Proof.
  unfold op_ldi. cbv zeta.
  set (a := reg s 8 + sign_extend (Z.land instr 511) 9).
  pose proof (mem_read_mono r1 a s) as Hm.
  pose proof (mem_read_local r1 r2 a s) as Hl.
  destruct (mem_read r1 a s) as [b t]. cbn [snd] in *.
  pose proof (mem_read_mono r1 b t) as Hm2.
  pose proof (mem_read_local r1 r2 b t) as Hl2.
  destruct (mem_read r1 b t) as [v u]. cbn [snd] in *.
  rewrite update_flags_polls. cbn [set_reg polls].
  intros H.
  rewrite <- Hl by (eapply polls_agree_shrink; [exact H | lia | lia]).
  rewrite <- Hl2 by (eapply polls_agree_shrink; [exact H | lia | lia]).
  split; [reflexivity | lia].
Qed.

Lemma pure_op_polls (instr : Z) (s : vm) :
  polls (op_add instr s) = polls s
  /\ polls (op_and instr s) = polls s
  /\ polls (op_not instr s) = polls s
  /\ polls (op_br instr s) = polls s
  /\ polls (op_jmp instr s) = polls s
  /\ polls (op_jsr instr s) = polls s
  /\ polls (op_lea instr s) = polls s
  /\ polls (op_st instr s) = polls s
  /\ polls (op_str instr s) = polls s.
Proof.
  unfold op_add, op_and, op_not, op_br, op_jmp, op_jsr, op_lea, op_st,
    op_str. cbv zeta. rewrite !update_flags_polls.
  repeat split;
    repeat match goal with
           | |- context [if negb ?c then _ else _] => destruct c; cbn [negb]
           end; reflexivity.
Qed.

(** The execute stage consults only the polls it makes. *)
Lemma execute_local (r1 r2 : nat -> bool) (instr : Z) (s : vm) :
  polls_agree r1 r2 (polls s) (polls (execute r1 instr s)) ->
  execute r1 instr s = execute r2 instr s
  /\ (polls s <= polls (execute r1 instr s))%nat.
Proof.
  destruct (pure_op_polls instr s)
    as [P1 [P2 [P3 [P4 [P5 [P6 [P7 [P8 P9]]]]]]]].
  pose proof (op_trap_polls instr s) as P10.
  unfold execute. cbv zeta.
  destruct (Z.shiftr instr 12) as [| p | p];
    [| do 4 (try destruct p as [p | p |]) |];
    cbv iota; intros H;
    first [ now apply op_ld_local
          | now apply op_ldi_local
          | now apply op_ldr_local
          | now apply op_sti_local
          | split; [reflexivity | cbn [set_status polls]; lia] ].
Qed.

Lemma fetch_local (r1 r2 : nat -> bool) (s : vm) :
  polls_agree r1 r2 (polls s) (polls (snd (fetch r1 s))) ->
  fetch r1 s = fetch r2 s
  /\ (polls s <= polls (snd (fetch r1 s)))%nat.
Proof.
  unfold fetch. cbv zeta. intros H.
  split; [now apply mem_read_local |].
  apply (mem_read_mono r1 (reg s 8) (set_reg 8 (reg s 8 + 1) s)).
Qed.

Lemma fetch_mono (ready : nat -> bool) (s : vm) :
  (polls s <= polls (snd (fetch ready s)))%nat.
Proof. apply (fetch_local ready ready). intros i _. reflexivity. Qed.

Lemma execute_mono (ready : nat -> bool) (instr : Z) (s : vm) :
  (polls s <= polls (execute ready instr s))%nat.
Proof. apply (execute_local ready ready). intros i _. reflexivity. Qed.

Lemma step_local (r1 r2 : nat -> bool) (s : vm) :
  polls_agree r1 r2 (polls s) (polls (step r1 s)) ->
  step r1 s = step r2 s /\ (polls s <= polls (step r1 s))%nat.
Proof.
  unfold step. intros H.
  pose proof (fetch_local r1 r2 s) as Hf.
  pose proof (fetch_mono r1 s) as Hs.
  destruct (fetch r1 s) as [instr t]. cbn [snd] in Hf, Hs.
  pose proof (execute_mono r1 instr t) as He.
  destruct Hf as [Hf _];
    [eapply polls_agree_shrink; [exact H | lia | lia] |].
  rewrite <- Hf.
  destruct (execute_local r1 r2 instr t) as [E _];
    [eapply polls_agree_shrink; [exact H | lia | lia] |].
  split; [exact E | lia].
Qed.

Lemma run_mono (ready : nat -> bool) (fuel : nat) (s : vm) :
  (polls s <= polls (run ready fuel s))%nat.
Proof.
  revert s. induction fuel as [| fuel IH]; intros s; cbn [run]; [lia |].
  destruct (status s); try lia.
  specialize (IH (step ready s)).
  assert ((polls s <= polls (step ready s))%nat)
    by (apply (step_local ready ready); intros i _; reflexivity).
  lia.
Qed.

(** The loop consults only the polls it makes. *)
Lemma run_local (r1 r2 : nat -> bool) (fuel : nat) (s : vm) :
  polls_agree r1 r2 (polls s) (polls (run r1 fuel s)) ->
  run r1 fuel s = run r2 fuel s.
Proof.
  revert s. induction fuel as [| fuel IH]; intros s H; cbn [run] in *.
  - reflexivity.
  - destruct (status s); try reflexivity.
    pose proof (run_mono r1 fuel (step r1 s)) as Hm.
    destruct (step_local r1 r2 s) as [E Hs].
    + intros i Hi. apply H.
      assert ((polls s <= polls (step r1 s))%nat)
        by (apply (step_local r1 r1); intros j _; reflexivity).
      lia.
    + rewrite <- E. apply IH.
      eapply polls_agree_shrink; [exact H | lia | lia].
Qed.




(** The same for the whole program. *)
Corollary main_same_polls (r1 r2 : nat -> bool) (fuel : nat)
          (argv : list string) (fs : filesystem) (input : list byte) :
  (forall i, r1 i = r2 i) ->
  main r1 fuel argv fs input = main r2 fuel argv fs input.
Proof.
  intros H. unfold main. destruct (main_startup argv fs input); try reflexivity.
  f_equal. apply run_local. intros i _. apply H.
Qed.

(** ** The string traps *)

Lemma to_char_byte (x : Z) : to_char x mod 256 = x mod 256.
Proof.
  unfold to_char. cbv zeta.
  pose proof (Z.mod_pos_bound x 256 ltac:(lia)) as Hb.
  destruct (x mod 256 <? 128).
  - now apply Z.mod_small.
  - replace (x mod 256 - 256) with (x mod 256 + (-1) * 256) by lia.
    rewrite Z.mod_add by lia. now apply Z.mod_small.
Qed.

Lemma to_char_zero (x : Z) : (to_char x =? 0) = (x mod 256 =? 0).
Proof.
  unfold to_char. cbv zeta.
  pose proof (Z.mod_pos_bound x 256 ltac:(lia)) as Hb.
  destruct (Z.ltb_spec (x mod 256) 128) as [Hlt | Hge]; [reflexivity |].
  transitivity false; [apply Z.eqb_neq; lia |].
  symmetry. apply Z.eqb_neq. lia.
Qed.

Lemma land_255 (x : Z) : Z.land x 0xff mod 256 = x mod 256.
Proof.
  change 255 with (Z.ones 8). rewrite Z.land_ones by lia.
  change (2 ^ 8) with 256. apply Z.mod_mod. lia.
Qed.

(** The first zero cell at or after [c], when there is one within [n]. *)
Lemma first_zero (m : Z -> Z) (c : Z) (n : nat) :
  (exists i, (i < n)%nat /\ m (c + Z.of_nat i) = 0) ->
  exists k, (k < n)%nat /\ m (c + Z.of_nat k) = 0
            /\ forall i, (i < k)%nat -> m (c + Z.of_nat i) <> 0.
Proof.
  revert c. induction n as [| n IH]; intros c [i [Hi Hz]]; [lia |].
  destruct (Z.eq_dec (m c) 0) as [E | N].
  - exists O. split; [lia |]. split; [now rewrite Z.add_0_r | lia].
  - destruct (IH (c + 1)) as [k [Hk [Hkz Hbefore]]].
    + destruct i as [| i]; [rewrite Z.add_0_r in Hz; contradiction |].
      exists i. split; [lia |].
      replace (c + 1 + Z.of_nat i) with (c + Z.of_nat (S i)) by lia.
      exact Hz.
    + exists (S k). split; [lia |].
      split.
      * replace (c + Z.of_nat (S k)) with (c + 1 + Z.of_nat k) by lia.
        exact Hkz.
      * intros j Hj. destruct j as [| j]; [now rewrite Z.add_0_r |].
        replace (c + Z.of_nat (S j)) with (c + 1 + Z.of_nat j) by lia.
        apply Hbefore. lia.
Qed.


Lemma puts_chars_cons (m : Z -> Z) (c : Z) (k : nat) :
  puts_chars m c (S k) = m c mod 256 :: puts_chars m (c + 1) k.
Proof.
  unfold puts_chars. cbn [seq map]. rewrite Z.add_0_r. f_equal.
  rewrite <- seq_shift, map_map. apply map_ext. intros i. f_equal. f_equal.
  lia.
Qed.

Lemma putsp_chars_cons (m : Z -> Z) (c : Z) (k : nat) :
  putsp_chars m c (S k) =
  (m c mod 256 ::
   (if Z.shiftr (m c) 8 mod 256 =? 0 then []
    else [Z.shiftr (m c) 8 mod 256])) ++ putsp_chars m (c + 1) k.
Proof.
  unfold putsp_chars. cbn [seq flat_map]. cbv zeta. rewrite Z.add_0_r.
  f_equal. rewrite <- seq_shift. rewrite !flat_map_concat_map, map_map.
  f_equal. apply map_ext. intros i.
  replace (c + Z.of_nat (S i)) with (c + 1 + Z.of_nat i) by lia.
  reflexivity.
Qed.

(** With a zero cell [k] cells ahead and room for it, the PUTS scan stops
    there, having written the [k] cells before it and touched nothing else. *)
Lemma puts_loop_scan (k room : nat) (c : Z) (s : vm) :
  (k < room)%nat ->
  (forall i, (i < k)%nat -> memory s (c + Z.of_nat i) <> 0) ->
  memory s (c + Z.of_nat k) = 0 ->
  let s' := puts_loop room c s in
  stdout s' = stdout s ++ puts_chars (memory s) c k
  /\ memory s' = memory s /\ reg s' = reg s /\ stdin s' = stdin s
  /\ polls s' = polls s /\ status s' = status s.
Proof.
  revert room c s. induction k as [| k IH]; intros room c s Hroom Hnz Hz;
    (destruct room as [| room]; [lia |]); cbn [puts_loop].
  - rewrite Z.add_0_r in Hz. rewrite Hz. cbn [Z.eqb negb].
    cbn [puts_chars seq map]. rewrite app_nil_r. repeat split.
  - pose proof (Hnz O ltac:(lia)) as H0. rewrite Z.add_0_r in H0.
    apply Z.eqb_neq in H0. rewrite H0. cbn [negb].
    set (t := fputc (to_char (memory s c)) s).
    destruct (IH room (c + 1) t) as [Ho Hrest].
    + lia.
    + intros i Hi. subst t. cbn [fputc memory].
      replace (c + 1 + Z.of_nat i) with (c + Z.of_nat (S i)) by lia.
      apply Hnz. lia.
    + subst t. cbn [fputc memory].
      replace (c + 1 + Z.of_nat k) with (c + Z.of_nat (S k)) by lia.
      exact Hz.
    + split; [| exact Hrest].
      rewrite Ho. subst t. cbn [fputc stdout memory].
      rewrite puts_chars_cons, to_char_byte, <- app_assoc. reflexivity.
Qed.

Lemma putsp_loop_scan (k room : nat) (c : Z) (s : vm) :
  (k < room)%nat ->
  (forall i, (i < k)%nat -> memory s (c + Z.of_nat i) <> 0) ->
  memory s (c + Z.of_nat k) = 0 ->
  let s' := putsp_loop room c s in
  stdout s' = stdout s ++ putsp_chars (memory s) c k
  /\ memory s' = memory s /\ reg s' = reg s /\ stdin s' = stdin s
  /\ polls s' = polls s /\ status s' = status s.
Proof.
  revert room c s. induction k as [| k IH]; intros room c s Hroom Hnz Hz;
    (destruct room as [| room]; [lia |]); cbn [putsp_loop].
  - rewrite Z.add_0_r in Hz. rewrite Hz. cbn [Z.eqb negb].
    cbn [putsp_chars seq flat_map]. rewrite app_nil_r. repeat split.
  - pose proof (Hnz O ltac:(lia)) as H0. rewrite Z.add_0_r in H0.
    apply Z.eqb_neq in H0. rewrite H0. cbn [negb]. cbv zeta.
    rewrite to_char_zero.
    set (t := if negb (Z.shiftr (memory s c) 8 mod 256 =? 0)
              then fputc (to_char (Z.shiftr (memory s c) 8))
                         (fputc (Z.land (memory s c) 255) s)
              else fputc (Z.land (memory s c) 255) s).
    assert (Ht : memory t = memory s /\ reg t = reg s /\ stdin t = stdin s
                 /\ polls t = polls s /\ status t = status s
                 /\ stdout t = stdout s ++
                      (memory s c mod 256 ::
                       (if Z.shiftr (memory s c) 8 mod 256 =? 0 then []
                        else [Z.shiftr (memory s c) 8 mod 256]))).
    { subst t. destruct (Z.shiftr (memory s c) 8 mod 256 =? 0);
        cbn [negb fputc memory reg stdin polls status stdout];
        rewrite ?to_char_byte, land_255, <- ?app_assoc; repeat split. }
    destruct Ht as [Hm [Hr [Hi [Hp [Hs Ho]]]]].
    destruct (IH room (c + 1) t) as [Ho' [Hm' [Hr' [Hi' [Hp' Hs']]]]].
    + lia.
    + intros i Hlt. rewrite Hm.
      replace (c + 1 + Z.of_nat i) with (c + Z.of_nat (S i)) by lia.
      apply Hnz. lia.
    + rewrite Hm.
      replace (c + 1 + Z.of_nat k) with (c + Z.of_nat (S k)) by lia.
      exact Hz.
    + rewrite Ho', Hm', Hr', Hi', Hp', Hs', Ho, Hm, Hr, Hi, Hp, Hs.
      rewrite putsp_chars_cons, <- app_assoc. repeat split.
Qed.

(** Without a zero cell before the end of the array, either scan reads past
    it: the pointer does not wrap to cell 0. *)
Lemma puts_loop_no_zero (room : nat) (c : Z) (s : vm) :
  (forall i, (i < room)%nat -> memory s (c + Z.of_nat i) <> 0) ->
  status (puts_loop room c s) = OutOfBounds
  /\ status (putsp_loop room c s) = OutOfBounds.
Proof.
  revert c s. induction room as [| room IH]; intros c s Hnz;
    cbn [puts_loop putsp_loop]; [split; reflexivity |].
  pose proof (Hnz O ltac:(lia)) as H0. rewrite Z.add_0_r in H0.
  apply Z.eqb_neq in H0. rewrite H0. cbn [negb]. cbv zeta.
  split; apply IH; intros i Hi;
    (replace (c + 1 + Z.of_nat i) with (c + Z.of_nat (S i)) by lia);
    [| destruct (to_char (Z.shiftr (memory s c) 8) =? 0)];
    cbn [negb fputc memory]; apply Hnz; lia.
Qed.

Lemma step_trap (ready : nat -> bool) (s : vm) :
  Z.shiftr (fst (fetch ready s)) 12 = OP_TRAP ->
  fst (fetch ready s) = memory s (u16 (reg s R_PC))
  /\ step ready s =
     op_trap (fst (fetch ready s)) (set_reg R_PC (reg s R_PC + 1) s).
Proof.
  intros Hop.
  assert (Hpc : u16 (reg s R_PC) <> MR_KBSR).
  { intros E. destruct (fetch_at_kbsr ready s E) as [F | F];
      rewrite F in Hop; discriminate Hop. }
  unfold step. rewrite fetch_plain in * by assumption. cbn [fst] in *.
  split; [reflexivity |].
  unfold execute. cbv zeta. rewrite Hop. reflexivity.
Qed.

(** C10: PUTS and PUTSP walk up from the cell R0 names and never wrap.  When
    a zero cell lies between R0 and the end of the memory, the scan stays
    inside the array, stops at the first such cell, and writes exactly the
    characters of the cells before it, in order; with no such cell it reads
    past the array instead of wrapping to cell 0. *)
Theorem string_traps_scan_to_first_zero (ready : nat -> bool) (s : vm) :
  let instr := fst (fetch ready s) in
  let s' := step ready s in
  let r0 := reg s R_R0 in
  status s = Running ->
  Z.shiftr instr 12 = OP_TRAP ->
  Z.land instr 0xff = TRAP_PUTS \/ Z.land instr 0xff = TRAP_PUTSP ->
  0 <= r0 < 65536 ->
  ((exists j, r0 <= j < 65536 /\ memory s j = 0) ->
   exists k : nat,
     r0 + Z.of_nat k < 65536
     /\ memory s (r0 + Z.of_nat k) = 0
     /\ (forall i, (i < k)%nat -> memory s (r0 + Z.of_nat i) <> 0)
     /\ status s' = Running
     /\ memory s' = memory s
     /\ (Z.land instr 0xff = TRAP_PUTS ->
         stdout s' = stdout s ++ puts_chars (memory s) r0 k)
     /\ (Z.land instr 0xff = TRAP_PUTSP ->
         stdout s' = stdout s ++ putsp_chars (memory s) r0 k))
  /\ ((forall j, r0 <= j < 65536 -> memory s j <> 0) ->
      status s' = OutOfBounds).
Proof.
  intros instr s' r0 Hrun Hop Hvec Hr0.
  destruct (step_trap ready s Hop) as [_ Hs]. fold instr s' in Hs.
  set (t := set_reg R_R7 (reg (set_reg R_PC (reg s R_PC + 1) s) R_PC)
                    (set_reg R_PC (reg s R_PC + 1) s)).
  assert (Ht0 : reg t R_R0 = r0).
  { subst t. unfold set_reg. cbn [reg]. now rewrite !upd_other by lia. }
  assert (Hroom : Z.of_nat (Z.to_nat (MEMORY_MAX - r0)) = 65536 - r0).
  { change MEMORY_MAX with 65536. lia. }
  split.
  - intros [j [Hj Hz]].
    destruct (first_zero (memory s) r0 (Z.to_nat (MEMORY_MAX - r0)))
      as [k [Hk [Hkz Hbefore]]].
    { exists (Z.to_nat (j - r0)). split; [change MEMORY_MAX with 65536; lia |].
      replace (r0 + Z.of_nat (Z.to_nat (j - r0))) with j by lia. exact Hz. }
    exists k.
    split; [lia |]. split; [exact Hkz |]. split; [exact Hbefore |].
    destruct (puts_loop_scan k (Z.to_nat (MEMORY_MAX - r0)) r0 t Hk Hbefore
                Hkz) as [Ho [Hm [_ [_ [_ Hst]]]]].
    destruct (putsp_loop_scan k (Z.to_nat (MEMORY_MAX - r0)) r0 t Hk Hbefore
                Hkz) as [Ho' [Hm' [_ [_ [_ Hst']]]]].
    destruct Hvec as [E | E]; rewrite Hs; unfold op_trap; cbv zeta;
      rewrite E; cbv iota; fold t; rewrite Ht0.
    + split; [rewrite Hst; exact Hrun |]. split; [exact Hm |].
      split; [intros _; exact Ho | intros F; discriminate F].
    + split; [rewrite Hst'; exact Hrun |]. split; [exact Hm' |].
      split; [intros F; discriminate F | intros _; exact Ho'].
  - intros Hnz.
    destruct (puts_loop_no_zero (Z.to_nat (MEMORY_MAX - r0)) r0 t)
      as [H1 H2].
    { intros i Hi. apply Hnz. lia. }
    destruct Hvec as [E | E]; rewrite Hs; unfold op_trap; cbv zeta;
      rewrite E; cbv iota; fold t; rewrite Ht0; assumption.
Qed.

Lemma string_traps_scan_to_first_zero_witness :
  stdout (run never_ready 2 (boot (image_memory puts_image) [])) =
  [72; 105].
Proof.
  pose (s := step never_ready (boot (image_memory puts_image) [])).
  destruct (string_traps_scan_to_first_zero never_ready s) as [H _].
  - reflexivity.
  - vm_compute. reflexivity.
  - left. vm_compute. reflexivity.
  - vm_compute. split; [discriminate | reflexivity].
  - destruct H as [k [Hlt [Hz [Hnz [_ [_ [Hp _]]]]]]].
    + exists 0x3005. vm_compute. repeat split; discriminate.
    + assert (Hk : k = 2%nat).
      { destruct k as [| [| [| k]]].
        - vm_compute in Hz. discriminate Hz.
        - vm_compute in Hz. discriminate Hz.
        - reflexivity.
        - exfalso. apply (Hnz 2%nat); [lia |]. vm_compute. reflexivity. }
      subst k. specialize (Hp ltac:(vm_compute; reflexivity)).
      change (run never_ready 2 (boot (image_memory puts_image) []))
        with (step never_ready s).
      rewrite Hp. vm_compute. reflexivity.
Defined.

(** ** The image loader *)

(** With origin 0, [max_read = MEMORY_MAX - origin] is 65,536 cut to
    [uint16_t], that is 0: nothing of the image is read. *)
Lemma read_image_file_origin_zero (payload : list byte) (mem : Z -> Z) :
  read_image_file (x00 :: x00 :: payload) mem = Some mem.
Proof. reflexivity. Qed.

(** [swap16] exchanges the two bytes of a 16-bit value. *)
Lemma swap16_spec (h : Z) :
  0 <= h < 65536 -> swap16 h = 256 * (h mod 256) + h / 256.
Proof.
  intros Hh. unfold swap16, u16.
  assert (Hhi : 0 <= h / 256 < 256).
  { split; [apply Z.div_pos; lia | apply Z.div_lt_upper_bound; lia]. }
  assert (Hland : Z.land (Z.shiftl h 8) (Z.shiftr h 8) = 0).
  { apply Z.bits_inj'. intros n Hn. rewrite Z.land_spec, Z.bits_0.
    destruct (Z.lt_ge_cases n 8) as [Hlt | Hge].
    - now rewrite Z.shiftl_spec_low.
    - rewrite (Z.shiftr_div_pow2 h 8) by lia.
      replace (h / 2 ^ 8) with ((h / 2 ^ 8) mod 2 ^ 8)
        by (apply Z.mod_small; exact Hhi).
      rewrite Z.mod_pow2_bits_high by lia. apply andb_false_r. }
  rewrite <- Z.lxor_lor, <- Z.add_nocarry_lxor by assumption.
  rewrite Z.shiftl_mul_pow2, Z.shiftr_div_pow2 by lia.
  change (2 ^ 8) with 256.
  pose proof (Z.div_mod h 256 ltac:(lia)) as Hdm.
  pose proof (Z.mod_pos_bound h 256 ltac:(lia)) as Hlo.
  replace (h * 256 + h / 256)
    with (256 * (h mod 256) + h / 256 + (h / 256) * 65536) by lia.
  rewrite Z.mod_add by lia. apply Z.mod_small. lia.
Qed.

Lemma swap16_le_word (fp : list byte) (j : nat) :
  swap16 (le_word fp j) = be_word fp j.
Proof.
  unfold le_word, be_word.
  pose proof (byte_val_range (nth (2 * j) fp x00)) as H0.
  pose proof (byte_val_range (nth (2 * j + 1) fp x00)) as H1.
  set (lo := byte_val (nth (2 * j) fp x00)) in *.
  set (hi := byte_val (nth (2 * j + 1) fp x00)) in *.
  rewrite swap16_spec by lia.
  replace (lo + 256 * hi) with (lo + hi * 256) by lia.
  rewrite Z.mod_add, Z.div_add by lia.
  rewrite Z.mod_small, Z.div_small by lia. lia.
Qed.

Lemma word_shift (b0 b1 : byte) (rest : list byte) (j : nat) :
  le_word (b0 :: b1 :: rest) (S j) = le_word rest j.
Proof.
  unfold le_word.
  replace (2 * S j)%nat with (S (S (2 * j))) by lia.
  replace (S (S (2 * j)) + 1)%nat with (S (S (2 * j + 1))) by lia.
  reflexivity.
Qed.

(** [fread] of whole items: how many, and where they go. *)
Lemma fread_words_spec (n : nat) (fp : list byte) (i : Z) (mem : Z -> Z) :
  Nat.even (List.length fp) = true ->
  let k := Nat.min n (Nat.div2 (List.length fp)) in
  snd (fread_words n fp i mem) = k
  /\ (forall j, (j < k)%nat ->
                fst (fread_words n fp i mem) (i + Z.of_nat j) = le_word fp j)
  /\ (forall a, a < i \/ i + Z.of_nat k <= a ->
                fst (fread_words n fp i mem) a = mem a).
Proof.
  revert fp i mem. induction n as [| n IH]; intros fp i mem Heven.
  - cbn. split; [reflexivity |]. split; [intros j Hj; lia | reflexivity].
  - destruct fp as [| b0 [| b1 rest]].
    + cbn. split; [reflexivity |]. split; [intros j Hj; lia | reflexivity].
    + discriminate Heven.
    + cbn [fread_words List.length Nat.div2 Nat.min].
      change (Nat.even (List.length (b0 :: b1 :: rest)))
        with (Nat.even (List.length rest)) in Heven.
      specialize (IH rest (i + 1)
                     (upd mem i (byte_val b0 + 256 * byte_val b1)) Heven).
      destruct (fread_words n rest (i + 1)
                  (upd mem i (byte_val b0 + 256 * byte_val b1)))
        as [m' k']. cbn [fst snd] in *.
      destruct IH as [Hk [Hin Hout]].
      split; [now rewrite Hk |].
      split.
      * intros j Hj. destruct j as [| j].
        -- rewrite Z.add_0_r, Hout by lia. now rewrite upd_same.
        -- rewrite word_shift, <- Hin by lia. f_equal. lia.
      * intros a Ha. rewrite Hout by lia. apply upd_other. lia.
Qed.

Lemma swap_loop_spec (k : nat) (p : Z) (mem : Z -> Z) :
  (forall j, (j < k)%nat ->
             swap_loop k p mem (p + Z.of_nat j) = swap16 (mem (p + Z.of_nat j)))
  /\ (forall a, a < p \/ p + Z.of_nat k <= a -> swap_loop k p mem a = mem a).
Proof.
  revert p mem. induction k as [| k IH]; intros p mem.
  - split; [intros j Hj; lia | reflexivity].
  - cbn [swap_loop].
    destruct (IH (p + 1) (upd mem p (swap16 (mem p)))) as [Hin Hout].
    split.
    + intros j Hj. destruct j as [| j].
      * rewrite Z.add_0_r, Hout by lia. apply upd_same.
      * replace (p + Z.of_nat (S j)) with (p + 1 + Z.of_nat j) by lia.
        rewrite Hin by lia. f_equal. apply upd_other. lia.
    + intros a Ha. rewrite Hout by lia. apply upd_other. lia.
Qed.

(** X3: for every origin but 0, on a stream of whole words, the words are
    stored big-endian from the origin on, as many as the stream has and the
    memory has room for, and no other cell changes.  The memory before the
    load is any memory, so a later image overwrites the cells of an earlier
    one and keeps the rest. *)
Lemma read_image_file_nonzero_origin (b0 b1 : byte) (rest : list byte)
      (mem : Z -> Z) :
  let origin := 256 * byte_val b0 + byte_val b1 in
  let stored :=
    Nat.min (Z.to_nat (65536 - origin)) (Nat.div2 (List.length rest)) in
  origin <> 0 ->
  Nat.even (List.length rest) = true ->
  exists mem',
    read_image_file (b0 :: b1 :: rest) mem = Some mem'
    /\ (forall j, (j < stored)%nat ->
                  mem' (origin + Z.of_nat j) = be_word rest j)
    /\ (forall a, a < origin \/ origin + Z.of_nat stored <= a ->
                  mem' a = mem a).
Proof.
  intros origin stored Hnz Heven.
  pose proof (byte_val_range b0) as H0.
  pose proof (byte_val_range b1) as H1.
  assert (Ho : swap16 (byte_val b0 + 256 * byte_val b1) = origin).
  { change (byte_val b0 + 256 * byte_val b1) with (le_word [b0; b1] 0).
    now rewrite swap16_le_word. }
  assert (Hmax : u16 (MEMORY_MAX - origin) = 65536 - origin).
  { change MEMORY_MAX with 65536. apply u16_small. subst origin. lia. }
  unfold read_image_file. cbv zeta. rewrite Ho, Hmax.
  destruct (fread_words_spec (Z.to_nat (65536 - origin)) rest origin mem
              Heven) as [Hk [Hin Hout]].
  fold stored in Hk, Hin, Hout.
  destruct (fread_words (Z.to_nat (65536 - origin)) rest origin mem)
    as [m1 read]. cbn [fst snd] in *. subst read.
  destruct (swap_loop_spec stored origin m1) as [Sin Sout].
  eexists. split; [reflexivity |]. split.
  - intros j Hj. rewrite Sin, Hin by assumption. apply swap16_le_word.
  - intros a Ha. rewrite Sout, Hout by assumption. reflexivity.
Qed.

(** C2 fails on the code at origin 0: the image of origin 0 and one word
    x1234 leaves cell 0 as it was, where the claim has
    min(1, 65536 - 0) = 1 word stored. *)
Theorem origin_zero_image_stores_nothing :
  read_image_file origin_zero_image (fun _ => 0x5555) <> None
  /\ (forall mem, read_image_file origin_zero_image (fun _ => 0x5555)
                  = Some mem -> mem 0 = 0x5555)
  /\ image_memory origin_zero_image 0 = 0
  /\ be_word (skipn 2 origin_zero_image) 0 = 0x1234
  /\ Z.min 1 (65536 - 0) = 1.
Proof.
  unfold origin_zero_image. rewrite read_image_file_origin_zero.
  split; [discriminate |].
  split; [intros mem E; injection E as <-; reflexivity |].
  repeat split.
Qed.

(** ** Start of [main] *)

Lemma main_usage (prog : string) (fs : filesystem) (input : list byte) :
  main_startup [prog] fs input =
  Exit 2 (bytes_of_string (prog ++ " [image-file1] ..." ++ newline)%string).
Proof. reflexivity. Qed.

(** The load loop starts at [argv[0]]: a program name that does not open as
    a file ends the run, whatever the image arguments are. *)
Lemma main_program_name_not_opened (prog : string) (args : list string)
      (fs : filesystem) (input : list byte) :
  args <> [] -> fs prog = None ->
  main_startup (prog :: args) fs input =
  Exit 1 (bytes_of_string ("failed to load image: " ++ prog ++ newline)%string).
Proof.
  intros Hargs Hfs. destruct args as [| a args]; [contradiction |].
  unfold main_startup. cbn [List.length Nat.ltb Nat.leb Nat.sub load_loop nth].
  unfold read_image. now rewrite Hfs.
Qed.

(** C1 fails on the code: with one image argument that loads, the run ends
    with status 1 naming the program itself when the program name does not
    open as a file; and when it opens, the executable is loaded as the first
    image (here its first word lands in cell x7F45). *)
Theorem main_loads_program_name_as_image :
  main_startup ["lc3"; "prog.obj"]%string fs_image_only [] =
  Exit 1 (bytes_of_string ("failed to load image: lc3" ++ newline)%string)
  /\ fs_image_only "prog.obj"%string = Some halt_image
  /\ match main_startup ["./lc3"; "prog.obj"]%string fs_with_program [] with
     | Boot s => memory s 0x7F45 = 0x4C46 /\ memory s 0x3000 = 0xF025
     | _ => False
     end.
Proof.
  split; [reflexivity |]. split; [reflexivity |].
  vm_compute. split; reflexivity.
Qed.

(** * Further properties of the code *)

(** ** Sign extension and byte swap *)

Lemma lor_disjoint_add (x y n : Z) :
  0 <= n -> 0 <= x < 2 ^ n -> Z.lor x (Z.shiftl y n) = x + y * 2 ^ n.
Proof.
  intros Hn Hx.
  assert (Hland : Z.land x (Z.shiftl y n) = 0).
  { apply Z.bits_inj'. intros m Hm. rewrite Z.land_spec, Z.bits_0.
    destruct (Z.lt_ge_cases m n) as [Hlt | Hge].
    - rewrite Z.shiftl_spec_low by assumption. apply andb_false_r.
    - replace x with (x mod 2 ^ n) by (now apply Z.mod_small).
      now rewrite Z.mod_pow2_bits_high by lia. }
  rewrite <- Z.lxor_lor, <- Z.add_nocarry_lxor by assumption.
  now rewrite Z.shiftl_mul_pow2.
Qed.

(** X1: [sign_extend] of an [n]-bit field (n from 1 to 15, the widths for
    which the shift of the source stays within [int]) leaves a field with a
    clear top bit as it is, and turns a field with the top bit set into the
    16-bit two's complement of (field - 2^n). *)
Theorem sign_extend_twos_complement (x n : Z) :
  1 <= n <= 15 -> 0 <= x < 2 ^ n ->
  sign_extend x n = (if x <? 2 ^ (n - 1) then x else x - 2 ^ n + 65536)
  /\ sign_extend x n = (if x <? 2 ^ (n - 1) then x else x - 2 ^ n) mod 65536
  /\ 0 <= sign_extend x n < 65536.
Proof.
  intros Hn Hx.
  assert (Hp : 2 ^ n = 2 * 2 ^ (n - 1)).
  { rewrite <- Z.pow_succ_r by lia. f_equal. lia. }
  assert (Hq : 0 < 2 ^ (n - 1)) by (apply Z.pow_pos_nonneg; lia).
  assert (Hmax : 2 ^ n <= 65536).
  { change 65536 with (2 ^ 16). apply Z.pow_le_mono_r; lia. }
  assert (Hval : sign_extend x n =
                 if x <? 2 ^ (n - 1) then x else x - 2 ^ n + 65536).
  { unfold sign_extend.
    rewrite Z.shiftr_div_pow2 by lia.
    change 1 with (Z.ones 1) at 2. rewrite Z.land_ones by lia.
    change (2 ^ 1) with 2.
    destruct (Z.ltb_spec x (2 ^ (n - 1))) as [Hlt | Hge].
    - rewrite Z.div_small by lia. reflexivity.
    - assert (Hd : x / 2 ^ (n - 1) = 1).
      { symmetry. apply (Z.div_unique x (2 ^ (n - 1)) 1 (x - 2 ^ (n - 1)));
          lia. }
      rewrite Hd. cbn [Z.modulo Z.eqb negb]. change (1 mod 2 =? 0) with false.
      cbn [negb]. rewrite lor_disjoint_add by lia. unfold u16.
      replace (x + 65535 * 2 ^ n)
        with (x - 2 ^ n + 65536 + (2 ^ n - 1) * 65536) by lia.
      rewrite Z.mod_add by lia. apply Z.mod_small. lia. }
  split; [exact Hval |].
  split.
  - rewrite Hval. destruct (Z.ltb_spec x (2 ^ (n - 1))) as [Hlt | Hge].
    + symmetry. apply Z.mod_small. lia.
    + rewrite <- (Z.mod_add (x - 2 ^ n) 1 65536) by lia.
      rewrite Z.mul_1_l. symmetry. apply Z.mod_small. lia.
  - rewrite Hval. destruct (x <? 2 ^ (n - 1)); lia.
Qed.

Lemma sign_extend_twos_complement_witness :
  sign_extend 0x1ff 9 = 0xffff /\ sign_extend 0x0ff 9 = 0x0ff.
Proof.
  split.
  - apply (sign_extend_twos_complement 0x1ff 9); [lia | cbn; lia].
  - apply (sign_extend_twos_complement 0x0ff 9); [lia | cbn; lia].
Defined.

(** X2: on a 16-bit value [swap16] exchanges the two bytes, so that
    swapping twice gives the value back. *)
Theorem swap16_involutive (h : Z) :
  0 <= h < 65536 ->
  swap16 h mod 256 = h / 256
  /\ swap16 h / 256 = h mod 256
  /\ swap16 (swap16 h) = h.
Proof.
  intros Hh.
  pose proof (Z.div_mod h 256 ltac:(lia)) as Hdm.
  pose proof (Z.mod_pos_bound h 256 ltac:(lia)) as Hlo.
  assert (Hhi : 0 <= h / 256 < 256).
  { split; [apply Z.div_pos; lia | apply Z.div_lt_upper_bound; lia]. }
  assert (Hm : swap16 h mod 256 = h / 256).
  { rewrite swap16_spec by assumption.
    replace (256 * (h mod 256) + h / 256)
      with (h / 256 + (h mod 256) * 256) by lia.
    rewrite Z.mod_add by lia. now apply Z.mod_small. }
  assert (Hd : swap16 h / 256 = h mod 256).
  { rewrite swap16_spec by assumption.
    replace (256 * (h mod 256) + h / 256)
      with (h / 256 + (h mod 256) * 256) by lia.
    rewrite Z.div_add by lia. rewrite Z.div_small by lia. lia. }
  split; [exact Hm |]. split; [exact Hd |].
  rewrite (swap16_spec (swap16 h)).
  - rewrite Hm, Hd. lia.
  - rewrite swap16_spec by assumption. lia.
Qed.

Lemma swap16_involutive_witness :
  swap16 (swap16 0x1234) = 0x1234.
Proof.
  apply (swap16_involutive 0x1234). lia.
Defined.

(** ** The image loader *)

Lemma read_image_file_nonzero_origin_witness :
  image_memory halt_image 0x3000 = 0xF025
  /\ image_memory halt_image 0x3001 = 0.
Proof.
  destruct (read_image_file_nonzero_origin x30 x00 [xf0; x25] (fun _ => 0))
    as [mem' [E [Hin Hout]]].
  - vm_compute. discriminate.
  - reflexivity.
  - unfold image_memory, halt_image. rewrite E. split.
    + apply (Hin O). vm_compute. lia.
    + apply Hout. right. vm_compute. discriminate.
Defined.

Lemma fread_words_frame (n : nat) (fp : list byte) (i : Z) (mem : Z -> Z)
      (a : Z) :
  a < i \/ i + Z.of_nat n <= a -> fst (fread_words n fp i mem) a = mem a.
Proof.
  revert fp i mem. induction n as [| n IH]; intros fp i mem Ha;
    [reflexivity |].
  destruct fp as [| b0 [| b1 rest]]; cbn [fread_words fst].
  - reflexivity.
  - apply upd_other. lia.
  - specialize (IH rest (i + 1)
                   (upd mem i (byte_val b0 + 256 * byte_val b1))).
    destruct (fread_words n rest (i + 1) _) as [m' k]. cbn [fst] in *.
    rewrite IH by lia. apply upd_other. lia.
Qed.

Lemma fread_words_count (n : nat) (fp : list byte) (i : Z) (mem : Z -> Z) :
  (snd (fread_words n fp i mem) <= n)%nat.
Proof.
  revert fp i mem. induction n as [| n IH]; intros fp i mem; [cbn; lia |].
  destruct fp as [| b0 [| b1 rest]]; cbn [fread_words snd]; try lia.
  specialize (IH rest (i + 1)
                 (upd mem i (byte_val b0 + 256 * byte_val b1))).
  destruct (fread_words n rest (i + 1) _) as [m' k]. cbn [snd] in *. lia.
Qed.

Lemma origin_range (b0 b1 : byte) :
  swap16 (byte_val b0 + 256 * byte_val b1) = 256 * byte_val b0 + byte_val b1
  /\ 0 <= 256 * byte_val b0 + byte_val b1 < 65536.
Proof.
  pose proof (byte_val_range b0). pose proof (byte_val_range b1).
  split; [| lia].
  change (byte_val b0 + 256 * byte_val b1) with (le_word [b0; b1] 0).
  now rewrite swap16_le_word.
Qed.

(** X4: whatever the stream, the loader returns and writes only cells from
    the origin up to the last cell of the memory: cells below the origin are
    kept, no cell outside the array is touched, and nothing wraps to cell 0.
    A stream of fewer than two bytes, which holds no origin, changes no cell
    at all. *)
Theorem loader_writes_from_origin_up (b0 b1 : byte) (rest : list byte)
        (mem : Z -> Z) :
  let origin := 256 * byte_val b0 + byte_val b1 in
  read_image_file [] mem = Some mem
  /\ read_image_file [b0] mem = Some mem
  /\ exists mem',
      read_image_file (b0 :: b1 :: rest) mem = Some mem'
      /\ forall a, a < origin \/ 65536 <= a -> mem' a = mem a.
Proof.
  intros origin. split; [reflexivity |]. split; [reflexivity |].
  destruct (origin_range b0 b1) as [Ho Hr]. fold origin in Ho, Hr.
  unfold read_image_file. cbv zeta. rewrite Ho.
  set (n := Z.to_nat (u16 (MEMORY_MAX - origin))).
  assert (Hn : origin + Z.of_nat n <= 65536).
  { subst n. unfold u16. change MEMORY_MAX with 65536.
    destruct (Z.eq_dec origin 0) as [E | N].
    - rewrite E. cbn. lia.
    - rewrite Z.mod_small by lia. lia. }
  pose proof (fread_words_count n rest origin mem) as Hc.
  pose proof (fread_words_frame n rest origin mem) as Hf.
  destruct (fread_words n rest origin mem) as [m1 read]. cbn [fst snd] in *.
  destruct (swap_loop_spec read origin m1) as [_ Hs].
  eexists. split; [reflexivity |].
  intros a Ha. rewrite Hs, Hf by lia. reflexivity.
Qed.

(** ** The load loop of [main] *)

Lemma load_loop_unopened (fs : filesystem) (argv : list string) (k : nat) :
  forall (todo j : nat) (mem : Z -> Z),
    (k < todo)%nat ->
    fs (nth (j + k) argv EmptyString) = None ->
    (forall i, (i < k)%nat ->
               exists b0 b1 rest,
                 fs (nth (j + i) argv EmptyString) = Some (b0 :: b1 :: rest)) ->
    load_loop todo j argv fs mem = inl (nth (j + k) argv EmptyString).
Proof.
  induction k as [| k IH]; intros todo j mem Hk Hnone Hsome;
    (destruct todo as [| todo]; [lia |]); cbn [load_loop]; unfold read_image.
  - rewrite Nat.add_0_r in Hnone. rewrite Hnone.
    now rewrite Nat.add_0_r.
  - destruct (Hsome O ltac:(lia)) as [b0 [b1 [rest E]]].
    rewrite Nat.add_0_r in E. rewrite E.
    replace (j + S k)%nat with (S j + k)%nat by lia.
    apply IH; [lia | now replace (S j + k)%nat with (j + S k)%nat by lia |].
    intros i Hi. replace (S j + i)%nat with (j + S i)%nat by lia.
    apply Hsome. lia.
Qed.

(** X5: when some entry of [argv] (the program name counts) does not open,
    and every entry before it opens on a stream with an origin, [main] prints
    "failed to load image: " with that entry and exits with status 1; the
    machine does not start. *)
Theorem main_names_first_unopened (argv : list string) (fs : filesystem)
        (input : list byte) (k : nat) :
  (2 <= List.length argv)%nat ->
  (k < List.length argv)%nat ->
  fs (nth k argv EmptyString) = None ->
  (forall i, (i < k)%nat ->
             exists b0 b1 rest,
               fs (nth i argv EmptyString) = Some (b0 :: b1 :: rest)) ->
  main_startup argv fs input =
  Exit 1 (bytes_of_string
            ("failed to load image: " ++ nth k argv EmptyString ++ newline)%string)
  /\ forall ready fuel,
       main ready fuel argv fs input = main_startup argv fs input.
Proof.
  intros Hlen Hk Hnone Hsome.
  assert (E : main_startup argv fs input =
              Exit 1 (bytes_of_string
                        ("failed to load image: " ++ nth k argv EmptyString
                         ++ newline)%string)).
  { unfold main_startup. cbv zeta.
    destruct (Nat.ltb_spec (List.length argv) 2) as [Hlt | _]; [lia |].
    rewrite (load_loop_unopened fs argv k (List.length argv - 0) 0
               (fun _ => 0)); [reflexivity | lia | exact Hnone | exact Hsome]. }
  split; [exact E |].
  intros ready fuel. unfold main. now rewrite E.
Qed.

Lemma main_names_first_unopened_witness :
  main_startup argv_missing_second fs_with_program [] =
  Exit 1 (bytes_of_string
            ("failed to load image: missing.obj" ++ newline)%string).
Proof.
  apply (main_names_first_unopened argv_missing_second fs_with_program [] 2).
  - cbn. lia.
  - cbn. lia.
  - reflexivity.
  - intros i Hi. destruct i as [| [| i]]; [| | lia].
    + exists x7f, x45, [x4c; x46]. reflexivity.
    + exists x30, x00, [xf0; x25]. reflexivity.
Defined.

Lemma load_loop_all (fs : filesystem) (l : list string) :
  forall (pre : list string) (mem : Z -> Z),
    Forall (fun p => exists b0 b1 rest, fs p = Some (b0 :: b1 :: rest)) l ->
    load_loop (List.length l) (List.length pre) (pre ++ l) fs mem =
    inr (fold_left (load_path fs) l mem).
Proof.
  induction l as [| p l IH]; intros pre mem Hall; [reflexivity |].
  inversion Hall as [| p' l' [b0 [b1 [rest E]]] Hrest]; subst.
  cbn [List.length load_loop fold_left]. rewrite nth_middle.
  unfold read_image, load_path at 2. rewrite E.
  replace (S (List.length pre)) with (List.length (pre ++ [p]))
    by (rewrite length_app; cbn; lia).
  replace (pre ++ p :: l) with ((pre ++ [p]) ++ l)
    by (now rewrite <- app_assoc).
  now apply IH.
Qed.

(** X6: when every entry of [argv] opens on a stream with an origin, the
    machine starts with the memory got by loading all the entries, program
    name first, in the order given, each on top of the ones before, from a
    zeroed array; R0 to R7 are 0, PC is 0x3000, the flag is Zero, and
    nothing has been printed. *)
Theorem main_boots_on_all_images (argv : list string) (fs : filesystem)
        (input : list byte) :
  (2 <= List.length argv)%nat ->
  Forall (fun p => exists b0 b1 rest, fs p = Some (b0 :: b1 :: rest)) argv ->
  exists s,
    main_startup argv fs input = Boot s
    /\ memory s = fold_left (load_path fs) argv (fun _ => 0)
    /\ reg s R_PC = PC_START
    /\ reg s R_COND = FL_ZRO
    /\ (forall r, 0 <= r < 8 -> reg s r = 0)
    /\ stdin s = input /\ stdout s = [] /\ status s = Running.
Proof.
  intros Hlen Hall.
  exists (boot (fold_left (load_path fs) argv (fun _ => 0)) input).
  split.
  - unfold main_startup. cbv zeta.
    destruct (Nat.ltb_spec (List.length argv) 2) as [Hlt | _]; [lia |].
    rewrite Nat.sub_0_r.
    pose proof (load_loop_all fs argv [] (fun _ => 0) Hall) as E.
    cbn [List.length app] in E. now rewrite E.
  - split; [reflexivity |]. split; [reflexivity |]. split; [reflexivity |].
    split; [| repeat split].
    intros r Hr. unfold boot, set_reg. cbn [reg].
    now rewrite !upd_other by lia.
Qed.

Lemma main_boots_on_all_images_witness :
  exists s,
    main_startup ["./lc3"; "prog.obj"]%string fs_with_program [] = Boot s
    /\ reg s R_PC = PC_START.
Proof.
  destruct (main_boots_on_all_images ["./lc3"; "prog.obj"]%string
              fs_with_program []) as [s [E [_ [Hpc _]]]].
  - cbn. lia.
  - repeat constructor.
    + exists x7f, x45, [x4c; x46]. reflexivity.
    + exists x30, x00, [xf0; x25]. reflexivity.
  - exists s. split; [exact E | exact Hpc].
Defined.

(** ** Invariants of the loop *)

Create HintDb words.
Create HintDb flags.

Lemma ws_set_reg (r v : Z) (s : vm) :
  word_state s -> word_state (set_reg r v s).
Proof.
  intros [Hr Hm]. split; [| exact Hm].
  intros q. unfold set_reg, upd. cbn [reg].
  destruct (q =? r); [apply u16_range | apply Hr].
Qed.

Lemma ws_set_memory (a v : Z) (s : vm) :
  word_state s -> word_state (set_memory (upd (memory s) a (u16 v)) s).
Proof.
  intros [Hr Hm]. split; [exact Hr |].
  intros q. unfold set_memory, upd. cbn [memory].
  destruct (q =? a); [apply u16_range | apply Hm].
Qed.

Lemma ws_mem_write (a v : Z) (s : vm) :
  word_state s -> word_state (mem_write a v s).
Proof. apply ws_set_memory. Qed.

Lemma ws_update_flags (r : Z) (s : vm) :
  word_state s -> word_state (update_flags r s).
Proof.
  intros H. unfold update_flags.
  destruct (reg s r =? 0); [now apply ws_set_reg |].
  destruct (Z.shiftr (reg s r) 15 =? 0); now apply ws_set_reg.
Qed.

Lemma ws_same_store (s t : vm) :
  reg t = reg s -> memory t = memory s -> word_state s -> word_state t.
Proof. intros Hr Hm [H1 H2]. split; [rewrite Hr | rewrite Hm]; assumption. Qed.

Lemma ws_fputc (c : Z) (s : vm) : word_state s -> word_state (fputc c s).
Proof. now apply ws_same_store. Qed.

Lemma ws_fputs (str : string) (s : vm) :
  word_state s -> word_state (fputs str s).
Proof. now apply ws_same_store. Qed.

Lemma ws_set_status (st : run_status) (s : vm) :
  word_state s -> word_state (set_status st s).
Proof. now apply ws_same_store. Qed.

Lemma ws_getchar (s : vm) : word_state s -> word_state (snd (getchar s)).
Proof.
  unfold getchar. destruct (stdin s); [trivial | now apply ws_same_store].
Qed.

Lemma ws_mem_read (ready : nat -> bool) (a : Z) (s : vm) :
  word_state s -> word_state (snd (mem_read ready a s)).
Proof.
  intros H. destruct (Z.eq_dec (u16 a) MR_KBSR) as [E | N].
  - rewrite <- mem_read_u16, E, mem_read_kbsr.
    destruct H as [Hr Hm].
    destruct (ready (polls s)); cbn [snd]; (split; [exact Hr |]);
      intros q; cbn [memory]; unfold upd;
      repeat match goal with
             | |- context [if ?c then _ else _] => destruct c
             end;
      try apply u16_range; try apply Hm; cbv; split; congruence.
  - now rewrite mem_read_plain.
Qed.

Lemma puts_loop_store (room : nat) (c : Z) (s : vm) :
  reg (puts_loop room c s) = reg s
  /\ memory (puts_loop room c s) = memory s
  /\ stdin (puts_loop room c s) = stdin s.
Proof.
  revert c s. induction room as [| room IH]; intros c s; cbn [puts_loop].
  - repeat split.
  - destruct (memory s c =? 0); cbn [negb]; [repeat split |].
    destruct (IH (c + 1) (fputc (to_char (memory s c)) s)) as [H1 [H2 H3]].
    rewrite H1, H2, H3. repeat split.
Qed.

Lemma putsp_loop_store (room : nat) (c : Z) (s : vm) :
  reg (putsp_loop room c s) = reg s
  /\ memory (putsp_loop room c s) = memory s
  /\ stdin (putsp_loop room c s) = stdin s.
Proof.
  revert c s. induction room as [| room IH]; intros c s; cbn [putsp_loop].
  - repeat split.
  - destruct (memory s c =? 0); cbn [negb]; [repeat split |]. cbv zeta.
    match goal with
    | |- context [putsp_loop room (c + 1) ?t] =>
        destruct (IH (c + 1) t) as [H1 [H2 H3]]; rewrite H1, H2, H3
    end.
    destruct (to_char (Z.shiftr (memory s c) 8) =? 0); repeat split.
Qed.

Lemma ws_puts_loop (room : nat) (c : Z) (s : vm) :
  word_state s -> word_state (puts_loop room c s).
Proof. apply ws_same_store; apply puts_loop_store. Qed.

Lemma ws_putsp_loop (room : nat) (c : Z) (s : vm) :
  word_state s -> word_state (putsp_loop room c s).
Proof. apply ws_same_store; apply putsp_loop_store. Qed.

#[local] Hint Resolve ws_set_reg ws_mem_write ws_update_flags ws_fputc
  ws_fputs ws_set_status ws_puts_loop ws_putsp_loop : words.

(** Name the state after each [mem_read] and [getchar] of the goal, with
    the fact [lem] gives about it, and split the conditionals. *)
Ltac open_reads read_lem getchar_lem :=
  cbv zeta;
  repeat match goal with
         | |- context [mem_read ?r ?a ?s] =>
             let H := fresh "Hread" in
             pose proof (read_lem r a s) as H;
             destruct (mem_read r a s); cbn [snd] in H
         | |- context [getchar ?s] =>
             let H := fresh "Hget" in
             pose proof (getchar_lem s) as H;
             destruct (getchar s); cbn [snd] in H
         | |- context [if negb ?c then _ else _] => destruct c; cbn [negb]
         end.

Lemma ws_op_trap (instr : Z) (s : vm) :
  word_state s -> word_state (op_trap instr s).
Proof.
  intros H. unfold op_trap.
  destruct (Z.land instr 255) as [| p | p];
    [| do 6 (try destruct p as [p | p |]) |];
    open_reads ws_mem_read ws_getchar; auto 10 with words.
Qed.

Lemma ws_execute (ready : nat -> bool) (instr : Z) (s : vm) :
  word_state s -> word_state (execute ready instr s).
Proof.
  intros H. unfold execute. cbv zeta.
  destruct (Z.shiftr instr 12) as [| p | p];
    [| do 4 (try destruct p as [p | p |]) |];
    cbv iota; try (now apply ws_op_trap);
    unfold op_add, op_and, op_not, op_br, op_jmp, op_jsr, op_ld, op_ldi,
      op_ldr, op_lea, op_st, op_sti, op_str;
    open_reads ws_mem_read ws_getchar; auto 10 with words.
Qed.

Lemma ws_step (ready : nat -> bool) (s : vm) :
  word_state s -> word_state (step ready s).
Proof.
  intros H. unfold step, fetch. cbv zeta.
  pose proof (ws_mem_read ready (reg s 8) (set_reg 8 (reg s 8 + 1) s)
                (ws_set_reg 8 _ s H)) as Hf.
  destruct (mem_read ready (reg s 8) _) as [instr t]. cbn [snd] in Hf.
  now apply ws_execute.
Qed.

Lemma ws_boot (mem : Z -> Z) (input : list byte) :
  (forall a, 0 <= mem a < 65536) -> word_state (boot mem input).
Proof.
  intros Hm. unfold boot. cbv zeta. apply ws_set_reg, ws_set_reg.
  split; [intros r; cbn; lia | exact Hm].
Qed.

Lemma run_words (ready : nat -> bool) (fuel : nat) (s : vm) :
  word_state s -> word_state (run ready fuel s).
Proof.
  revert s. induction fuel as [| fuel IH]; intros s H; cbn [run];
    [exact H |].
  destruct (status s); try exact H. now apply IH, ws_step.
Qed.

Lemma fread_words_words (n : nat) (fp : list byte) (i : Z) (mem : Z -> Z) :
  (forall a, 0 <= mem a < 65536) ->
  forall a, 0 <= fst (fread_words n fp i mem) a < 65536.
Proof.
  revert fp i mem. induction n as [| n IH]; intros fp i mem Hm;
    [exact Hm |].
  destruct fp as [| b0 [| b1 rest]]; cbn [fread_words fst].
  - exact Hm.
  - intros a. unfold upd. destruct (a =? i); [| apply Hm].
    pose proof (byte_val_range b0). pose proof (Hm i).
    assert (0 <= mem i / 256 < 256)
      by (split; [apply Z.div_pos; lia | apply Z.div_lt_upper_bound; lia]).
    lia.
  - specialize (IH rest (i + 1)
                   (upd mem i (byte_val b0 + 256 * byte_val b1))).
    destruct (fread_words n rest (i + 1) _) as [m' k]. cbn [fst] in *.
    apply IH. intros a. unfold upd. destruct (a =? i); [| apply Hm].
    pose proof (byte_val_range b0). pose proof (byte_val_range b1). lia.
Qed.

Lemma swap_loop_words (k : nat) (p : Z) (mem : Z -> Z) :
  (forall a, 0 <= mem a < 65536) ->
  forall a, 0 <= swap_loop k p mem a < 65536.
Proof.
  revert p mem. induction k as [| k IH]; intros p mem Hm; [exact Hm |].
  cbn [swap_loop]. apply IH. intros a. unfold upd.
  destruct (a =? p); [apply u16_range | apply Hm].
Qed.

Lemma read_image_file_words (fp : list byte) (mem mem' : Z -> Z) :
  (forall a, 0 <= mem a < 65536) ->
  read_image_file fp mem = Some mem' ->
  forall a, 0 <= mem' a < 65536.
Proof.
  intros Hm E.
  destruct fp as [| b0 [| b1 rest]];
    try (cbn in E; injection E as <-; exact Hm).
  unfold read_image_file in E. cbv zeta in E.
  pose proof (fread_words_words
                (Z.to_nat (u16 (MEMORY_MAX
                                - swap16 (byte_val b0 + 256 * byte_val b1))))
                rest (swap16 (byte_val b0 + 256 * byte_val b1)) mem Hm) as Hf.
  destruct (fread_words _ rest _ mem) as [m1 read]. cbn [fst] in Hf.
  injection E as <-. now apply swap_loop_words.
Qed.

Lemma load_loop_words (fs : filesystem) (argv : list string) (todo : nat) :
  forall (j : nat) (mem mem' : Z -> Z),
    (forall a, 0 <= mem a < 65536) ->
    load_loop todo j argv fs mem = inr mem' ->
    forall a, 0 <= mem' a < 65536.
Proof.
  induction todo as [| todo IH]; intros j mem mem' Hm E; cbn [load_loop] in E.
  - now injection E as <-.
  - unfold read_image in E. destruct (fs (nth j argv EmptyString)) as [fp |];
      [| discriminate E].
    apply (IH (S j) (load_file fp mem) mem'); [| exact E].
    unfold load_file.
    destruct (read_image_file fp mem) as [m1 |] eqn:E1; [| exact Hm].
    now apply (read_image_file_words fp mem m1).
Qed.

(** X7: every register and every memory cell holds a 16-bit value
    throughout: no cycle of the loop loses the property, and whatever the
    arguments, the files and the input, every state [main] reaches in its
    loop has it. *)
Theorem words_stay_16_bit (ready : nat -> bool) (fuel : nat) (s : vm)
        (argv : list string) (fs : filesystem) (input : list byte) :
  (word_state s -> word_state (run ready fuel s))
  /\ (forall t, main ready fuel argv fs input = Boot t -> word_state t).
Proof.
  split; [apply run_words |].
  intros t E. unfold main in E.
  destruct (main_startup argv fs input) as [c o | s0] eqn:E0;
    try discriminate E.
  injection E as <-. apply run_words.
  unfold main_startup in E0. cbv zeta in E0.
  destruct (List.length argv <? 2)%nat; [discriminate E0 |].
  destruct (load_loop _ 0 argv fs _) as [path | mem] eqn:El;
    try discriminate E0.
  injection E0 as <-. apply ws_boot.
  apply (load_loop_words fs argv (List.length argv - 0) 0 (fun _ => 0) mem);
    [| exact El].
  intros a. lia.
Qed.

Lemma words_stay_16_bit_witness :
  word_state (run never_ready 5 (boot (fun _ => 0) []))
  /\ (exists t,
        main never_ready 5 ["./lc3"; "prog.obj"]%string fs_with_program [] =
        Boot t
        /\ status t = Halted /\ word_state t)
  /\ (exists t,
        main never_ready 5 ["./lc3"; "prog.obj"]%string fs_one_byte [] =
        Boot t
        /\ status t = Halted /\ word_state t).
Proof.
  split; [| split].
  - destruct (words_stay_16_bit never_ready 5 (boot (fun _ => 0) []) []
                fs_image_only []) as [H _].
    apply H, ws_boot. intros a. lia.
  - eexists. split; [reflexivity |]. split; [reflexivity |].
    destruct (words_stay_16_bit never_ready 5 (boot (fun _ => 0) [])
                ["./lc3"; "prog.obj"]%string fs_with_program [])
      as [_ H].
    apply H. reflexivity.
  - eexists. split; [reflexivity |]. split; [reflexivity |].
    destruct (words_stay_16_bit never_ready 5 (boot (fun _ => 0) [])
                ["./lc3"; "prog.obj"]%string fs_one_byte [])
      as [_ H].
    apply H. reflexivity.
Defined.

Lemma fv_same_reg (s t : vm) : reg t = reg s -> flag_valid s -> flag_valid t.
Proof. unfold flag_valid. intros E. now rewrite E. Qed.

Lemma fv_set_reg (r v : Z) (s : vm) :
  0 <= r < 9 -> flag_valid s -> flag_valid (set_reg r v s).
Proof.
  unfold flag_valid, set_reg. cbn [reg]. intros Hr H.
  now rewrite upd_other by lia.
Qed.

Lemma fv_update_flags (r : Z) (s : vm) : flag_valid (update_flags r s).
Proof.
  unfold flag_valid, update_flags.
  destruct (reg s r =? 0); [| destruct (Z.shiftr (reg s r) 15 =? 0)];
    unfold set_reg; cbn [reg negb]; rewrite upd_same; cbv; tauto.
Qed.

Lemma fv_mem_write (a v : Z) (s : vm) :
  flag_valid s -> flag_valid (mem_write a v s).
Proof. now apply fv_same_reg. Qed.

Lemma fv_fputc (c : Z) (s : vm) : flag_valid s -> flag_valid (fputc c s).
Proof. now apply fv_same_reg. Qed.

Lemma fv_fputs (str : string) (s : vm) :
  flag_valid s -> flag_valid (fputs str s).
Proof. now apply fv_same_reg. Qed.

Lemma fv_set_status (st : run_status) (s : vm) :
  flag_valid s -> flag_valid (set_status st s).
Proof. now apply fv_same_reg. Qed.

Lemma fv_getchar (s : vm) : flag_valid s -> flag_valid (snd (getchar s)).
Proof.
  unfold getchar. destruct (stdin s); [trivial | now apply fv_same_reg].
Qed.

Lemma fv_mem_read (ready : nat -> bool) (a : Z) (s : vm) :
  flag_valid s -> flag_valid (snd (mem_read ready a s)).
Proof. apply fv_same_reg. apply mem_read_keeps. Qed.

Lemma fv_puts_loop (room : nat) (c : Z) (s : vm) :
  flag_valid s -> flag_valid (puts_loop room c s).
Proof. apply fv_same_reg. apply puts_loop_store. Qed.

Lemma fv_putsp_loop (room : nat) (c : Z) (s : vm) :
  flag_valid s -> flag_valid (putsp_loop room c s).
Proof. apply fv_same_reg. apply putsp_loop_store. Qed.

Lemma land7_below_9 (x : Z) : 0 <= Z.land x 7 < 9.
Proof. pose proof (land7_range x). lia. Qed.

#[local] Hint Resolve fv_set_reg fv_update_flags fv_mem_write fv_fputc
  fv_fputs fv_set_status fv_puts_loop fv_putsp_loop land7_below_9 : flags.
#[local] Hint Extern 1 (_ <= _ < _) => lia : flags.

Lemma fv_execute (ready : nat -> bool) (instr : Z) (s : vm) :
  flag_valid s -> flag_valid (execute ready instr s).
Proof.
  intros H. unfold execute. cbv zeta.
  destruct (Z.shiftr instr 12) as [| p | p];
    [| do 4 (try destruct p as [p | p |]) |];
    cbv iota;
    unfold op_add, op_and, op_not, op_br, op_jmp, op_jsr, op_ld, op_ldi,
      op_ldr, op_lea, op_st, op_sti, op_str; auto with flags;
    try (open_reads fv_mem_read fv_getchar; auto 10 with flags).
  unfold op_trap.
  destruct (Z.land instr 255) as [| q | q];
    [| do 6 (try destruct q as [q | q |]) |];
    open_reads fv_mem_read fv_getchar; auto 10 with flags.
Qed.

Lemma fv_step (ready : nat -> bool) (s : vm) :
  flag_valid s -> flag_valid (step ready s).
Proof.
  intros H. unfold step, fetch. cbv zeta.
  pose proof (fv_mem_read ready (reg s 8) (set_reg 8 (reg s 8 + 1) s)) as Hf.
  destruct (mem_read ready (reg s 8) _) as [instr t]. cbn [snd] in Hf.
  apply fv_execute, Hf, fv_set_reg; [lia | exact H].
Qed.

Lemma fv_run (ready : nat -> bool) (fuel : nat) (s : vm) :
  flag_valid s -> flag_valid (run ready fuel s).
Proof.
  revert s. induction fuel as [| fuel IH]; intros s H; cbn [run];
    [exact H |].
  destruct (status s); try exact H. now apply IH, fv_step.
Qed.

(** X8: the condition register holds exactly one of the three flags at
    every point of every run: it does in the state [main] enters its loop
    with, and every cycle, whatever the instruction, keeps it so. *)
Theorem flag_always_one_of_three (ready : nat -> bool) (fuel : nat)
        (s : vm) (mem : Z -> Z) (input : list byte) :
  flag_valid (run ready fuel (boot mem input))
  /\ (flag_valid s ->
      flag_valid (run ready fuel s)
      /\ Z.b2z (Z.testbit (reg (run ready fuel s) R_COND) 0)
         + Z.b2z (Z.testbit (reg (run ready fuel s) R_COND) 1)
         + Z.b2z (Z.testbit (reg (run ready fuel s) R_COND) 2) = 1).
Proof.
  split.
  - apply fv_run. right; left. reflexivity.
  - intros H. pose proof (fv_run ready fuel s H) as Hv.
    split; [exact Hv |].
    destruct Hv as [E | [E | E]]; rewrite E; reflexivity.
Qed.

Lemma flag_always_one_of_three_witness :
  flag_valid (run never_ready 3 (boot (image_memory jsr_add_image) [])).
Proof.
  destruct (flag_always_one_of_three never_ready 3
              (boot (image_memory jsr_add_image) []) (fun _ => 0) [])
    as [_ H].
  apply H. right; left. reflexivity.
Defined.

(** ** What a cycle leaves alone *)

Create HintDb cells.
Create HintDb outs.
Create HintDb quiet.

Lemma update_flags_keeps (r : Z) (s : vm) :
  memory (update_flags r s) = memory s
  /\ stdin (update_flags r s) = stdin s
  /\ stdout (update_flags r s) = stdout s
  /\ status (update_flags r s) = status s.
Proof.
  unfold update_flags.
  destruct (reg s r =? 0); [| destruct (Z.shiftr (reg s r) 15 =? 0)];
    repeat split.
Qed.

Lemma kc_same (m0 : Z -> Z) (s t : vm) :
  memory t = memory s -> keeps_cells m0 s -> keeps_cells m0 t.
Proof. unfold keeps_cells. intros E. now rewrite E. Qed.

Lemma kc_set_reg (m0 : Z -> Z) (r v : Z) (s : vm) :
  keeps_cells m0 s -> keeps_cells m0 (set_reg r v s).
Proof. now apply kc_same. Qed.

Lemma kc_update_flags (m0 : Z -> Z) (r : Z) (s : vm) :
  keeps_cells m0 s -> keeps_cells m0 (update_flags r s).
Proof. apply kc_same. apply update_flags_keeps. Qed.

Lemma kc_fputc (m0 : Z -> Z) (c : Z) (s : vm) :
  keeps_cells m0 s -> keeps_cells m0 (fputc c s).
Proof. now apply kc_same. Qed.

Lemma kc_fputs (m0 : Z -> Z) (str : string) (s : vm) :
  keeps_cells m0 s -> keeps_cells m0 (fputs str s).
Proof. now apply kc_same. Qed.

Lemma kc_set_status (m0 : Z -> Z) (st : run_status) (s : vm) :
  keeps_cells m0 s -> keeps_cells m0 (set_status st s).
Proof. now apply kc_same. Qed.

Lemma kc_puts_loop (m0 : Z -> Z) (room : nat) (c : Z) (s : vm) :
  keeps_cells m0 s -> keeps_cells m0 (puts_loop room c s).
Proof. apply kc_same. apply puts_loop_store. Qed.

Lemma kc_putsp_loop (m0 : Z -> Z) (room : nat) (c : Z) (s : vm) :
  keeps_cells m0 s -> keeps_cells m0 (putsp_loop room c s).
Proof. apply kc_same. apply putsp_loop_store. Qed.

Lemma kc_getchar (m0 : Z -> Z) (s : vm) :
  keeps_cells m0 s -> keeps_cells m0 (snd (getchar s)).
Proof.
  unfold getchar. destruct (stdin s); [trivial | now apply kc_same].
Qed.

Lemma kc_mem_read (m0 : Z -> Z) (ready : nat -> bool) (a : Z) (s : vm) :
  keeps_cells m0 s -> keeps_cells m0 (snd (mem_read ready a s)).
Proof.
  intros H. destruct (Z.eq_dec (u16 a) MR_KBSR) as [E | N].
  - rewrite <- mem_read_u16, E, mem_read_kbsr.
    destruct (ready (polls s)); cbn [snd]; intros q H1 H2; cbn [memory];
      rewrite ?upd_other by assumption; now apply H.
  - now rewrite mem_read_plain.
Qed.

#[local] Hint Resolve kc_set_reg kc_update_flags kc_fputc kc_fputs
  kc_set_status kc_puts_loop kc_putsp_loop : cells.

(** All the cases of the two [switch]es, on a goal about [execute]. *)
Ltac every_case :=
  unfold execute; cbv zeta;
  match goal with
  | |- context [Z.shiftr ?i 12] =>
      destruct (Z.shiftr i 12) as [| p | p];
      [| do 4 (try destruct p as [p | p |]) |]
  end;
  cbv iota;
  unfold op_add, op_and, op_not, op_br, op_jmp, op_jsr, op_ld, op_ldi,
    op_ldr, op_lea, op_st, op_sti, op_str;
  try (unfold op_trap;
       match goal with
       | |- context [Z.land ?i 255] =>
           destruct (Z.land i 255) as [| q | q];
           [| do 6 (try destruct q as [q | q |]) |]
       end).

(** X9: only ST, STI and STR write the memory.  With any other
    instruction, a cycle leaves every cell as it was, except that a read of
    0xFE00 may rewrite the two keyboard cells 0xFE00 and 0xFE02. *)
Theorem only_stores_write_memory (ready : nat -> bool) (s : vm) (a : Z) :
  ~ In (Z.shiftr (fst (fetch ready s)) 12) [OP_ST; OP_STI; OP_STR] ->
  a <> MR_KBSR -> a <> MR_KBDR ->
  memory (step ready s) a = memory s a.
Proof.
  intros Hop Ha Hb. revert a Ha Hb.
  change (keeps_cells (memory s) (step ready s)).
  unfold step, fetch in *. cbv zeta in *.
  pose proof (kc_mem_read (memory s) ready (reg s 8)
                (set_reg 8 (reg s 8 + 1) s)) as Hf.
  destruct (mem_read ready (reg s 8) _) as [instr t].
  cbn [fst snd] in *.
  assert (Ht : keeps_cells (memory s) t) by (apply Hf; intros q _ _; reflexivity).
  clear Hf. revert Hop. every_case; intros Hop;
    try (exfalso; apply Hop; cbn [In]; tauto);
    open_reads (kc_mem_read (memory s)) (kc_getchar (memory s));
    auto 10 with cells.
Qed.

Lemma only_stores_write_memory_witness :
  memory (step never_ready (boot (image_memory jsr_add_image) [])) 0x3000
  = 0x4801.
Proof.
  rewrite (only_stores_write_memory never_ready
             (boot (image_memory jsr_add_image) []) 0x3000).
  - reflexivity.
  - vm_compute. intros [H | [H | [H | []]]]; discriminate H.
  - discriminate.
  - discriminate.
Defined.

Lemma eo_same (o : list Z) (s t : vm) :
  stdout t = stdout s -> extends_output o s -> extends_output o t.
Proof. unfold extends_output. intros E. now rewrite E. Qed.

Lemma eo_refl (s : vm) : extends_output (stdout s) s.
Proof. exists []. now rewrite app_nil_r. Qed.

Lemma eo_set_reg (o : list Z) (r v : Z) (s : vm) :
  extends_output o s -> extends_output o (set_reg r v s).
Proof. now apply eo_same. Qed.

Lemma eo_update_flags (o : list Z) (r : Z) (s : vm) :
  extends_output o s -> extends_output o (update_flags r s).
Proof. apply eo_same. apply update_flags_keeps. Qed.

Lemma eo_mem_write (o : list Z) (a v : Z) (s : vm) :
  extends_output o s -> extends_output o (mem_write a v s).
Proof. now apply eo_same. Qed.

Lemma eo_set_status (o : list Z) (st : run_status) (s : vm) :
  extends_output o s -> extends_output o (set_status st s).
Proof. now apply eo_same. Qed.

Lemma eo_fputc (o : list Z) (c : Z) (s : vm) :
  extends_output o s -> extends_output o (fputc c s).
Proof.
  intros [l E]. exists (l ++ [c mod 256]). cbn [fputc stdout].
  now rewrite E, app_assoc.
Qed.

Lemma eo_fputs (o : list Z) (str : string) (s : vm) :
  extends_output o s -> extends_output o (fputs str s).
Proof.
  intros [l E]. exists (l ++ bytes_of_string str). cbn [fputs stdout].
  now rewrite E, app_assoc.
Qed.

Lemma eo_getchar (o : list Z) (s : vm) :
  extends_output o s -> extends_output o (snd (getchar s)).
Proof.
  unfold getchar. destruct (stdin s); [trivial | now apply eo_same].
Qed.

Lemma eo_mem_read (o : list Z) (ready : nat -> bool) (a : Z) (s : vm) :
  extends_output o s -> extends_output o (snd (mem_read ready a s)).
Proof. apply eo_same. apply mem_read_keeps. Qed.

Lemma eo_puts_loop (o : list Z) (room : nat) (c : Z) (s : vm) :
  extends_output o s -> extends_output o (puts_loop room c s).
Proof.
  revert c s. induction room as [| room IH]; intros c s H; cbn [puts_loop].
  - now apply eo_set_status.
  - destruct (memory s c =? 0); cbn [negb]; [exact H |].
    now apply IH, eo_fputc.
Qed.

Lemma eo_putsp_loop (o : list Z) (room : nat) (c : Z) (s : vm) :
  extends_output o s -> extends_output o (putsp_loop room c s).
Proof.
  revert c s. induction room as [| room IH]; intros c s H; cbn [putsp_loop].
  - now apply eo_set_status.
  - destruct (memory s c =? 0); cbn [negb]; [exact H |]. cbv zeta.
    apply IH. destruct (to_char (Z.shiftr (memory s c) 8) =? 0); cbn [negb];
      repeat apply eo_fputc; exact H.
Qed.

#[local] Hint Resolve eo_set_reg eo_update_flags eo_mem_write eo_set_status
  eo_fputc eo_fputs eo_puts_loop eo_putsp_loop : outs.

Lemma eo_step (o : list Z) (ready : nat -> bool) (s : vm) :
  extends_output o s -> extends_output o (step ready s).
Proof.
  intros H. unfold step, fetch. cbv zeta.
  pose proof (eo_mem_read o ready (reg s 8) (set_reg 8 (reg s 8 + 1) s)
                (eo_set_reg o 8 _ s H)) as Ht.
  destruct (mem_read ready (reg s 8) _) as [instr t]. cbn [snd] in Ht.
  every_case; open_reads (eo_mem_read o) (eo_getchar o); auto 10 with outs.
Qed.

Lemma eo_run (o : list Z) (ready : nat -> bool) (fuel : nat) (s : vm) :
  extends_output o s -> extends_output o (run ready fuel s).
Proof.
  revert s. induction fuel as [| fuel IH]; intros s H; cbn [run];
    [exact H |].
  destruct (status s); try exact H. now apply IH, eo_step.
Qed.

(** The same family for "the output is still [o]". *)
Lemma so_update_flags (o : list Z) (r : Z) (s : vm) :
  stdout s = o -> stdout (update_flags r s) = o.
Proof. intros <-. apply update_flags_keeps. Qed.

Lemma so_set_reg (o : list Z) (r v : Z) (s : vm) :
  stdout s = o -> stdout (set_reg r v s) = o.
Proof. trivial. Qed.

Lemma so_mem_write (o : list Z) (a v : Z) (s : vm) :
  stdout s = o -> stdout (mem_write a v s) = o.
Proof. trivial. Qed.

Lemma so_set_status (o : list Z) (st : run_status) (s : vm) :
  stdout s = o -> stdout (set_status st s) = o.
Proof. trivial. Qed.

Lemma so_mem_read (o : list Z) (ready : nat -> bool) (a : Z) (s : vm) :
  stdout s = o -> stdout (snd (mem_read ready a s)) = o.
Proof. intros <-. apply mem_read_keeps. Qed.

Lemma so_getchar (o : list Z) (s : vm) :
  stdout s = o -> stdout (snd (getchar s)) = o.
Proof. unfold getchar. destruct (stdin s); trivial. Qed.

#[local] Hint Resolve so_update_flags so_set_reg so_mem_write so_set_status
  : quiet.

(** X10: the output only grows: what has been written stays, in its
    place, at the head of the output of every later state of the run; and a
    cycle whose instruction is not a TRAP writes nothing. *)
Theorem output_is_append_only (ready : nat -> bool) (fuel : nat) (s : vm) :
  (exists l, stdout (run ready fuel s) = stdout s ++ l)
  /\ (Z.shiftr (fst (fetch ready s)) 12 <> OP_TRAP ->
      stdout (step ready s) = stdout s).
Proof.
  split; [apply eo_run, eo_refl |].
  unfold step, fetch. cbv zeta.
  pose proof (so_mem_read (stdout s) ready (reg s 8)
                (set_reg 8 (reg s 8 + 1) s) eq_refl) as Ht.
  destruct (mem_read ready (reg s 8) _) as [instr t]. cbn [fst snd] in *.
  unfold execute. cbv zeta.
  destruct (Z.shiftr instr 12) as [| p | p];
    [| do 4 (try destruct p as [p | p |]) |];
    cbv iota; intros Hop; try (exfalso; apply Hop; reflexivity);
    unfold op_add, op_and, op_not, op_br, op_jmp, op_jsr, op_ld, op_ldi,
      op_ldr, op_lea, op_st, op_sti, op_str;
    open_reads (so_mem_read (stdout s)) (so_getchar (stdout s));
    auto 10 with quiet.
Qed.

Lemma output_is_append_only_witness :
  stdout (step never_ready (boot (image_memory puts_image) [])) = [].
Proof.
  apply (output_is_append_only never_ready 0
           (boot (image_memory puts_image) [])).
  vm_compute. discriminate.
Defined.

Create HintDb keys.

Lemma ak_same (s t u : vm) :
  polls u = polls t -> stdin u = stdin t ->
  at_most_one_key s t -> at_most_one_key s u.
Proof. unfold at_most_one_key. intros E1 E2. now rewrite E1, E2. Qed.

Lemma ak_refl (s : vm) : at_most_one_key s s.
Proof. unfold at_most_one_key. lia. Qed.

Lemma ak_set_reg (s : vm) (r v : Z) (t : vm) :
  at_most_one_key s t -> at_most_one_key s (set_reg r v t).
Proof. now apply ak_same. Qed.

Lemma ak_update_flags (s : vm) (r : Z) (t : vm) :
  at_most_one_key s t -> at_most_one_key s (update_flags r t).
Proof.
  apply ak_same; [apply update_flags_polls | apply update_flags_keeps].
Qed.

Lemma ak_mem_write (s : vm) (a v : Z) (t : vm) :
  at_most_one_key s t -> at_most_one_key s (mem_write a v t).
Proof. now apply ak_same. Qed.

Lemma ak_set_status (s : vm) (st : run_status) (t : vm) :
  at_most_one_key s t -> at_most_one_key s (set_status st t).
Proof. now apply ak_same. Qed.

Lemma ak_fputc (s : vm) (c : Z) (t : vm) :
  at_most_one_key s t -> at_most_one_key s (fputc c t).
Proof. now apply ak_same. Qed.

Lemma ak_fputs (s : vm) (str : string) (t : vm) :
  at_most_one_key s t -> at_most_one_key s (fputs str t).
Proof. now apply ak_same. Qed.

Lemma ak_puts_loop (s : vm) (room : nat) (c : Z) (t : vm) :
  at_most_one_key s t -> at_most_one_key s (puts_loop room c t).
Proof. apply ak_same; [apply puts_loop_polls | apply puts_loop_store]. Qed.

Lemma ak_putsp_loop (s : vm) (room : nat) (c : Z) (t : vm) :
  at_most_one_key s t -> at_most_one_key s (putsp_loop room c t).
Proof. apply ak_same; [apply putsp_loop_polls | apply putsp_loop_store]. Qed.

#[local] Hint Resolve ak_set_reg ak_update_flags ak_mem_write ak_set_status
  ak_fputc ak_fputs ak_puts_loop ak_putsp_loop : keys.

(** The first key of a cycle: from a state where none was used yet. *)
Lemma ak_getchar (s t : vm) :
  polls t = polls s -> stdin t = stdin s ->
  at_most_one_key s (snd (getchar t)).
Proof.
  intros E1 E2. unfold at_most_one_key, getchar.
  destruct (stdin t) as [| b rest] eqn:E; cbn [snd polls stdin];
    rewrite ?E, E1, <- E2; cbn [List.length]; lia.
Qed.

Lemma mem_read_key (ready : nat -> bool) (a : Z) (s t : vm) :
  polls t = polls s -> stdin t = stdin s ->
  at_most_one_key s (snd (mem_read ready a t))
  /\ ((polls (snd (mem_read ready a t)) = polls s
       /\ stdin (snd (mem_read ready a t)) = stdin s)
      \/ fst (mem_read ready a t) = Z.shiftl 1 15
      \/ fst (mem_read ready a t) = 0).
Proof.
  intros E1 E2. destruct (Z.eq_dec (u16 a) MR_KBSR) as [E | N].
  - rewrite <- mem_read_u16, E, mem_read_kbsr.
    destruct (ready (polls t)); cbn [fst snd];
      (split; [| right; tauto]); unfold at_most_one_key, getchar;
      cbn [polls stdin]; rewrite <- ?E1, <- ?E2;
      destruct (stdin t) eqn:Et; cbn [snd stdin polls]; rewrite ?Et;
      cbn [List.length]; lia.
  - rewrite mem_read_plain by assumption. cbn [fst snd].
    split; [| left; tauto]. unfold at_most_one_key. rewrite E1, E2. lia.
Qed.

Lemma mem_read_after_key (ready : nat -> bool) (v : Z) (s t : vm) :
  v = Z.shiftl 1 15 \/ v = 0 ->
  at_most_one_key s t -> at_most_one_key s (snd (mem_read ready v t)).
Proof.
  intros Hv H. rewrite mem_read_plain; [exact H |].
  destruct Hv as [-> | ->]; discriminate.
Qed.

Lemma ak_execute_fresh (ready : nat -> bool) (instr : Z) (s t : vm) :
  polls t = polls s -> stdin t = stdin s ->
  at_most_one_key s (execute ready instr t).
Proof.
  intros E1 E2.
  assert (H0 : at_most_one_key s t)
    by (unfold at_most_one_key; rewrite E1, E2; lia).
  assert (Hread : forall a, at_most_one_key s (snd (mem_read ready a t)))
    by (intros a; now apply mem_read_key).
  every_case; cbv zeta;
    repeat match goal with
           | |- context [if negb ?c then _ else _] => destruct c; cbn [negb]
           end;
    auto 10 with keys;
    try (match goal with
         | |- context [getchar ?u] =>
             pose proof (ak_getchar s u E1 E2) as Hg;
             destruct (getchar u); cbn [snd] in Hg
         end; auto 10 with keys);
    try (match goal with
         | |- context [mem_read ready ?a t] =>
             pose proof (mem_read_key ready a s t E1 E2) as [Hk Hv];
             destruct (mem_read ready a t) as [v u] eqn:Er;
             cbn [fst snd] in Hk, Hv
         end).
  all: auto 10 with keys.
  (* LDI: the word read first is the address of the second read *)
  destruct Hv as [[P1 P2] | Hv].
  - pose proof (mem_read_key ready v s u P1 P2) as [Hk2 _].
    destruct (mem_read ready v u). cbn [snd] in Hk2. auto 10 with keys.
  - pose proof (mem_read_after_key ready v s u Hv Hk) as Hk2.
    destruct (mem_read ready v u). cbn [snd] in Hk2. auto 10 with keys.
Qed.

(** X11: in one cycle the keyboard is polled at most once and at most one
    byte is taken from the input, although a cycle makes up to three memory
    reads (the fetch and the two reads of LDI). *)
Theorem one_key_per_cycle (ready : nat -> bool) (s : vm) :
  (polls s <= polls (step ready s) <= S (polls s))%nat
  /\ (List.length (stdin (step ready s)) <= List.length (stdin s)
      <= S (List.length (stdin (step ready s))))%nat.
Proof.
  change (at_most_one_key s (step ready s)).
  unfold step, fetch. cbv zeta.
  set (s1 := set_reg 8 (reg s 8 + 1) s).
  pose proof (mem_read_key ready (reg s 8) s s1 eq_refl eq_refl) as [Hk Hv].
  destruct (mem_read ready (reg s 8) s1) as [instr t]. cbn [fst snd] in *.
  destruct Hv as [[P1 P2] | [-> | ->]].
  - now apply ak_execute_fresh.
  - unfold execute. cbn. now apply ak_set_status.
  - unfold execute, op_br. cbn. exact Hk.
Qed.

(** ** The traps, one by one *)

(** The state a trap routine starts in: PC advanced, R7 linked. *)
Lemma trap_entry (s : vm) :
  let t := set_reg R_R7 (reg (set_reg R_PC (reg s R_PC + 1) s) R_PC)
                   (set_reg R_PC (reg s R_PC + 1) s) in
  reg t R_R0 = reg s R_R0
  /\ (forall r, r <> R_R7 -> r <> R_PC -> reg t r = reg s r)
  /\ memory t = memory s /\ stdin t = stdin s /\ stdout t = stdout s
  /\ status t = status s /\ polls t = polls s.
Proof.
  cbv zeta. unfold set_reg. cbn [reg memory stdin stdout status polls].
  split; [now rewrite !upd_other by lia |].
  split; [intros r H7 H8; now rewrite !upd_other |].
  repeat split.
Qed.

(** X13: TRAP x25 writes the four characters HALT and ends the loop: the
    state after it is final, whatever fuel is left; memory, input and the
    registers other than PC and R7 are as before. *)
Theorem halt_ends_the_run (ready : nat -> bool) (s : vm) :
  let instr := fst (fetch ready s) in
  status s = Running ->
  Z.shiftr instr 12 = OP_TRAP ->
  Z.land instr 0xff = TRAP_HALT ->
  status (step ready s) = Halted
  /\ stdout (step ready s) = stdout s ++ [72; 65; 76; 84]
  /\ memory (step ready s) = memory s
  /\ stdin (step ready s) = stdin s
  /\ (forall r, r <> R_R7 -> r <> R_PC -> reg (step ready s) r = reg s r)
  /\ (forall fuel, run ready (S fuel) s = step ready s).
Proof.
  intros instr Hrun Hop Hvec.
  destruct (step_trap ready s Hop) as [_ Hs]. fold instr in Hs.
  destruct (trap_entry s) as [_ [Hr [Hm [Hi [Ho _]]]]].
  assert (Hst : status (step ready s) = Halted).
  { rewrite Hs. unfold op_trap. cbv zeta. rewrite Hvec. reflexivity. }
  split; [exact Hst |].
  split; [| split; [| split; [| split]]].
  - rewrite Hs. unfold op_trap. cbv zeta. rewrite Hvec. cbv iota.
    cbn [set_status fputs stdout]. now rewrite Ho.
  - rewrite Hs. unfold op_trap. cbv zeta. rewrite Hvec. exact Hm.
  - rewrite Hs. unfold op_trap. cbv zeta. rewrite Hvec. exact Hi.
  - rewrite Hs. unfold op_trap. cbv zeta. rewrite Hvec. exact Hr.
  - intros fuel. rewrite run_first by assumption. apply run_stopped.
    rewrite Hst. discriminate.
Qed.

Lemma halt_ends_the_run_witness :
  stdout (run never_ready 9 (boot (image_memory halt_image) [])) =
  [72; 65; 76; 84].
Proof.
  destruct (halt_ends_the_run never_ready (boot (image_memory halt_image) []))
    as [_ [Ho [_ [_ [_ Hrun]]]]].
  - reflexivity.
  - vm_compute. reflexivity.
  - vm_compute. reflexivity.
  - rewrite (Hrun 8%nat). exact Ho.
Defined.

Lemma reg_set_same (r v : Z) (s : vm) : reg (set_reg r v s) r = u16 v.
Proof. unfold set_reg. cbn [reg]. apply upd_same. Qed.

Lemma reg_set_other (r v q : Z) (s : vm) :
  q <> r -> reg (set_reg r v s) q = reg s q.
Proof. intros H. unfold set_reg. cbn [reg]. now apply upd_other. Qed.

Lemma uf_memory (r : Z) (s : vm) : memory (update_flags r s) = memory s.
Proof. apply update_flags_keeps. Qed.

Lemma uf_stdin (r : Z) (s : vm) : stdin (update_flags r s) = stdin s.
Proof. apply update_flags_keeps. Qed.

Lemma uf_stdout (r : Z) (s : vm) : stdout (update_flags r s) = stdout s.
Proof. apply update_flags_keeps. Qed.

Lemma uf_status (r : Z) (s : vm) : status (update_flags r s) = status s.
Proof. apply update_flags_keeps. Qed.

(** X14: TRAP x20 (GETC) takes the next input byte into R0, as a value
    below 256, and writes nothing (no echo); at the end of the input it does
    not fail: R0 becomes 0xFFFF, the flag Negative, and the run goes on. *)
Theorem getc_reads_one_byte (ready : nat -> bool) (s : vm) :
  let instr := fst (fetch ready s) in
  Z.shiftr instr 12 = OP_TRAP ->
  Z.land instr 0xff = TRAP_GETC ->
  stdout (step ready s) = stdout s
  /\ status (step ready s) = status s
  /\ memory (step ready s) = memory s
  /\ (forall b rest, stdin s = b :: rest ->
        reg (step ready s) R_R0 = byte_val b
        /\ reg (step ready s) R_R0 < 256
        /\ stdin (step ready s) = rest)
  /\ (stdin s = [] ->
        reg (step ready s) R_R0 = 0xFFFF
        /\ reg (step ready s) R_COND = FL_NEG
        /\ stdin (step ready s) = []).
Proof.
  intros instr Hop Hvec.
  destruct (step_trap ready s Hop) as [_ Hs]. fold instr in Hs.
  destruct (trap_entry s) as [_ [_ [Hm [Hi [Ho [Hst _]]]]]].
  unfold op_trap in Hs. cbv zeta in Hs. rewrite Hvec in Hs. cbv iota in Hs.
  set (t := set_reg 7 _ _) in *. unfold getchar in Hs. rewrite Hi in Hs.
  destruct (stdin s) as [| b rest]; rewrite Hs;
    rewrite uf_stdout, uf_status, uf_memory, uf_stdin;
    (split; [exact Ho |]); (split; [exact Hst |]); (split; [exact Hm |]).
  - split; [intros b rest E; discriminate E |]. intros _.
    destruct (update_flags_spec 0 (set_reg 0 EOF t)) as [Hk Hf];
      [lia | rewrite reg_set_same; apply u16_range |].
    rewrite Hk. rewrite reg_set_same in *.
    split; [reflexivity |]. split; [| exact Hi].
    destruct Hf as [[F _] | [[_ [_ F]] | [_ [F _]]]];
      [discriminate F | exact F | discriminate F].
  - split; [| intros E; discriminate E].
    intros b' rest' E. injection E as <- <-.
    match goal with
    | |- context [update_flags 0 ?u] =>
        destruct (update_flags_spec 0 u) as [Hk _];
        [lia | rewrite reg_set_same; apply u16_range |]
    end.
    rewrite Hk, reg_set_same.
    pose proof (byte_val_range b) as Hb.
    rewrite u16_small by lia. repeat split. lia.
Qed.

Lemma getc_reads_one_byte_witness :
  reg (step never_ready (boot (image_memory echo_image) ["a"%byte])) R_R0
  = 97.
Proof.
  destruct (getc_reads_one_byte never_ready
              (boot (image_memory echo_image) ["a"%byte]))
    as [_ [_ [_ [H _]]]].
  - vm_compute. reflexivity.
  - vm_compute. reflexivity.
  - destruct (H "a"%byte [] eq_refl) as [E _]. exact E.
Defined.

(** X15: TRAP x21 (OUT) writes one byte, the low byte of R0, and changes
    nothing but PC and R7. *)
Theorem out_writes_low_byte (ready : nat -> bool) (s : vm) :
  let instr := fst (fetch ready s) in
  Z.shiftr instr 12 = OP_TRAP ->
  Z.land instr 0xff = TRAP_OUT ->
  stdout (step ready s) = stdout s ++ [reg s R_R0 mod 256]
  /\ memory (step ready s) = memory s
  /\ stdin (step ready s) = stdin s
  /\ status (step ready s) = status s
  /\ (forall r, r <> R_R7 -> r <> R_PC -> reg (step ready s) r = reg s r).
Proof.
  intros instr Hop Hvec.
  destruct (step_trap ready s Hop) as [_ Hs]. fold instr in Hs.
  destruct (trap_entry s) as [H0 [Hr [Hm [Hi [Ho [Hst _]]]]]].
  unfold op_trap in Hs. cbv zeta in Hs. rewrite Hvec in Hs. cbv iota in Hs.
  rewrite Hs. cbn [fputc stdout memory stdin status reg].
  rewrite H0, Ho, to_char_byte.
  split; [reflexivity |]. split; [exact Hm |]. split; [exact Hi |].
  split; [exact Hst | exact Hr].
Qed.

Lemma out_writes_low_byte_witness :
  stdout (step never_ready
            (step never_ready (boot (image_memory echo_image) ["a"%byte])))
  = [97].
Proof.
  destruct (out_writes_low_byte never_ready
              (step never_ready (boot (image_memory echo_image) ["a"%byte])))
    as [H _].
  - vm_compute. reflexivity.
  - vm_compute. reflexivity.
  - rewrite H. vm_compute. reflexivity.
Defined.

(** X16: TRAP x23 (IN) writes the prompt "Enter a character: ", takes the
    next input byte, and writes it back after the prompt; the low byte of R0
    is that byte, and R0 is the byte itself when it is below 128. *)
Theorem in_prompts_and_echoes (ready : nat -> bool) (s : vm) (b : byte)
        (rest : list byte) :
  let instr := fst (fetch ready s) in
  Z.shiftr instr 12 = OP_TRAP ->
  Z.land instr 0xff = TRAP_IN ->
  stdin s = b :: rest ->
  stdout (step ready s) =
  stdout s ++ bytes_of_string "Enter a character: " ++ [byte_val b]
  /\ stdin (step ready s) = rest
  /\ reg (step ready s) R_R0 mod 256 = byte_val b
  /\ (byte_val b < 128 -> reg (step ready s) R_R0 = byte_val b)
  /\ memory (step ready s) = memory s
  /\ status (step ready s) = status s.
Proof.
  intros instr Hop Hvec Hin.
  destruct (step_trap ready s Hop) as [_ Hs]. fold instr in Hs.
  destruct (trap_entry s) as [_ [_ [Hm [Hi [Ho [Hst _]]]]]].
  unfold op_trap in Hs. cbv zeta in Hs. rewrite Hvec in Hs. cbv iota in Hs.
  set (t := set_reg 7 _ _) in *. unfold getchar in Hs.
  cbn [fputs stdin] in Hs. rewrite Hi, Hin in Hs.
  pose proof (byte_val_range b) as Hb.
  match type of Hs with
  | _ = update_flags 0 ?u =>
      destruct (update_flags_spec 0 u) as [Hk _];
      [lia | cbn [fputc reg]; rewrite reg_set_same; apply u16_range |]
  end.
  rewrite Hs, uf_stdout, uf_stdin, uf_memory, uf_status, Hk.
  cbn [fputc fputs set_reg stdout stdin memory status reg]. rewrite upd_same.
  rewrite to_char_byte, Ho.
  rewrite (Z.mod_small (byte_val b) 256) by lia.
  split; [now rewrite <- app_assoc |]. split; [reflexivity |].
  assert (Hlow : u16 (to_char (byte_val b)) mod 256 = byte_val b).
  { unfold u16.
    replace 65536 with (256 * 256) by reflexivity.
    rewrite Z.rem_mul_r by lia.
    replace (to_char (byte_val b) mod 256
             + 256 * ((to_char (byte_val b) / 256) mod 256))
      with (to_char (byte_val b) mod 256
            + ((to_char (byte_val b) / 256) mod 256) * 256) by lia.
    rewrite Z.mod_add by lia. rewrite Z.mod_mod by lia.
    rewrite to_char_byte. apply Z.mod_small. lia. }
  split; [exact Hlow |].
  split; [| split; [exact Hm | exact Hst]].
  intros H7. unfold to_char. cbv zeta.
  rewrite (Z.mod_small (byte_val b) 256) by lia.
  destruct (Z.ltb_spec (byte_val b) 128) as [_ | Hge]; [| lia].
  apply u16_small. lia.
Qed.

Lemma in_prompts_and_echoes_witness :
  let s := run never_ready 2 (boot (image_memory echo_image)
                                   ["a"%byte; "b"%byte]) in
  reg (step never_ready s) R_R0 = 98.
Proof.
  cbv zeta.
  destruct (in_prompts_and_echoes never_ready
              (run never_ready 2 (boot (image_memory echo_image)
                                       ["a"%byte; "b"%byte]))
              "b"%byte []) as [_ [_ [_ [H _]]]].
  - vm_compute. reflexivity.
  - vm_compute. reflexivity.
  - vm_compute. reflexivity.
  - apply H. vm_compute. reflexivity.
Defined.

(** ** The instructions, one by one *)

(** A cycle whose word is neither a BR nor the unused opcode 8 did not fetch
    from 0xFE00: its word is the cell at PC, and it executes on the state
    with only PC advanced. *)
Lemma step_exec (ready : nat -> bool) (s : vm) :
  Z.shiftr (fst (fetch ready s)) 12 <> OP_BR ->
  Z.shiftr (fst (fetch ready s)) 12 <> OP_RTI ->
  fst (fetch ready s) = memory s (u16 (reg s R_PC))
  /\ step ready s =
     execute ready (fst (fetch ready s)) (set_reg R_PC (reg s R_PC + 1) s).
Proof.
  intros H0 H8.
  assert (Hpc : u16 (reg s R_PC) <> MR_KBSR).
  { intros E. destruct (fetch_at_kbsr ready s E) as [F | F];
      rewrite F in *; [apply H8 | apply H0]; reflexivity. }
  unfold step. rewrite fetch_plain by assumption. split; reflexivity.
Qed.

Lemma land_le_l (a b : Z) : 0 <= a -> Z.land a b <= a.
Proof.
  intros Ha.
  assert (Hd : Z.land (Z.ldiff a b) (Z.land a b) = 0).
  { apply Z.bits_inj'. intros n Hn.
    rewrite !Z.land_spec, Z.ldiff_spec, Z.bits_0.
    destruct (Z.testbit a n), (Z.testbit b n); reflexivity. }
  pose proof (Z.lor_ldiff_and a b) as Hl.
  rewrite <- Z.lxor_lor, <- Z.add_nocarry_lxor in Hl by assumption.
  assert (0 <= Z.ldiff a b) by (apply Z.ldiff_nonneg; now left).
  lia.
Qed.

Lemma op_and_result (instr : Z) (s : vm) :
  let dr := Z.land (Z.shiftr instr 9) 0x7 in
  let sr1 := Z.land (Z.shiftr instr 6) 0x7 in
  let operand :=
    if Z.land (Z.shiftr instr 5) 0x1 =? 0
    then reg s (Z.land instr 0x7)
    else sign_extend (Z.land instr 0x1f) 5 in
  let s' := op_and instr s in
  let w := reg s' dr in
  w = u16 (Z.land (reg s sr1) operand)
  /\ ((w = 0 /\ reg s' R_COND = FL_ZRO)
      \/ (w <> 0 /\ Z.testbit w 15 = true /\ reg s' R_COND = FL_NEG)
      \/ (w <> 0 /\ Z.testbit w 15 = false /\ reg s' R_COND = FL_POS)).
Proof.
  cbv zeta. unfold op_and. cbv zeta.
  destruct (Z.land (Z.shiftr instr 5) 1 =? 0); cbn [negb];
    apply write_then_update_flags, land7_range.
Qed.

(** X17: AND, in both forms, is the bitwise AND of the 16-bit source with
    the operand; the result is never above the source, and AND with the
    immediate 0 clears the register and sets the flag to Zero. *)
Theorem and_is_bitwise (ready : nat -> bool) (s : vm) :
  let instr := fst (fetch ready s) in
  let s' := step ready s in
  let dr := Z.land (Z.shiftr instr 9) 0x7 in
  let sr1 := Z.land (Z.shiftr instr 6) 0x7 in
  let sr2 := Z.land instr 0x7 in
  let imm_flag := Z.land (Z.shiftr instr 5) 0x1 in
  let imm5 := sign_extend (Z.land instr 0x1f) 5 in
  Z.shiftr instr 12 = OP_AND ->
  0 <= reg s sr1 < 65536 ->
  (imm_flag <> 0 -> reg s' dr = Z.land (reg s sr1) imm5)
  /\ (imm_flag = 0 -> reg s' dr = Z.land (reg s sr1) (reg s sr2))
  /\ 0 <= reg s' dr <= reg s sr1
  /\ (imm_flag <> 0 -> Z.land instr 0x1f = 0 ->
      reg s' dr = 0 /\ reg s' R_COND = FL_ZRO).
Proof.
  intros instr s' dr sr1 sr2 imm_flag imm5 Hop Hsrc.
  assert (H1 : reg (snd (fetch ready s)) sr1 = reg s sr1).
  { apply fetch_reg. pose proof (land7_range (Z.shiftr instr 6)).
    subst sr1. lia. }
  assert (H2 : reg (snd (fetch ready s)) sr2 = reg s sr2).
  { apply fetch_reg. pose proof (land7_range instr). subst sr2. lia. }
  assert (Hs' : s' = op_and instr (snd (fetch ready s))).
  { subst s' instr. unfold step. destruct (fetch ready s) as [i t].
    cbn [fst snd] in *. unfold execute. cbv zeta. rewrite Hop. reflexivity. }
  destruct (op_and_result instr (snd (fetch ready s))) as [Hw Hf].
  rewrite <- Hs' in Hw, Hf. fold dr sr1 sr2 imm_flag imm5 in Hw, Hf.
  rewrite H1, H2 in Hw. clear Hs' H1 H2. clearbody s' instr.
  assert (Hrange : forall op, u16 (Z.land (reg s sr1) op)
                              = Z.land (reg s sr1) op
                              /\ 0 <= Z.land (reg s sr1) op <= reg s sr1).
  { intros op.
    assert (0 <= Z.land (reg s sr1) op <= reg s sr1).
    { split; [apply Z.land_nonneg; left; lia | apply land_le_l; lia]. }
    split; [apply u16_small; lia | assumption]. }
  split; [| split; [| split]].
  - intros Hi. apply Z.eqb_neq in Hi. rewrite Hi in Hw.
    rewrite Hw. apply Hrange.
  - intros Hi. apply Z.eqb_eq in Hi. rewrite Hi in Hw.
    rewrite Hw. apply Hrange.
  - rewrite Hw.
    destruct (imm_flag =? 0); rewrite (proj1 (Hrange _)); apply Hrange.
  - intros Hi Himm. apply Z.eqb_neq in Hi. rewrite Hi in Hw.
    subst imm5. rewrite Himm in Hw.
    change (sign_extend 0 5) with 0 in Hw. rewrite Z.land_0_r in Hw.
    change (u16 0) with 0 in Hw.
    split; [exact Hw |].
    destruct Hf as [[_ E] | [[N _] | [N _]]];
      [exact E | contradiction | contradiction].
Qed.

Lemma and_is_bitwise_witness :
  let s := boot (image_memory and_image) [] in
  reg (step never_ready s) 2 = 0 /\ reg (step never_ready s) R_COND = FL_ZRO.
Proof.
  cbv zeta.
  destruct (and_is_bitwise never_ready (boot (image_memory and_image) []))
    as [_ [_ [_ H]]].
  - vm_compute. reflexivity.
  - vm_compute. split; [discriminate | reflexivity].
  - apply H; vm_compute; [discriminate | reflexivity].
Defined.

Lemma u16_lnot (v : Z) : 0 <= v < 65536 -> u16 (Z.lnot v) = 65535 - v.
Proof.
  intros H. unfold u16, Z.lnot.
  replace (Z.pred (- v)) with (65535 - v + (-1) * 65536) by lia.
  rewrite Z.mod_add by lia. apply Z.mod_small. lia.
Qed.

Lemma step_not (ready : nat -> bool) (s : vm) :
  Z.shiftr (fst (fetch ready s)) 12 = OP_NOT ->
  0 <= reg s (Z.land (Z.shiftr (fst (fetch ready s)) 6) 0x7) < 65536 ->
  reg (step ready s) (Z.land (Z.shiftr (fst (fetch ready s)) 9) 0x7) =
  65535 - reg s (Z.land (Z.shiftr (fst (fetch ready s)) 6) 0x7).
Proof.
  intros Hop Hv.
  pose proof (fetch_reg ready s
                (Z.land (Z.shiftr (fst (fetch ready s)) 6) 0x7)) as Hr.
  unfold step. destruct (fetch ready s) as [instr t]. cbn [fst snd] in *.
  unfold execute. cbv zeta. rewrite Hop. cbv iota. unfold op_not. cbv zeta.
  destruct (write_then_update_flags (Z.land (Z.shiftr instr 9) 7)
              (Z.lnot (reg t (Z.land (Z.shiftr instr 6) 7))) t
              (land7_range _)) as [Hw _].
  rewrite Hw, Hr by (pose proof (land7_range (Z.shiftr instr 6)); lia).
  now apply u16_lnot.
Qed.

(** X18: NOT puts the 16-bit complement of the source, 65535 minus its
    value, in the destination; a second NOT on that result gives the first
    value back. *)
Theorem not_is_complement (ready : nat -> bool) (s : vm) :
  let instr := fst (fetch ready s) in
  let s1 := step ready s in
  let next := fst (fetch ready s1) in
  let dr := Z.land (Z.shiftr instr 9) 0x7 in
  let sr := Z.land (Z.shiftr instr 6) 0x7 in
  Z.shiftr instr 12 = OP_NOT ->
  0 <= reg s sr < 65536 ->
  reg s1 dr = 65535 - reg s sr
  /\ (Z.shiftr next 12 = OP_NOT ->
      Z.land (Z.shiftr next 6) 0x7 = dr ->
      reg (step ready s1) (Z.land (Z.shiftr next 9) 0x7) = reg s sr).
Proof.
  intros instr s1 next dr sr Hop Hv.
  pose proof (step_not ready s Hop Hv) as H1. fold instr s1 dr sr in H1.
  split; [exact H1 |].
  intros Hop2 Hsrc. unfold next in *.
  rewrite (step_not ready s1 Hop2); rewrite Hsrc, H1; lia.
Qed.

Lemma not_is_complement_witness :
  let s := step never_ready (boot (image_memory and_image) []) in
  reg (step never_ready s) 3 = 0xFFFF
  /\ reg (step never_ready (step never_ready s)) 4 = 0.
Proof.
  cbv zeta.
  destruct (not_is_complement never_ready
              (step never_ready (boot (image_memory and_image) [])))
    as [H1 H2].
  - vm_compute. reflexivity.
  - vm_compute. split; [discriminate | reflexivity].
  - split; [exact H1 |]. apply H2; vm_compute; reflexivity.
Defined.

Lemma land_pow2_zero (x k : Z) :
  0 <= k -> (Z.land x (2 ^ k) =? 0) = negb (Z.testbit x k).
Proof.
  intros Hk. destruct (Z.testbit x k) eqn:E; cbn [negb].
  - apply Z.eqb_neq. intros F.
    assert (Hb : Z.testbit (Z.land x (2 ^ k)) k = true).
    { rewrite Z.land_spec, E, Z.pow2_bits_eqb, Z.eqb_refl by lia.
      reflexivity. }
    rewrite F, Z.bits_0 in Hb. discriminate Hb.
  - apply Z.eqb_eq. apply Z.bits_inj'. intros n Hn.
    rewrite Z.land_spec, Z.bits_0, Z.pow2_bits_eqb by lia.
    destruct (Z.eqb_spec k n) as [<- | _];
      [rewrite E; reflexivity | apply andb_false_r].
Qed.

Lemma cond_bit (instr k : Z) :
  0 <= k < 3 ->
  Z.testbit (Z.land (Z.shiftr instr 9) 7) k = Z.testbit instr (k + 9).
Proof.
  intros Hk. rewrite Z.land_spec, Z.shiftr_spec by lia.
  assert (Z.testbit 7 k = true)
    by (assert (k = 0 \/ k = 1 \/ k = 2) as [-> | [-> | ->]] by lia;
        reflexivity).
  rewrite H. apply andb_true_r.
Qed.

(** X19: BR changes no register but PC.  It adds the sign-extended
    9-bit offset to the incremented PC when its condition bits meet the
    flag, and otherwise goes on to the next word; it tests bit 9 of the
    word against a Positive flag, bit 10 against Zero, bit 11 against
    Negative. *)
Theorem br_tests_flag_bits (ready : nat -> bool) (s : vm) :
  let instr := fst (fetch ready s) in
  let s' := step ready s in
  let pc_offset := sign_extend (Z.land instr 0x1ff) 9 in
  let taken :=
    negb (Z.land (Z.land (Z.shiftr instr 9) 0x7) (reg s R_COND) =? 0) in
  Z.shiftr instr 12 = OP_BR ->
  reg s' R_PC = (if taken then u16 (u16 (reg s R_PC + 1) + pc_offset)
                 else u16 (reg s R_PC + 1))
  /\ (forall r, r <> R_PC -> reg s' r = reg s r)
  /\ stdout s' = stdout s /\ status s' = status s
  /\ (reg s R_COND = FL_POS -> taken = Z.testbit instr 9)
  /\ (reg s R_COND = FL_ZRO -> taken = Z.testbit instr 10)
  /\ (reg s R_COND = FL_NEG -> taken = Z.testbit instr 11).
Proof.
  intros instr s' pc_offset taken Hop.
  destruct (fetch_keeps ready s) as [Hr [Ho Hst]].
  assert (Hs' : s' = op_br instr (snd (fetch ready s))).
  { subst s' instr. unfold step. destruct (fetch ready s) as [i t].
    cbn [fst snd] in *. unfold execute. cbv zeta. rewrite Hop. reflexivity. }
  assert (Hc : reg (snd (fetch ready s)) R_COND = reg s R_COND)
    by (apply fetch_reg; lia).
  pose proof (fetch_pc ready s) as Hpc.
  unfold op_br in Hs'. cbv zeta in Hs'. rewrite Hc, Hpc in Hs'.
  fold taken pc_offset in Hs'.
  split; [| split; [| split; [| split]]].
  - rewrite Hs'. destruct taken; [apply reg_set_same | exact Hpc].
  - intros r Hne. rewrite Hs'.
    destruct taken; [rewrite reg_set_other by assumption |];
      now apply fetch_reg.
  - rewrite Hs'. destruct taken; [cbn [set_reg stdout] |]; exact Ho.
  - rewrite Hs'. destruct taken; [cbn [set_reg status] |]; exact Hst.
  - subst taken. repeat split; intros E; rewrite E.
    + change FL_POS with (2 ^ 0). rewrite land_pow2_zero by lia.
      rewrite negb_involutive. apply (cond_bit instr 0). lia.
    + change FL_ZRO with (2 ^ 1). rewrite land_pow2_zero by lia.
      rewrite negb_involutive. apply (cond_bit instr 1). lia.
    + change FL_NEG with (2 ^ 2). rewrite land_pow2_zero by lia.
      rewrite negb_involutive. apply (cond_bit instr 2). lia.
Qed.

Lemma br_tests_flag_bits_witness :
  let s := step always_ready (boot (image_memory poll_image) ["a"%byte]) in
  reg (step always_ready s) R_PC = 0x3002.
Proof.
  cbv zeta.
  destruct (br_tests_flag_bits always_ready
              (step always_ready (boot (image_memory poll_image) ["a"%byte])))
    as [H _].
  - vm_compute. reflexivity.
  - rewrite H. vm_compute. reflexivity.
Defined.

(** X20: JSR and JSRR put the address of the next word in R7 and change
    no other register but PC.  JSR jumps relative to the incremented PC by
    the sign-extended 11-bit offset; JSRR jumps to the base register, read
    after R7 has been written: JSRR R7 therefore just goes on to the next
    word. *)
Theorem jsr_links_before_reading_base (ready : nat -> bool) (s : vm) :
  let instr := fst (fetch ready s) in
  let s' := step ready s in
  let flag := Z.land (Z.shiftr instr 11) 0x1 in
  let baseR := Z.land (Z.shiftr instr 6) 0x7 in
  Z.shiftr instr 12 = OP_JSR ->
  reg s' R_R7 = u16 (reg s R_PC + 1)
  /\ (flag <> 0 ->
      reg s' R_PC =
      u16 (u16 (reg s R_PC + 1) + sign_extend (Z.land instr 0x7ff) 11))
  /\ (flag = 0 -> baseR <> R_R7 -> reg s' R_PC = u16 (reg s baseR))
  /\ (flag = 0 -> baseR = R_R7 -> reg s' R_PC = u16 (reg s R_PC + 1))
  /\ (forall r, r <> R_R7 -> r <> R_PC -> reg s' r = reg s r).
Proof.
  intros instr s' flag baseR Hop.
  assert (Hs' : s' = op_jsr instr (snd (fetch ready s))).
  { subst s' instr. unfold step. destruct (fetch ready s) as [i t].
    cbn [fst snd] in *. unfold execute. cbv zeta. rewrite Hop. reflexivity. }
  pose proof (fetch_pc ready s) as Hpc.
  pose proof (fetch_reg ready s) as Hreg.
  pose proof (land7_range (Z.shiftr instr 6)) as Hb. fold baseR in Hb.
  unfold op_jsr in Hs'. cbv zeta in Hs'. fold flag baseR in Hs'.
  set (t := snd (fetch ready s)) in *.
  set (t7 := set_reg 7 (reg t 8) t) in *.
  assert (H7 : reg t7 7 = u16 (reg s 8 + 1))
    by (subst t7; rewrite reg_set_same, Hpc; apply u16_idem).
  assert (H8 : reg t7 8 = u16 (reg s 8 + 1))
    by (subst t7; now rewrite reg_set_other by lia).
  assert (Hrest : forall r, r <> 7 -> r <> 8 -> reg t7 r = reg s r)
    by (intros r Ha Hc; subst t7; rewrite reg_set_other by assumption;
        now apply Hreg).
  rewrite Hs'.
  destruct (Z.eqb_spec flag 0) as [E | N]; cbn [negb];
    (split; [now rewrite reg_set_other by lia |]).
  - split; [intros F; contradiction |].
    split; [intros _ Hne; rewrite reg_set_same, Hrest by lia; reflexivity |].
    split; [intros _ ->; rewrite reg_set_same, H7; apply u16_idem |].
    intros r Ha Hc. rewrite reg_set_other by assumption. now apply Hrest.
  - split; [intros _; now rewrite reg_set_same, H8 |].
    split; [intros F; contradiction |].
    split; [intros F; contradiction |].
    intros r Ha Hc. rewrite reg_set_other by assumption. now apply Hrest.
Qed.

Lemma jsr_links_before_reading_base_witness :
  reg (step never_ready (boot (image_memory jsr_add_image) [])) R_R7
  = 0x3001.
Proof.
  apply (jsr_links_before_reading_base never_ready
           (boot (image_memory jsr_add_image) [])).
  vm_compute. reflexivity.
Defined.

(** ** Stores and loads *)

Lemma step_store (ready : nat -> bool) (s : vm) (addr : Z) (sr : Z) :
  0 <= sr < 8 ->
  step ready s = mem_write addr (reg (set_reg R_PC (reg s R_PC + 1) s) sr)
                           (set_reg R_PC (reg s R_PC + 1) s) ->
  memory (step ready s) (u16 addr) = u16 (reg s sr)
  /\ (forall a, a <> u16 addr -> memory (step ready s) a = memory s a)
  /\ (forall r, r <> R_PC -> reg (step ready s) r = reg s r)
  /\ reg (step ready s) R_PC = u16 (reg s R_PC + 1).
Proof.
  intros Hsr E. rewrite E. unfold mem_write. cbn [set_memory memory reg].
  rewrite reg_set_other by lia.
  split; [apply upd_same |].
  split; [intros a Ha; now apply upd_other |].
  split; [intros r Hr; now apply reg_set_other | apply reg_set_same].
Qed.

Lemma step_load (ready : nat -> bool) (s : vm) (addr dr : Z) :
  0 <= dr < 8 ->
  u16 addr <> MR_KBSR ->
  step ready s =
  (let (v, t) := mem_read ready addr (set_reg R_PC (reg s R_PC + 1) s) in
   update_flags dr (set_reg dr v t)) ->
  reg (step ready s) dr = u16 (memory s (u16 addr))
  /\ memory (step ready s) = memory s
  /\ polls (step ready s) = polls s.
Proof.
  intros Hdr Ha E. rewrite E. rewrite mem_read_plain by assumption.
  destruct (write_then_update_flags dr
              (memory (set_reg 8 (reg s 8 + 1) s) (u16 addr))
              (set_reg 8 (reg s 8 + 1) s) Hdr) as [Hw _].
  rewrite Hw, uf_memory, update_flags_polls. repeat split.
Qed.

(** X21: ST writes the source register into the cell at the incremented PC
    plus the sign-extended offset and into no other cell; when the next
    instruction is an LD of that cell (not the keyboard status cell), it
    gets the stored value back. *)
Theorem st_then_ld_round_trip (ready : nat -> bool) (s : vm) :
  let instr := fst (fetch ready s) in
  let s1 := step ready s in
  let next := fst (fetch ready s1) in
  let sr := Z.land (Z.shiftr instr 9) 0x7 in
  let dr := Z.land (Z.shiftr next 9) 0x7 in
  let addr :=
    u16 (u16 (reg s R_PC + 1) + sign_extend (Z.land instr 0x1ff) 9) in
  let addr' :=
    u16 (u16 (reg s1 R_PC + 1) + sign_extend (Z.land next 0x1ff) 9) in
  Z.shiftr instr 12 = OP_ST ->
  0 <= reg s sr < 65536 ->
  memory s1 addr = reg s sr
  /\ (forall a, a <> addr -> memory s1 a = memory s a)
  /\ (forall r, r <> R_PC -> reg s1 r = reg s r)
  /\ (Z.shiftr next 12 = OP_LD -> addr' = addr -> addr <> MR_KBSR ->
      reg (step ready s1) dr = reg s sr).
Proof.
  intros instr s1 next sr dr addr addr' Hop Hv.
  destruct (step_exec ready s) as [_ Hs];
    [fold instr; rewrite Hop; discriminate
    | fold instr; rewrite Hop; discriminate |].
  fold instr s1 in Hs. unfold execute in Hs. cbv zeta in Hs.
  rewrite Hop in Hs. cbv iota in Hs. unfold op_st in Hs. cbv zeta in Hs.
  pose proof (land7_range (Z.shiftr instr 9)) as Hsr. fold sr in Hsr, Hs.
  destruct (step_store ready s _ sr Hsr Hs) as [Hm [Hframe [Hregs Hpc]]].
  fold s1 in Hm, Hframe, Hregs, Hpc. rewrite reg_set_same in Hm, Hframe.
  fold addr in Hm, Hframe. rewrite u16_small in Hm by assumption.
  split; [exact Hm |]. split; [exact Hframe |]. split; [exact Hregs |].
  intros Hop2 Haddr Hk.
  destruct (step_exec ready s1) as [_ Hs2];
    [fold next; rewrite Hop2; discriminate
    | fold next; rewrite Hop2; discriminate |].
  fold next in Hs2. unfold execute in Hs2. cbv zeta in Hs2.
  rewrite Hop2 in Hs2. cbv iota in Hs2. unfold op_ld in Hs2.
  cbv zeta in Hs2. fold dr in Hs2.
  pose proof (land7_range (Z.shiftr next 9)) as Hdr. fold dr in Hdr.
  assert (Hk' : u16 (reg (set_reg 8 (reg s1 8 + 1) s1) 8
                     + sign_extend (Z.land next 511) 9) <> MR_KBSR).
  { rewrite reg_set_same. fold addr'. rewrite Haddr. exact Hk. }
  destruct (step_load ready s1 _ dr Hdr Hk' Hs2) as [Hw _].
  rewrite Hw, reg_set_same. fold addr'. rewrite Haddr, Hm.
  now apply u16_small.
Qed.

Lemma st_then_ld_round_trip_witness :
  let s := step never_ready (boot (image_memory store_image) []) in
  reg (step never_ready (step never_ready s)) 2 = 0x3006.
Proof.
  cbv zeta.
  destruct (st_then_ld_round_trip never_ready
              (step never_ready (boot (image_memory store_image) [])))
    as [_ [_ [_ H]]].
  - vm_compute. reflexivity.
  - vm_compute. split; [discriminate | reflexivity].
  - assert (E := H).
    specialize (E ltac:(vm_compute; reflexivity) ltac:(vm_compute; reflexivity)
                  ltac:(vm_compute; discriminate)).
    vm_compute in E |- *. exact E.
Defined.

(** X22: the same for the register-relative pair: STR writes the source
    register into the cell at base register plus sign-extended 6-bit
    offset, modulo 65,536, and into no other cell; an LDR of that cell next
    gets the value back. *)
Theorem str_then_ldr_round_trip (ready : nat -> bool) (s : vm) :
  let instr := fst (fetch ready s) in
  let s1 := step ready s in
  let next := fst (fetch ready s1) in
  let sr := Z.land (Z.shiftr instr 9) 0x7 in
  let dr := Z.land (Z.shiftr next 9) 0x7 in
  let addr :=
    u16 (reg s (Z.land (Z.shiftr instr 6) 0x7)
         + sign_extend (Z.land instr 0x3f) 6) in
  let addr' :=
    u16 (reg s1 (Z.land (Z.shiftr next 6) 0x7)
         + sign_extend (Z.land next 0x3f) 6) in
  Z.shiftr instr 12 = OP_STR ->
  0 <= reg s sr < 65536 ->
  memory s1 addr = reg s sr
  /\ (forall a, a <> addr -> memory s1 a = memory s a)
  /\ (forall r, r <> R_PC -> reg s1 r = reg s r)
  /\ (Z.shiftr next 12 = OP_LDR -> addr' = addr -> addr <> MR_KBSR ->
      reg (step ready s1) dr = reg s sr).
Proof.
  intros instr s1 next sr dr addr addr' Hop Hv.
  destruct (step_exec ready s) as [_ Hs];
    [fold instr; rewrite Hop; discriminate
    | fold instr; rewrite Hop; discriminate |].
  fold instr s1 in Hs. unfold execute in Hs. cbv zeta in Hs.
  rewrite Hop in Hs. cbv iota in Hs. unfold op_str in Hs. cbv zeta in Hs.
  pose proof (land7_range (Z.shiftr instr 9)) as Hsr. fold sr in Hsr, Hs.
  pose proof (land7_range (Z.shiftr instr 6)) as Hb.
  destruct (step_store ready s _ sr Hsr Hs) as [Hm [Hframe [Hregs Hpc]]].
  fold s1 in Hm, Hframe, Hregs, Hpc.
  rewrite reg_set_other in Hm, Hframe by lia.
  fold addr in Hm, Hframe. rewrite u16_small in Hm by assumption.
  split; [exact Hm |]. split; [exact Hframe |]. split; [exact Hregs |].
  intros Hop2 Haddr Hk.
  destruct (step_exec ready s1) as [_ Hs2];
    [fold next; rewrite Hop2; discriminate
    | fold next; rewrite Hop2; discriminate |].
  fold next in Hs2. unfold execute in Hs2. cbv zeta in Hs2.
  rewrite Hop2 in Hs2. cbv iota in Hs2. unfold op_ldr in Hs2.
  cbv zeta in Hs2. fold dr in Hs2.
  pose proof (land7_range (Z.shiftr next 9)) as Hdr. fold dr in Hdr.
  pose proof (land7_range (Z.shiftr next 6)) as Hb2.
  assert (Hk' : u16 (reg (set_reg 8 (reg s1 8 + 1) s1)
                         (Z.land (Z.shiftr next 6) 7)
                     + sign_extend (Z.land next 63) 6) <> MR_KBSR).
  { rewrite reg_set_other by lia. fold addr'. rewrite Haddr. exact Hk. }
  destruct (step_load ready s1 _ dr Hdr Hk' Hs2) as [Hw _].
  rewrite Hw, reg_set_other by lia. fold addr'. rewrite Haddr, Hm.
  now apply u16_small.
Qed.

Lemma str_then_ldr_round_trip_witness :
  let s := run never_ready 3 (boot (image_memory store_image) []) in
  reg (step never_ready (step never_ready s)) 3 = 0x3006.
Proof.
  cbv zeta.
  destruct (str_then_ldr_round_trip never_ready
              (run never_ready 3 (boot (image_memory store_image) [])))
    as [_ [_ [_ H]]].
  - vm_compute. reflexivity.
  - vm_compute. split; [discriminate | reflexivity].
  - assert (E := H).
    specialize (E ltac:(vm_compute; reflexivity) ltac:(vm_compute; reflexivity)
                  ltac:(vm_compute; discriminate)).
    vm_compute in E |- *. exact E.
Defined.

(** X23: LDI and STI go through a pointer cell at the incremented PC plus
    offset: LDI loads the cell whose address the pointer cell holds, STI
    stores the source register there and nowhere else (as long as neither
    address is the keyboard status cell, whose read polls). *)
Theorem ldi_sti_follow_the_pointer (ready : nat -> bool) (s : vm) :
  let instr := fst (fetch ready s) in
  let s' := step ready s in
  let r := Z.land (Z.shiftr instr 9) 0x7 in
  let ptr :=
    u16 (u16 (reg s R_PC + 1) + sign_extend (Z.land instr 0x1ff) 9) in
  let target := u16 (memory s ptr) in
  ptr <> MR_KBSR ->
  (Z.shiftr instr 12 = OP_LDI -> target <> MR_KBSR ->
   reg s' r = u16 (memory s target) /\ memory s' = memory s)
  /\ (Z.shiftr instr 12 = OP_STI ->
      memory s' target = u16 (reg s r)
      /\ (forall a, a <> target -> memory s' a = memory s a)
      /\ (forall q, q <> R_PC -> reg s' q = reg s q)).
Proof.
  intros instr s' r ptr target Hp.
  pose proof (land7_range (Z.shiftr instr 9)) as Hr. fold r in Hr.
  split.
  - intros Hop Ht.
    destruct (step_exec ready s) as [_ Hs];
      [fold instr; rewrite Hop; discriminate
      | fold instr; rewrite Hop; discriminate |].
    fold instr s' in Hs. unfold execute in Hs. cbv zeta in Hs.
    rewrite Hop in Hs. cbv iota in Hs. unfold op_ldi in Hs. cbv zeta in Hs.
    rewrite reg_set_same in Hs. fold r in Hs.
    rewrite mem_read_plain in Hs by exact Hp. fold ptr in Hs.
    cbn [set_reg memory] in Hs.
    rewrite mem_read_plain in Hs by exact Ht. fold target in Hs.
    cbn [memory] in Hs.
    match type of Hs with
    | _ = update_flags r (set_reg r ?v ?t) =>
        destruct (write_then_update_flags r v t Hr) as [Hw _]
    end.
    rewrite Hs, Hw, uf_memory. split; reflexivity.
  - intros Hop.
    destruct (step_exec ready s) as [_ Hs];
      [fold instr; rewrite Hop; discriminate
      | fold instr; rewrite Hop; discriminate |].
    fold instr s' in Hs. unfold execute in Hs. cbv zeta in Hs.
    rewrite Hop in Hs. cbv iota in Hs. unfold op_sti in Hs. cbv zeta in Hs.
    rewrite reg_set_same in Hs. fold r in Hs.
    rewrite mem_read_plain in Hs by exact Hp. fold ptr in Hs.
    change (memory (set_reg 8 (reg s 8 + 1) s)) with (memory s) in Hs.
    rewrite reg_set_other in Hs by lia.
    rewrite Hs. unfold mem_write. cbn [set_memory memory].
    fold target.
    split; [apply upd_same |].
    split; [intros a Ha; now apply upd_other |].
    intros q Hq. now apply reg_set_other.
Qed.

Lemma ldi_sti_follow_the_pointer_witness :
  reg (step never_ready (boot (image_memory indirect_image) [])) 2 = 0xAB.
Proof.
  destruct (ldi_sti_follow_the_pointer never_ready
              (boot (image_memory indirect_image) [])) as [H _].
  - vm_compute. discriminate.
  - destruct H as [H _]; [vm_compute; reflexivity | vm_compute; discriminate |].
    vm_compute in H |- *. exact H.
Defined.

(** X24: LEA computes the incremented PC plus the sign-extended offset,
    modulo 65,536, and reads no memory: it polls nothing and takes no input
    even when the address is that of the keyboard status cell. *)
Theorem lea_reads_no_memory (ready : nat -> bool) (s : vm) :
  let instr := fst (fetch ready s) in
  let s' := step ready s in
  let dr := Z.land (Z.shiftr instr 9) 0x7 in
  Z.shiftr instr 12 = OP_LEA ->
  reg s' dr = u16 (u16 (reg s R_PC + 1) + sign_extend (Z.land instr 0x1ff) 9)
  /\ memory s' = memory s
  /\ polls s' = polls s
  /\ stdin s' = stdin s.
Proof.
  intros instr s' dr Hop.
  destruct (step_exec ready s) as [_ Hs];
    [fold instr; rewrite Hop; discriminate
    | fold instr; rewrite Hop; discriminate |].
  fold instr s' in Hs. unfold execute in Hs. cbv zeta in Hs.
  rewrite Hop in Hs. cbv iota in Hs. unfold op_lea in Hs. cbv zeta in Hs.
  fold dr in Hs. rewrite reg_set_same in Hs.
  pose proof (land7_range (Z.shiftr instr 9)) as Hdr. fold dr in Hdr.
  match type of Hs with
  | _ = update_flags dr (set_reg dr ?v ?t) =>
      destruct (write_then_update_flags dr v t Hdr) as [Hw _]
  end.
  rewrite Hs, Hw, uf_memory, update_flags_polls, uf_stdin. repeat split.
Qed.

Lemma lea_reads_no_memory_witness :
  reg (step never_ready (boot (image_memory store_image) [])) 1 = 0x3006.
Proof.
  apply (lea_reads_no_memory never_ready
           (boot (image_memory store_image) [])).
  vm_compute. reflexivity.
Defined.

(** ** Memory and the keyboard cells *)

(** X25: a read gives back what was last written to its address, and a
    write to another address does not change what it gives; the keyboard
    status cell is the exception: whatever is written to 0xFE00, the next
    read of it gives the ready mark or 0, by the poll alone. *)
Theorem write_then_read (ready : nat -> bool) (a b v : Z) (s : vm) :
  (u16 a <> MR_KBSR ->
   mem_read ready a (mem_write a v s) = (u16 v, mem_write a v s))
  /\ (u16 b <> u16 a -> u16 b <> MR_KBSR ->
      fst (mem_read ready b (mem_write a v s)) = memory s (u16 b))
  /\ (u16 a = MR_KBSR ->
      fst (mem_read ready a (mem_write a v s)) =
      if ready (polls s) then 0x8000 else 0).
Proof.
  split; [| split].
  - intros Ha. rewrite mem_read_plain by assumption.
    unfold mem_write. cbn [set_memory memory]. now rewrite upd_same.
  - intros Hb Hk. rewrite mem_read_plain by assumption.
    unfold mem_write. cbn [set_memory memory fst]. now apply upd_other.
  - intros Ha. rewrite <- mem_read_u16, Ha, mem_read_kbsr.
    cbn [mem_write set_memory polls].
    destruct (ready (polls s)); reflexivity.
Qed.

Lemma write_then_read_witness :
  fst (mem_read never_ready 0x4000 (mem_write 0x4000 7 (boot (fun _ => 0) [])))
  = 7
  /\ fst (mem_read never_ready MR_KBSR
                   (mem_write MR_KBSR 7 (boot (fun _ => 0) []))) = 0.
Proof.
  destruct (write_then_read never_ready 0x4000 0x4001 7
              (boot (fun _ => 0) [])) as [H1 _].
  destruct (write_then_read never_ready MR_KBSR 0 7
              (boot (fun _ => 0) [])) as [_ [_ H2]].
  split.
  - rewrite H1; [reflexivity | vm_compute; discriminate].
  - rewrite H2; reflexivity.
Defined.

(** X26: when PC has reached 0xFE00 the fetch itself polls the keyboard
    and the word executed is the status it has just stored: with a key
    there the word is 0x8000, the unused opcode 8, and the run aborts (the
    key is taken); with none the word is 0, a BR that never branches, and
    the cycle only moves PC on to 0xFE01. *)
Theorem fetch_at_keyboard_status (ready : nat -> bool) (s : vm) :
  u16 (reg s R_PC) = MR_KBSR ->
  (ready (polls s) = true ->
   fst (fetch ready s) = 0x8000
   /\ status (step ready s) = Aborted
   /\ stdin (step ready s) = tl (stdin s))
  /\ (ready (polls s) = false ->
      fst (fetch ready s) = 0
      /\ status (step ready s) = status s
      /\ reg (step ready s) R_PC = 0xFE01
      /\ (forall r, r <> R_PC -> reg (step ready s) r = reg s r)
      /\ stdin (step ready s) = stdin s
      /\ stdout (step ready s) = stdout s).
Proof.
  intros Hpc.
  assert (Hf : fetch ready s =
               mem_read ready MR_KBSR (set_reg 8 (reg s 8 + 1) s)).
  { unfold fetch. cbv zeta. now rewrite <- mem_read_u16, Hpc. }
  assert (Hnext : u16 (reg s 8 + 1) = 0xFE01).
  { unfold u16 in *. rewrite <- Z.add_mod_idemp_l, Hpc by lia. reflexivity. }
  unfold step. rewrite Hf, mem_read_kbsr. cbn [set_reg polls].
  split; intros Hk; rewrite Hk; cbn [fst].
  - split; [reflexivity |]. unfold execute. cbn.
    unfold getchar. cbn [set_reg stdin].
    destruct (stdin s) eqn:Es; cbn [snd stdin set_reg]; rewrite ?Es;
      split; reflexivity.
  - split; [reflexivity |]. unfold execute, op_br. cbn.
    split; [reflexivity |]. split; [exact Hnext |].
    split; [intros r Hr; now apply upd_other | split; reflexivity].
Qed.

Lemma fetch_at_keyboard_status_witness :
  status (step always_ready at_keyboard_status) = Aborted
  /\ reg (step never_ready at_keyboard_status) R_PC = 0xFE01.
Proof.
  destruct (fetch_at_keyboard_status always_ready at_keyboard_status)
    as [H1 _]; [reflexivity |].
  destruct (fetch_at_keyboard_status never_ready at_keyboard_status)
    as [_ H2]; [reflexivity |].
  split; [apply H1; reflexivity | apply H2; reflexivity].
Defined.

(** ** How the loop ends *)

Create HintDb alive.

Lemma al_set_reg (r v : Z) (s : vm) :
  status s = Running -> status (set_reg r v s) = Running.
Proof. trivial. Qed.

Lemma al_update_flags (r : Z) (s : vm) :
  status s = Running -> status (update_flags r s) = Running.
Proof. intros H. now rewrite uf_status. Qed.

Lemma al_mem_write (a v : Z) (s : vm) :
  status s = Running -> status (mem_write a v s) = Running.
Proof. trivial. Qed.

Lemma al_fputc (c : Z) (s : vm) :
  status s = Running -> status (fputc c s) = Running.
Proof. trivial. Qed.

Lemma al_fputs (str : string) (s : vm) :
  status s = Running -> status (fputs str s) = Running.
Proof. trivial. Qed.

Lemma al_mem_read (ready : nat -> bool) (a : Z) (s : vm) :
  status s = Running -> status (snd (mem_read ready a s)) = Running.
Proof. intros H. now rewrite (proj2 (proj2 (mem_read_keeps ready a s))). Qed.

Lemma al_getchar (s : vm) :
  status s = Running -> status (snd (getchar s)) = Running.
Proof. unfold getchar. destruct (stdin s); trivial. Qed.

#[local] Hint Resolve al_set_reg al_update_flags al_mem_write al_fputc
  al_fputs : alive.

Lemma puts_loop_status (room : nat) (c : Z) (s : vm) :
  (status (puts_loop room c s) = status s
   \/ status (puts_loop room c s) = OutOfBounds)
  /\ (status (putsp_loop room c s) = status s
      \/ status (putsp_loop room c s) = OutOfBounds).
Proof.
  revert c s. induction room as [| room IH]; intros c s;
    cbn [puts_loop putsp_loop]; [split; right; reflexivity |].
  destruct (memory s c =? 0); cbn [negb]; [split; left; reflexivity |].
  cbv zeta. split.
  - apply (IH (c + 1) (fputc (to_char (memory s c)) s)).
  - destruct (to_char (Z.shiftr (memory s c) 8) =? 0); cbn [negb];
      match goal with
      | |- context [putsp_loop room (c + 1) ?t] =>
          apply (proj2 (IH (c + 1) t))
      end.
Qed.

Lemma op_trap_status (instr : Z) (s : vm) :
  status s = Running ->
  status (op_trap instr s) = Running
  \/ (status (op_trap instr s) = Halted /\ Z.land instr 0xff = TRAP_HALT)
  \/ (status (op_trap instr s) = OutOfBounds
      /\ (Z.land instr 0xff = TRAP_PUTS \/ Z.land instr 0xff = TRAP_PUTSP)).
Proof.
  intros H. unfold op_trap. cbv zeta.
  set (t := set_reg 7 (reg s 8) s).
  assert (Ht : status t = Running) by exact H.
  destruct (puts_loop_status (Z.to_nat (MEMORY_MAX - reg t 0)) (reg t 0) t)
    as [[P1 | P1] [P2 | P2]];
    (destruct (Z.land instr 255) as [| q | q];
     [| do 6 (try destruct q as [q | q |]) |]);
    cbv iota;
    try (left; exact Ht);
    try (left; congruence);
    try (right; left; split; reflexivity);
    try (right; right; split; [assumption | tauto]);
    left; open_reads al_mem_read al_getchar; auto 10 with alive.
Qed.

Lemma execute_status (ready : nat -> bool) (instr : Z) (s : vm) :
  status s = Running ->
  0 <= Z.shiftr instr 12 < 16 ->
  status (execute ready instr s) = Running
  \/ (status (execute ready instr s) = Halted
      /\ Z.shiftr instr 12 = OP_TRAP /\ Z.land instr 0xff = TRAP_HALT)
  \/ (status (execute ready instr s) = Aborted
      /\ (Z.shiftr instr 12 = OP_RTI \/ Z.shiftr instr 12 = OP_RES))
  \/ (status (execute ready instr s) = OutOfBounds
      /\ Z.shiftr instr 12 = OP_TRAP
      /\ (Z.land instr 0xff = TRAP_PUTS \/ Z.land instr 0xff = TRAP_PUTSP)).
Proof.
  intros H Hop. unfold execute. cbv zeta.
  destruct (op_trap_status instr s H) as [T | [[T1 T2] | [T1 T2]]];
    (destruct (Z.shiftr instr 12) as [| p | p];
     [| do 4 (try destruct p as [p | p |]) |]);
    try lia; cbv iota;
    try (right; right; left; split; [reflexivity | tauto]);
    try (left; exact T);
    try (right; left; repeat split; assumption);
    try (right; right; right; repeat split; assumption);
    left;
    unfold op_add, op_and, op_not, op_br, op_jmp, op_jsr, op_ld, op_ldi,
      op_ldr, op_lea, op_st, op_sti, op_str;
    open_reads al_mem_read al_getchar; auto 10 with alive.
Qed.

(** X12: the loop ends in two ways only.  A cycle that starts running on a
    16-bit word leaves the machine running, unless the word is TRAP x25
    (halted) or has opcode 8 or 13 (aborted); for TRAP x22 and x24 this is
    so when a zero cell lies between the cell R0 names and the end of the
    memory, the scans that the program defines. *)
Theorem loop_ends_two_ways (ready : nat -> bool) (s : vm) :
  let instr := fst (fetch ready s) in
  let s' := step ready s in
  status s = Running ->
  0 <= instr < 65536 ->
  (Z.shiftr instr 12 = OP_TRAP ->
   Z.land instr 0xff = TRAP_PUTS \/ Z.land instr 0xff = TRAP_PUTSP ->
   exists j, reg s R_R0 <= j < 65536 /\ memory s j = 0) ->
  status s' = Running
  \/ (status s' = Halted
      /\ Z.shiftr instr 12 = OP_TRAP /\ Z.land instr 0xff = TRAP_HALT)
  \/ (status s' = Aborted
      /\ (Z.shiftr instr 12 = OP_RTI \/ Z.shiftr instr 12 = OP_RES)).
Proof.
  intros instr s' Hrun Hin Hzero.
  assert (Hop : 0 <= Z.shiftr instr 12 < 16).
  { rewrite Z.shiftr_div_pow2 by lia. change (2 ^ 12) with 4096.
    split; [apply Z.div_pos; lia | apply Z.div_lt_upper_bound; lia]. }
  assert (Ht : status (snd (fetch ready s)) = Running)
    by (now rewrite (proj2 (proj2 (fetch_keeps ready s)))).
  assert (Hst : status s' = Running
                \/ (status s' = Halted
                    /\ Z.shiftr instr 12 = OP_TRAP
                    /\ Z.land instr 0xff = TRAP_HALT)
                \/ (status s' = Aborted
                    /\ (Z.shiftr instr 12 = OP_RTI
                        \/ Z.shiftr instr 12 = OP_RES))
                \/ (status s' = OutOfBounds
                    /\ Z.shiftr instr 12 = OP_TRAP
                    /\ (Z.land instr 0xff = TRAP_PUTS
                        \/ Z.land instr 0xff = TRAP_PUTSP))).
  { subst s' instr. unfold step.
    destruct (fetch ready s) as [i t]. cbn [fst snd] in *.
    now apply execute_status. }
  destruct Hst as [H | [H | [H | [_ [Htrap Hvec]]]]];
    [now left | now right; left | now right; right |].
  left.
  destruct (Hzero Htrap Hvec) as [j [Hj Hz]].
  destruct (step_trap ready s Htrap) as [_ Hs]. fold instr s' in Hs.
  destruct (trap_entry s) as [H0 [_ [Hm [_ [_ [Hstat _]]]]]].
  set (t := set_reg R_R7 (reg (set_reg R_PC (reg s R_PC + 1) s) R_PC)
                    (set_reg R_PC (reg s R_PC + 1) s)) in *.
  set (r0 := reg s R_R0) in *.
  destruct (first_zero (memory t) r0 (Z.to_nat (MEMORY_MAX - r0)))
    as [k [Hk [Hkz Hbefore]]].
  { exists (Z.to_nat (j - r0)). split; [change MEMORY_MAX with 65536; lia |].
    replace (r0 + Z.of_nat (Z.to_nat (j - r0))) with j by lia.
    now rewrite Hm. }
  destruct (puts_loop_scan k (Z.to_nat (MEMORY_MAX - r0)) r0 t Hk Hbefore
              Hkz) as [_ [_ [_ [_ [_ Hp]]]]].
  destruct (putsp_loop_scan k (Z.to_nat (MEMORY_MAX - r0)) r0 t Hk Hbefore
              Hkz) as [_ [_ [_ [_ [_ Hp']]]]].
  destruct Hvec as [E | E]; rewrite Hs; unfold op_trap; cbv zeta;
    rewrite E; cbv iota; fold t; rewrite H0; fold r0.
  - rewrite Hp, Hstat. exact Hrun.
  - rewrite Hp', Hstat. exact Hrun.
Qed.

(** The cycle of a TRAP x22 whose string ends at x3005 leaves the machine
    running. *)
Lemma loop_ends_two_ways_witness :
  status (step never_ready
            (step never_ready (boot (image_memory puts_image) []))) =
  Running.
Proof.
  destruct (loop_ends_two_ways never_ready
              (step never_ready (boot (image_memory puts_image) [])))
    as [H | [[H _] | [H _]]].
  - reflexivity.
  - vm_compute. split; [discriminate | reflexivity].
  - intros _ _. exists 0x3005. vm_compute. repeat split; discriminate.
  - exact H.
  - vm_compute in H. discriminate H.
  - vm_compute in H. discriminate H.
Defined.

(** ** Words that do nothing *)

Lemma step_on_zero_memory (ready : nat -> bool) (s : vm) :
  (forall a, memory s a = 0) -> ready (polls s) = false ->
  status (step ready s) = status s
  /\ reg (step ready s) R_PC = u16 (reg s R_PC + 1)
  /\ (forall r, r <> R_PC -> reg (step ready s) r = reg s r)
  /\ stdout (step ready s) = stdout s
  /\ stdin (step ready s) = stdin s
  /\ (forall a, memory (step ready s) a = 0).
Proof.
  intros Hz Hk. destruct (Z.eq_dec (u16 (reg s R_PC)) MR_KBSR) as [E | N].
  - assert (Hf : fetch ready s =
                 mem_read ready MR_KBSR (set_reg 8 (reg s 8 + 1) s))
      by (unfold fetch; cbv zeta; now rewrite <- mem_read_u16, E).
    unfold step. rewrite Hf, mem_read_kbsr. cbn [set_reg polls].
    rewrite Hk. unfold execute, op_br. cbn.
    split; [reflexivity |]. split; [reflexivity |].
    split; [intros r Hr; now apply upd_other |].
    split; [reflexivity |]. split; [reflexivity |].
    intros a. unfold upd. destruct (a =? MR_KBSR); [reflexivity | apply Hz].
  - unfold step. rewrite fetch_plain by assumption. rewrite Hz.
    unfold execute, op_br. cbn.
    split; [reflexivity |]. split; [reflexivity |].
    split; [intros r Hr; now apply upd_other |].
    split; [reflexivity |]. split; [reflexivity | exact Hz].
Qed.

(** X27: the word 0 is a BR that never branches, so a machine whose
    memory is all zero and whose keyboard has no key never stops by itself:
    after any number of cycles it is still running, PC has advanced by that
    number modulo 65,536 (through the keyboard cells too), and registers,
    memory and output are untouched. *)
Theorem zero_memory_runs_on (ready : nat -> bool) (n : nat) (s : vm) :
  (forall a, memory s a = 0) ->
  (forall i, ready i = false) ->
  status s = Running ->
  0 <= reg s R_PC < 65536 ->
  status (run ready n s) = Running
  /\ reg (run ready n s) R_PC = (reg s R_PC + Z.of_nat n) mod 65536
  /\ (forall r, r <> R_PC -> reg (run ready n s) r = reg s r)
  /\ stdout (run ready n s) = stdout s
  /\ (forall a, memory (run ready n s) a = 0).
Proof.
  revert s. induction n as [| n IH]; intros s Hz Hk Hrun Hpc.
  - cbn [run]. split; [exact Hrun |].
    split; [rewrite Z.add_0_r; symmetry; now apply Z.mod_small |].
    repeat split. exact Hz.
  - rewrite run_first by assumption.
    destruct (step_on_zero_memory ready s Hz (Hk _))
      as [Hst [Hp [Hr [Ho [_ Hm]]]]].
    destruct (IH (step ready s) Hm Hk) as [I1 [I2 [I3 [I4 I5]]]].
    + now rewrite Hst.
    + rewrite Hp. apply u16_range.
    + split; [exact I1 |].
      split; [rewrite I2, Hp; unfold u16;
              rewrite Z.add_mod_idemp_l by lia; f_equal; lia |].
      split; [intros r Hne; rewrite I3 by assumption; now apply Hr |].
      split; [now rewrite I4 | exact I5].
Qed.

Lemma zero_memory_runs_on_witness :
  status (run never_ready 100 (boot (fun _ => 0) [])) = Running
  /\ reg (run never_ready 100 (boot (fun _ => 0) [])) R_PC = 0x3064.
Proof.
  destruct (zero_memory_runs_on never_ready 100 (boot (fun _ => 0) []))
    as [H1 [H2 _]]; try reflexivity.
  - vm_compute. split; [discriminate | reflexivity].
  - split; [exact H1 | exact H2].
Defined.
